(** * copy_image_model: a shallow embedding of [scripts/copy_image_model.py]

    The script discovers card images and models in a flat source directory,
    renames them by a suit/rank rule and copies them into the asset tree.

    Modelling decisions, fixed once for the whole development:
    - a Python [str] is a [string]; [str.lower] is the ASCII case mapping
      (file names of the deck are ASCII);
    - a [pathlib.Path] is the list of its [parts] (POSIX flavour), the anchor
      ["/"] being the first part of an absolute path;
    - [Path.suffix] and [Path.stem] split at the last dot as CPython up to
      3.13 does ([0 < i < len(name) - 1]);
    - every call into the operating system may fail with an [OSError]; the
      script is written once against an interface of such calls and run
      against any implementation of it, among them a finite-map file system;
    - exceptions of other classes (the [ValueError] of a path with a NUL
      byte, which no path the tool builds holds) are modelled for
      [is_same_file] alone, in the module [Exc];
    - the worker pool runs the plans one after the other in submission order;
      every future keeps the value or the exception of its plan. *)

From stdpp Require Import base option list strings gmap fin_maps.
From Stdlib Require Import Ascii String ZArith Lia Permutation.

Local Open Scope string_scope.

#[local] Arguments String.append !_ _ / : simpl nomatch.

(** ** Python strings *)

Module PyStr.

(** [c.lower()] on one ASCII character. *)
Definition lower_ascii (c : ascii) : ascii :=
  let n := nat_of_ascii c in
  if (65 <=? n)%nat && (n <=? 90)%nat then ascii_of_nat (n + 32) else c.

(** [s.lower()] *)
Fixpoint lower (s : string) : string :=
  match s with
  | EmptyString => EmptyString
  | String c r => String (lower_ascii c) (lower r)
  end.

(** [s.rfind(c)], with [None] for Python's [-1]. *)
Fixpoint rfind (c : ascii) (s : string) : option nat :=
  match s with
  | EmptyString => None
  | String a r =>
      match rfind c r with
      | Some i => Some (S i)
      | None => if Ascii.eqb a c then Some 0%nat else None
      end
  end.

(** [s[:i]] *)
Fixpoint take (i : nat) (s : string) : string :=
  match i, s with
  | S j, String a r => String a (take j r)
  | _, _ => EmptyString
  end.

(** [s[i:]] *)
Fixpoint drop (i : nat) (s : string) : string :=
  match i, s with
  | S j, String _ r => drop j r
  | _, _ => s
  end.

(** [s.startswith(p)] *)
Fixpoint startswith (s p : string) {struct p} : bool :=
  match p with
  | EmptyString => true
  | String b p' =>
      match s with
      | EmptyString => false
      | String a s' => Ascii.eqb a b && startswith s' p'
      end
  end.

(** [x in {..}] for a set literal of strings. *)
Definition mem (x : string) (l : list string) : bool :=
  existsb (String.eqb x) l.

(** [c in s] for a character. *)
Fixpoint contains (c : ascii) (s : string) : bool :=
  match s with
  | EmptyString => false
  | String a r => Ascii.eqb a c || contains c r
  end.

End PyStr.

(** ** pathlib *)

Abbreviation Path := (list string).

Module PyPath.
Import PyStr.

(** [p.name]: the last part, empty for the anchor and for the empty path. *)
Definition name (p : Path) : string :=
  match rev p with
  | [] => ""
  | x :: _ => if String.eqb x "/" then "" else x
  end.

(** The index at which the name splits into stem and suffix, if any. *)
Definition split_at (n : string) : option nat :=
  match rfind "." n with
  | Some i =>
      if (0 <? i)%nat && (i <? String.length n - 1)%nat then Some i else None
  | None => None
  end.

Definition suffix_of (n : string) : string :=
  match split_at n with Some i => drop i n | None => "" end.

Definition stem_of (n : string) : string :=
  match split_at n with Some i => take i n | None => n end.

(** [p.suffix] and [p.stem] *)
Definition suffix (p : Path) : string := suffix_of (name p).
Definition stem (p : Path) : string := stem_of (name p).

(** [p.is_absolute()] *)
Definition is_absolute (p : Path) : bool :=
  match p with
  | x :: _ => String.eqb x "/"
  | [] => false
  end.

(** [p.parent]: the anchor and the empty path are their own parents. *)
Definition parent (p : Path) : Path :=
  match p with
  | [x] => if String.eqb x "/" then p else []
  | _ => removelast p
  end.

(** Splitting a string at every ["/"]: the current component is
    accumulated in [cur]. *)
Fixpoint split_sep (cur : string) (s : string) : list string :=
  match s with
  | EmptyString => [cur]
  | String a r =>
      if Ascii.eqb a "/" then cur :: split_sep "" r
      else split_sep (cur +:+ String a "") r
  end.

Definition keep_component (c : string) : bool :=
  negb (String.eqb c "") && negb (String.eqb c ".").

(** [Path(s)]: empty and ["."] components are dropped, a leading slash
    is the anchor. *)
Definition of_string (s : string) : Path :=
  let comps := List.filter keep_component (split_sep "" s) in
  if startswith s "/" then "/" :: comps else comps.

(** A string that [Path(s)] keeps as one part: not empty, not ["."],
    without separator. The names of directory entries are such. *)
Definition single_part (s : string) : bool :=
  negb (String.eqb s "") && negb (String.eqb s ".") && negb (contains "/" s).

(** [p / q] for two paths: an absolute right operand replaces the left. *)
Definition join (p q : Path) : Path :=
  if is_absolute q then q else (p ++ q)%list.

(** [p / s] for a string. *)
Definition join_str (p : Path) (s : string) : Path := join p (of_string s).

End PyPath.

Declare Scope path_scope.
Delimit Scope path_scope with path.
Infix "//" := PyPath.join_str (at level 40, left associativity) : path_scope.

(** ** Configuration and data model *)

Definition IMAGE_EXTS : list string := [".png"; ".jpg"; ".jpeg"; ".webp"].
Definition MODEL_EXTS : list string := [".glb"].

Inductive Kind := image | model.

Record CopyPlan := mkCopyPlan { src : Path; dest : Path; kind : Kind }.

(** ** The name normalizer *)

Section Normalizer.
Import PyStr PyPath.

Definition SUITS : list string := ["c"; "d"; "h"; "s"].

(** [normalize_basename], lines 70-93. *)
Definition normalize_basename (p : Path) : string :=
  let nm := lower (stem p) in
  if (String.length nm <? 2)%nat then lower (name p)
  else
    let suit := take 1 nm in
    let rank := drop 1 nm in
    if negb (mem suit SUITS) then lower (name p)
    else
      let rank_out :=
        if String.eqb rank "1" then "a"
        else if mem rank ["t"; "10"] then "10"
        else rank in
      suit +:+ rank_out +:+ lower (suffix p).

(** The algorithm of the specification, step by step, on a file name:
    1. lowercase the stem; 2. fewer than two characters: the lowercased
    file name; 3. the first character is the suit candidate, and a
    candidate outside c, d, h, s gives the lowercased file name; 4. the
    rest is the rank token, ["1"] becoming ["a"], ["t"] and ["10"]
    becoming ["10"]; 5. suit, normalized rank and lowercased extension. *)
Definition spec_rank (rank : string) : string :=
  if String.eqb rank "1" then "a"
  else if String.eqb rank "t" || String.eqb rank "10" then "10"
  else rank.

Definition spec_normalize (filename : string) : string :=
  match lower (stem_of filename) with
  | String suit (String r0 rs) =>
      if existsb (Ascii.eqb suit) ["c"; "d"; "h"; "s"]%char
      then String suit (spec_rank (String r0 rs)) +:+ lower (suffix_of filename)
      else lower filename
  | _ => lower filename
  end.

End Normalizer.

Import PyStr PyPath.

(** ** Calls into the operating system *)

(** The kinds of [OSError] the file system raises: [pathlib] tells
    [FileNotFoundError] ([ENOENT]) from the others. *)
Inductive Errno := ENOENT | EEXIST | ENOTDIR | EISDIR | EACCES | EOTHER.

(** An [OSError]: its class and the text [str(e)] gives. *)
Record OSError := mkOSError { errno : Errno; strerror : string }.

Inductive result (A : Type) : Type :=
| Ok (a : A)
| Raise (e : OSError).
Arguments Ok {A} a.
Arguments Raise {A} e.

Definition is_ok {A} (r : result A) : bool :=
  match r with Ok _ => true | Raise _ => false end.

(** The calls the script makes, as they appear in a run's trace. *)
Inductive event :=
| EvExists (p : Path)
| EvIsDir (p : Path)
| EvIsFile (p : Path)
| EvStat (p : Path)
| EvIterdir (p : Path)
| EvMkdir (p : Path)
| EvCopy2 (s d : Path).

Definition is_write (e : event) : bool :=
  match e with
  | EvMkdir _ | EvCopy2 _ _ => true
  | _ => false
  end.

Definition is_copy (e : event) : bool :=
  match e with
  | EvCopy2 _ _ => true
  | _ => false
  end.

(** What the script needs of the file system. Every call returns a value
    or an [OSError], and the next state of the world, which may differ
    from the one before in any way. *)
Class FileSystem (W : Type) := {
  fs_exists : Path -> W -> result bool * W;            (* Path.exists *)
  fs_is_dir : Path -> W -> result bool * W;            (* Path.is_dir *)
  fs_is_file : Path -> W -> result bool * W;           (* Path.is_file *)
  fs_stat_size : Path -> W -> result nat * W;          (* Path.stat().st_size *)
  fs_iterdir : Path -> W -> result (list Path) * W;    (* Path.iterdir *)
  fs_mkdir_parents : Path -> W -> result unit * W;     (* Path.mkdir(parents=True, exist_ok=True) *)
  fs_copy2 : Path -> Path -> W -> result unit * W      (* shutil.copy2 *)
}.

(** ** The state and error monad of the script *)

Record State (W : Type) := mkState { world : W; trace : list event }.
Arguments mkState {W} world trace.
Arguments world {W} s.
Arguments trace {W} s.

Definition M (W A : Type) : Type := State W -> result A * State W.

Definition ret {W A} (a : A) : M W A := fun st => (Ok a, st).

Definition raise {W A} (e : OSError) : M W A := fun st => (Raise e, st).

Definition bind {W A B} (m : M W A) (k : A -> M W B) : M W B :=
  fun st =>
    match m st with
    | (Ok a, st') => k a st'
    | (Raise e, st') => (Raise e, st')
    end.

(** [try: m except OSError as e: h e] (every exception of the model is an
    [OSError], so [except Exception] is the same handler). *)
Definition try_except {W A} (m : M W A) (h : OSError -> M W A) : M W A :=
  fun st =>
    match m st with
    | (Ok a, st') => (Ok a, st')
    | (Raise e, st') => h e st'
    end.

(** One call: its outcome, the new world, and the call added to the trace. *)
Definition call {W A} (ev : event) (op : W -> result A * W) : M W A :=
  fun st =>
    let '(r, w) := op (world st) in
    (r, mkState w (trace st ++ [ev])%list).

Notation "'let*' x ':=' m 'in' k" := (bind m (fun x => k))
  (at level 10, x pattern, m at level 100, k at level 200).

(** ** The script *)

Section Script.
Context {W : Type} `{FileSystem W}.

Definition path_exists (p : Path) : M W bool := call (EvExists p) (fs_exists p).
Definition path_is_dir (p : Path) : M W bool := call (EvIsDir p) (fs_is_dir p).
Definition path_is_file (p : Path) : M W bool := call (EvIsFile p) (fs_is_file p).
Definition stat_size (p : Path) : M W nat := call (EvStat p) (fs_stat_size p).
Definition iterdir (p : Path) : M W (list Path) := call (EvIterdir p) (fs_iterdir p).
Definition shutil_copy2 (s d : Path) : M W unit := call (EvCopy2 s d) (fs_copy2 s d).

(** [is_same_file], lines 57-64. *)
Definition is_same_file (s d : Path) : M W bool :=
  try_except
    (let* ex := path_exists d in
     if ex then
       let* a := stat_size s in
       let* b := stat_size d in
       ret (a =? b)%nat
     else ret false)
    (fun _ => ret false).

(** [ensure_dir], lines 67-68. *)
Definition ensure_dir (p : Path) : M W unit :=
  call (EvMkdir p) (fs_mkdir_parents p).

(** [discover_files], lines 96-108: the loop over the listing. *)
Fixpoint discover_loop (entries images models : list Path)
  : M W (list Path * list Path) :=
  match entries with
  | [] => ret (images, models)
  | p :: rest =>
      let* f := path_is_file p in
      if negb f then discover_loop rest images models
      else
        let ext := lower (suffix p) in
        if mem ext IMAGE_EXTS then discover_loop rest (images ++ [p])%list models
        else if mem ext MODEL_EXTS then discover_loop rest images (models ++ [p])%list
        else discover_loop rest images models
  end.

Definition discover_files (src_dir : Path) : M W (list Path * list Path) :=
  let* entries := iterdir src_dir in
  discover_loop entries [] [].

(** [copy_one], lines 122-136. *)
Definition copy_one (plan : CopyPlan) (dry_run : bool) : M W (CopyPlan * string) :=
  let dest_parent := parent (dest plan) in
  let* _ := ensure_dir dest_parent in
  let* same := is_same_file (src plan) (dest plan) in
  if same then ret (plan, "skip (same size)")
  else if dry_run then ret (plan, "dry-run (would copy)")
  else
    try_except
      (let* _ := shutil_copy2 (src plan) (dest plan) in
       ret (plan, "copied"))
      (fun e => ret (plan, "ERROR: " +:+ strerror e)).

End Script.

(** [build_copy_plans], lines 111-119: two loops appending to [plans]. *)
Definition build_copy_plans (images models : list Path) (images_dest models_dest : Path)
  : list CopyPlan :=
  let plans := [] in
  let plans :=
    fold_left (fun plans p =>
                 let dest_name := normalize_basename p in
                 plans ++ [mkCopyPlan p (images_dest // dest_name)%path image])%list
              images plans in
  let plans :=
    fold_left (fun plans p =>
                 let dest_name := normalize_basename p in
                 plans ++ [mkCopyPlan p (models_dest // dest_name)%path model])%list
              models plans in
  plans.

(** The destination root of a kind, and the plan of one source file. *)
Definition root_of (images_dest models_dest : Path) (k : Kind) : Path :=
  match k with image => images_dest | model => models_dest end.

Definition plan_for (images_dest models_dest : Path) (k : Kind) (p : Path) : CopyPlan :=
  mkCopyPlan p (root_of images_dest models_dest k // normalize_basename p)%path k.

(** The four outcomes of a plan that returns. *)
Inductive outcome : string -> Prop :=
| outcome_skip : outcome "skip (same size)"
| outcome_dry : outcome "dry-run (would copy)"
| outcome_copied : outcome "copied"
| outcome_error e : outcome ("ERROR: " +:+ strerror e).

(** ** The command line *)

Record Args := mkArgs {
  args_src : Path;
  args_project_root : Path;
  args_images_dir : Path;
  args_models_dir : Path;
  args_threads : Z;
  args_dry_run : bool
}.

(** The counters of [main]'s reporting loop. *)
Record Tally := mkTally { copied : nat; skipped : nat; errors : nat }.

(** A future of the pool: the value [copy_one] returned or the exception
    it raised. *)
Abbreviation Future := (result (CopyPlan * string)).

(** The future of a plan that ended with the outcome "error". *)
Definition is_error (fut : Future) : bool :=
  match fut with
  | Ok (_, status) => startswith status "ERROR: "
  | Raise _ => false
  end.

(** The future of a plan that ended with the outcome "copied". *)
Definition is_copied (fut : Future) : bool :=
  match fut with
  | Ok (_, status) => String.eqb status "copied"
  | Raise _ => false
  end.

(** A relative path is taken from [base], lines 162-165. *)
Definition resolve (base p : Path) : Path :=
  if is_absolute p then p else join base p.

(** One round of the loop over [as_completed(futures)], lines 187-198:
    [fut.result()] raises what the plan raised. *)
Definition tally_step (t : Tally) (fut : Future) : result Tally :=
  match fut with
  | Raise e => Raise e
  | Ok (plan, status) =>
      if startswith status "copied" then Ok (mkTally (copied t + 1) (skipped t) (errors t))
      else if startswith status "skip" then Ok (mkTally (copied t) (skipped t + 1) (errors t))
      else if startswith status "dry-run" then Ok t
      else Ok (mkTally (copied t) (skipped t) (errors t + 1))
  end.

Fixpoint tally_loop (futures : list Future) (t : Tally) : result Tally :=
  match futures with
  | [] => Ok t
  | fut :: rest =>
      match tally_step t fut with
      | Ok t' => tally_loop rest t'
      | Raise e => Raise e
      end
  end.

Section Main.
Context {W : Type} `{FileSystem W}.

(** [ex.submit(copy_one, plan, dry_run)] for every plan, lines 184-185:
    the pool runs each plan to its end and keeps what it returned or
    raised in its future. *)
Fixpoint submit_all (plans : list CopyPlan) (dry_run : bool) : M W (list Future) :=
  match plans with
  | [] => ret []
  | plan :: rest =>
      fun st =>
        let '(fut, st') := copy_one plan dry_run st in
        bind (submit_all rest dry_run) (fun futs => ret (fut :: futs)) st'
  end.

(** The test of line 158: [not src_dir.exists() or not src_dir.is_dir()]. *)
Definition source_invalid (src_dir : Path) : M W bool :=
  let* ex := path_exists src_dir in
  if negb ex then ret true
  else let* d := path_is_dir src_dir in ret (negb d).

(** [main], lines 154-205, after [parse_args]: [cwd] is [Path.cwd()].
    The printed lines are left out, and so is the size of the pool,
    [max(1, args.threads)], which the sequential schedule does not use. *)
Definition main (cwd : Path) (args : Args) : M W Z :=
  let src_dir := args_src args in
  let* invalid := source_invalid src_dir in
  if invalid then ret 2%Z
  else
    let project_root := resolve cwd (args_project_root args) in
    let images_dest := resolve project_root (args_images_dir args) in
    let models_dest := resolve project_root (args_models_dir args) in
    let* (images, models) := discover_files src_dir in
    let plans := build_copy_plans images models images_dest models_dest in
    match plans with
    | [] => ret 0%Z
    | _ =>
        let* futures := submit_all plans (args_dry_run args) in
        match tally_loop futures (mkTally 0 0 0) with
        | Raise e => raise e
        | Ok t => ret (if (errors t =? 0)%nat then 0%Z else 1%Z)
        end
    end.

End Main.

(** ** A finite-map file system

    A state of the file system maps the paths that exist to their nodes.
    Links, ownership and time stamps are left out; the one permission kept
    is whether a directory may be listed. *)

Inductive node :=
| File (data : string)
| Dir (readable : bool).

Module MapFS.

Abbreviation FS := (gmap Path node).

Definition FileNotFoundError := mkOSError ENOENT "[Errno 2] No such file or directory".
Definition PermissionError := mkOSError EACCES "[Errno 13] Permission denied".
Definition FileExistsError := mkOSError EEXIST "[Errno 17] File exists".
Definition NotADirectoryError := mkOSError ENOTDIR "[Errno 20] Not a directory".
Definition IsADirectoryError := mkOSError EISDIR "[Errno 21] Is a directory".
Definition SameFileError := mkOSError EOTHER "source and destination are the same file".
Definition RecursionError := mkOSError EOTHER "maximum recursion depth exceeded".

(** [st_size] of a directory, as ext4 reports it. *)
Definition dir_size : nat := 4096.

Definition st_size (n : node) : nat :=
  match n with
  | File data => String.length data
  | Dir _ => dir_size
  end.

Definition is_dir_node (o : option node) : bool :=
  match o with Some (Dir _) => true | _ => false end.

Definition is_file_node (o : option node) : bool :=
  match o with Some (File _) => true | _ => false end.

Definition is_node (o : option node) : bool :=
  match o with Some _ => true | None => false end.

Definition exists_ (p : Path) (fs : FS) : result bool * FS :=
  (Ok (is_node (fs !! p)), fs).

Definition is_dir (p : Path) (fs : FS) : result bool * FS :=
  (Ok (is_dir_node (fs !! p)), fs).

Definition is_file (p : Path) (fs : FS) : result bool * FS :=
  (Ok (is_file_node (fs !! p)), fs).

Definition stat_size (p : Path) (fs : FS) : result nat * FS :=
  match fs !! p with
  | Some n => (Ok (st_size n), fs)
  | None => (Raise FileNotFoundError, fs)
  end.

(** The entries of a directory: the paths one part longer, in the order
    in which the map enumerates them. *)
Definition children (d : Path) (fs : FS) : list Path :=
  List.filter (fun k => bool_decide (parent k = d /\ k <> d)) (map fst (map_to_list fs)).

Definition iterdir (d : Path) (fs : FS) : result (list Path) * FS :=
  match fs !! d with
  | None => (Raise FileNotFoundError, fs)
  | Some (File _) => (Raise NotADirectoryError, fs)
  | Some (Dir false) => (Raise PermissionError, fs)
  | Some (Dir true) => (Ok (children d fs), fs)
  end.

(** [os.mkdir(p)] *)
Definition os_mkdir (p : Path) (fs : FS) : result unit * FS :=
  match fs !! p with
  | Some _ => (Raise FileExistsError, fs)
  | None =>
      match fs !! parent p with
      | None => (Raise FileNotFoundError, fs)
      | Some (File _) => (Raise NotADirectoryError, fs)
      | Some (Dir _) => (Ok tt, <[p := Dir true]> fs)
      end
  end.

(** [Path.mkdir(parents=.., exist_ok=True)] as pathlib writes it: try
    [os.mkdir]; on [FileNotFoundError] make the parent first and try
    again; on any other [OSError] accept an existing directory. [None]
    when the recursion is deeper than [fuel]. *)
Fixpoint mkdir (fuel : nat) (parents : bool) (p : Path) (fs : FS)
  : option (result unit * FS) :=
  match os_mkdir p fs with
  | (Ok u, fs1) => Some (Ok u, fs1)
  | (Raise e, fs1) =>
      match errno e with
      | ENOENT =>
          if negb parents || bool_decide (parent p = p) then Some (Raise e, fs1)
          else
            match fuel with
            | O => None
            | S f =>
                match mkdir f true (parent p) fs1 with
                | Some (Ok _, fs2) => mkdir f false p fs2
                | other => other
                end
            end
      | _ =>
          if is_dir_node (fs1 !! p) then Some (Ok tt, fs1) else Some (Raise e, fs1)
      end
  end.

Definition mkdir_parents (p : Path) (fs : FS) : result unit * FS :=
  match mkdir (List.length p) true p fs with
  | Some r => r
  | None => (Raise RecursionError, fs)
  end.

(** [shutil.copyfile(s, d)]: the same path is refused, the source is
    opened for reading, then the destination for writing. *)
Definition copyfile (s d : Path) (fs : FS) : result unit * FS :=
  if bool_decide (s = d) then (Raise SameFileError, fs)
  else
    match fs !! s with
    | None => (Raise FileNotFoundError, fs)
    | Some (Dir _) => (Raise IsADirectoryError, fs)
    | Some (File data) =>
        match fs !! d with
        | Some (Dir _) => (Raise IsADirectoryError, fs)
        | _ =>
            match fs !! parent d with
            | None => (Raise FileNotFoundError, fs)
            | Some (File _) => (Raise NotADirectoryError, fs)
            | Some (Dir _) => (Ok tt, <[d := File data]> fs)
            end
        end
    end.

(** [shutil.copy2(s, d)]: a destination that is a directory stands for
    the file of the source's name inside it. *)
Definition copy2 (s d : Path) (fs : FS) : result unit * FS :=
  let target := if is_dir_node (fs !! d) then (d ++ [name s])%list else d in
  copyfile s target fs.

(** Every node sits in a directory (the anchor and the working
    directory, their own parents, are directories). *)
Definition wf (fs : FS) : bool :=
  forallb (fun e => is_dir_node (fs !! parent (fst e))) (map_to_list fs).

(** [fs'] is [fs] with new directories on the way to [p], and nothing
    else. *)
Definition grows (p : Path) (fs fs' : FS) : Prop :=
  (forall q n, fs !! q = Some n -> fs' !! q = Some n)
  /\ (forall q, fs !! q = None ->
        fs' !! q = None \/ (fs' !! q = Some (Dir true) /\ q `prefix_of` p)).

(** The path [shutil.copy2] writes to. *)
Definition copy_target (fs : FS) (s d : Path) : Path :=
  if is_dir_node (fs !! d) then (d ++ [name s])%list else d.

(** The skip rule: the destination exists and its size is the size of
    the source. *)
Definition skip_rule (fs : FS) (s d : Path) : bool :=
  match fs !! d, fs !! s with
  | Some nd, Some ns => (st_size ns =? st_size nd)%nat
  | _, _ => false
  end.

(** The calls [is_same_file] makes on a state of the file system. *)
Definition same_file_events (fs : FS) (s d : Path) : list event :=
  match fs !! d, fs !! s with
  | None, _ => [EvExists d]
  | Some _, None => [EvExists d; EvStat s]
  | Some _, Some _ => [EvExists d; EvStat s; EvStat d]
  end.

End MapFS.

#[export] Instance MapFS_FileSystem : FileSystem (gmap Path node) := {
  fs_exists := MapFS.exists_;
  fs_is_dir := MapFS.is_dir;
  fs_is_file := MapFS.is_file;
  fs_stat_size := MapFS.stat_size;
  fs_iterdir := MapFS.iterdir;
  fs_mkdir_parents := MapFS.mkdir_parents;
  fs_copy2 := MapFS.copy2
}.

(** The two tests of the loop of [discover_files] on the finite-map file
    system: a regular file with an image extension, with the model
    extension. *)
Definition is_image_file (fs : gmap Path node) (p : Path) : bool :=
  MapFS.is_file_node (fs !! p) && mem (lower (suffix p)) IMAGE_EXTS.

Definition is_model_file (fs : gmap Path node) (p : Path) : bool :=
  MapFS.is_file_node (fs !! p) && mem (lower (suffix p)) MODEL_EXTS.

(** A future of the pool that holds a value holds one of the four
    outcomes. *)
Definition well_formed_future (fut : Future) : Prop :=
  match fut with
  | Ok (_, status) => outcome status
  | Raise _ => True
  end.

(** What one plan does to the finite-map file system when it is not a dry
    run: the directory step fails; or the skip rule applies after it; or
    the copy fails; or the copy writes the content of the source. *)
Inductive plan_step (q : CopyPlan) (fs : gmap Path node) : Future -> gmap Path node -> Prop :=
| step_raise e fs1 :
    MapFS.mkdir_parents (parent (dest q)) fs = (Raise e, fs1) ->
    plan_step q fs (Raise e) fs1
| step_skip u fs1 :
    MapFS.mkdir_parents (parent (dest q)) fs = (Ok u, fs1) ->
    MapFS.skip_rule fs1 (src q) (dest q) = true ->
    plan_step q fs (Ok (q, "skip (same size)")) fs1
| step_error u fs1 e :
    MapFS.mkdir_parents (parent (dest q)) fs = (Ok u, fs1) ->
    MapFS.skip_rule fs1 (src q) (dest q) = false ->
    MapFS.copy2 (src q) (dest q) fs1 = (Raise e, fs1) ->
    plan_step q fs (Ok (q, "ERROR: " +:+ strerror e)) fs1
| step_copied u fs1 data :
    MapFS.mkdir_parents (parent (dest q)) fs = (Ok u, fs1) ->
    MapFS.skip_rule fs1 (src q) (dest q) = false ->
    fs1 !! src q = Some (File data) ->
    src q <> MapFS.copy_target fs1 (src q) (dest q) ->
    MapFS.is_dir_node (fs1 !! MapFS.copy_target fs1 (src q) (dest q)) = false ->
    MapFS.is_dir_node (fs1 !! parent (MapFS.copy_target fs1 (src q) (dest q))) = true ->
    plan_step q fs (Ok (q, "copied"))
              (<[MapFS.copy_target fs1 (src q) (dest q) := File data]> fs1).

(** Two runs of the tool. *)

(** No destination is a directory. *)
Definition no_dest_dir (plans : list CopyPlan) (fs : gmap Path node) : Prop :=
  forall p, In p plans -> MapFS.is_dir_node (fs !! dest p) = false.

(** The plan found its destination in place: the skip rule applies and the
    destination's directory exists. *)
Definition settled (p : CopyPlan) (fs : gmap Path node) : Prop :=
  MapFS.skip_rule fs (src p) (dest p) = true
  /\ MapFS.is_dir_node (fs !! parent (dest p)) = true.

(** The source of the plan is not a regular file. *)
Definition dead (p : CopyPlan) (fs : gmap Path node) : Prop :=
  MapFS.is_file_node (fs !! src p) = false.

(** The copy of the plan cannot succeed: its source is not a regular file,
    while the destination's directory exists. *)
Definition failed (p : CopyPlan) (fs : gmap Path node) : Prop :=
  dead p fs /\ MapFS.is_dir_node (fs !! parent (dest p)) = true.

(** The directory step of the plan fails. *)
Definition stuck (p : CopyPlan) (fs : gmap Path node) : Prop :=
  is_ok (fst (MapFS.mkdir_parents (parent (dest p)) fs)) = false.

(** What the future of a plan says about the file system after it. *)
Definition after (p : CopyPlan) (fut : Future) (fs : gmap Path node) : Prop :=
  match fut with
  | Ok (pl, status) =>
      pl = p /\ if startswith status "ERROR: " then failed p fs else settled p fs
  | Raise _ => stuck p fs
  end.

(** The plan has nothing to do: running it leaves the file system as it
    is, and its outcome is not "copied". *)
Definition quiet (p : CopyPlan) (fs : gmap Path node) : Prop :=
  forall fut fs', plan_step p fs fut fs' -> fs' = fs /\ is_copied fut = false.

(** What the plans of a run can make of a file system: a regular file
    stays a regular file, a directory stays as it is, and what is new sits
    in a directory. *)
Definition later (fs fs' : gmap Path node) : Prop :=
  (forall q, MapFS.is_file_node (fs !! q) = true -> MapFS.is_file_node (fs' !! q) = true)
  /\ (forall q r, fs !! q = Some (Dir r) -> fs' !! q = Some (Dir r))
  /\ (forall q, fs !! q = None -> fs' !! q <> None ->
        parent q <> q /\ MapFS.is_dir_node (fs' !! parent q) = true).

(** The plans do not interfere: the destinations are pairwise distinct,
    none is the source of another plan (a plan whose destination is its
    own source is harmless), none lies on the way to the directory of a
    destination, and none is a directory. *)
Definition independent (plans : list CopyPlan) (fs : gmap Path node) : bool :=
  bool_decide (NoDup (map dest plans))
  && forallb (fun p =>
       forallb (fun q =>
         (negb (bool_decide (dest p = src q)) || bool_decide (src q = dest q))
         && negb (bool_decide (dest p `prefix_of` parent (dest q)))) plans) plans
  && forallb (fun p => negb (MapFS.is_dir_node (fs !! dest p))) plans.

(** Running a program of the script from an empty trace. *)
Definition run {W A} (m : M W A) (w : W) : result A * State W := m (mkState w []).

(** The futures the pool returned. *)
Definition futures_of {W} (r : result (list Future) * State W) : list Future :=
  match fst r with
  | Ok futures => futures
  | Raise _ => []
  end.

(** ** Sample decks *)

Module Samples.

(** A deck of two images and a model next to a text file and a
    directory, and an empty project. *)
Definition deck_fs : gmap Path node :=
  list_to_map
    [ (["/"], Dir true);
      (["/"; "deck"], Dir true);
      (["/"; "deck"; "d1.png"], File "ace");
      (["/"; "deck"; "hT.JPG"], File "ten!");
      (["/"; "deck"; "table.glb"], File "mesh");
      (["/"; "deck"; "notes.txt"], File "n");
      (["/"; "deck"; "old.png"], Dir true);
      (["/"; "proj"], Dir true) ].

Definition deck_args (dry_run : bool) : Args :=
  mkArgs ["/"; "deck"] ["/"; "proj"]
         ["assets"; "cards"; "images"] ["assets"; "cards"; "models"] 10 dry_run.

Definition images_root : Path := ["/"; "proj"; "assets"; "cards"; "images"].
Definition models_root : Path := ["/"; "proj"; "assets"; "cards"; "models"].

Definition ace_plan : CopyPlan :=
  mkCopyPlan ["/"; "deck"; "d1.png"] (images_root ++ ["da.png"])%list image.

(** The project already holds another file of three bytes as the ace. *)
Definition stale_fs : gmap Path node :=
  <[ (images_root ++ ["da.png"])%list := File "xyz" ]>
    (<[ images_root := Dir true ]>
       (<[ ["/"; "proj"; "assets"; "cards"] := Dir true ]>
          (<[ ["/"; "proj"; "assets"] := Dir true ]> deck_fs))).

(** The images directory of the project is a regular file. *)
Definition blocked_fs : gmap Path node :=
  <[ images_root := File "not a directory" ]>
    (<[ ["/"; "proj"; "assets"; "cards"] := Dir true ]>
       (<[ ["/"; "proj"; "assets"] := Dir true ]> deck_fs)).

(** The deck may not be listed. *)
Definition unreadable_fs : gmap Path node :=
  <[ ["/"; "deck"] := Dir false ]> deck_fs.

(** Two sources of different sizes with one normalized name. *)
Definition clash_fs : gmap Path node :=
  <[ ["/"; "deck"; "da.png"] := File "another ace" ]> deck_fs.

Definition clash_plans : list CopyPlan :=
  build_copy_plans
    [["/"; "deck"; "da.png"]; ["/"; "deck"; "d1.png"]; ["/"; "deck"; "hT.JPG"]]
    [["/"; "deck"; "table.glb"]] images_root models_root.

Definition deck_plans : list CopyPlan :=
  build_copy_plans
    [["/"; "deck"; "d1.png"]; ["/"; "deck"; "hT.JPG"]]
    [["/"; "deck"; "table.glb"]] images_root models_root.

(** The destination of the ace is a directory that holds a directory of
    the source's name. *)
Definition nested_fs : gmap Path node :=
  <[ (images_root ++ ["da.png"; "d1.png"])%list := Dir true ]>
    (<[ (images_root ++ ["da.png"])%list := Dir true ]> stale_fs).

End Samples.

(** ** The summary of a run *)

(** The future of a plan that ended with the outcome "skip". *)
Definition is_skipped (fut : Future) : bool :=
  match fut with
  | Ok (_, status) => String.eqb status "skip (same size)"
  | Raise _ => false
  end.

(** The future of a plan that ended with the outcome "would copy". *)
Definition is_would_copy (fut : Future) : bool :=
  match fut with
  | Ok (_, status) => String.eqb status "dry-run (would copy)"
  | Raise _ => false
  end.

(** How many futures pass a test. *)
Definition count (f : Future -> bool) (futures : list Future) : nat :=
  List.length (List.filter f futures).

(** The outcomes a plan can return in each mode. *)
Definition outcome_in_mode (dry_run : bool) (status : string) : Prop :=
  if dry_run
  then status = "skip (same size)" \/ status = "dry-run (would copy)"
  else status = "skip (same size)" \/ status = "copied"
       \/ exists e, status = "ERROR: " +:+ strerror e.

(** A future holds the plan it was made for, and an outcome of the mode. *)
Definition future_of (dry_run : bool) (p : CopyPlan) (fut : Future) : Prop :=
  match fut with
  | Ok (pl, status) => pl = p /\ outcome_in_mode dry_run status
  | Raise _ => True
  end.

(** The exit code of lines 182-205, from the futures in the order in
    which [as_completed] hands them over. *)
Definition exit_code_of (futures : list Future) : result Z :=
  match tally_loop futures (mkTally 0 0 0) with
  | Raise e => Raise e
  | Ok t => Ok (if (errors t =? 0)%nat then 0%Z else 1%Z)
  end.

(** The calls of [is_same_file] after the existence check. *)
Definition stat_calls (s d : Path) (evs : list event) : Prop :=
  evs = [] \/ evs = [EvStat s] \/ evs = [EvStat s; EvStat d].

(** The calls a run adds to the trace all pass the test [P]. *)
Definition adds {W} (P : event -> bool) (st st' : State W) : Prop :=
  exists evs, trace st' = (trace st ++ evs)%list /\ forallb P evs = true.

(** Any call but [shutil.copy2]. *)
Definition not_copy (e : event) : bool := negb (is_copy e).

(** The seven tests [main] and the summary make on a status. *)
Definition flags (s : string) : bool * bool * bool * bool * bool * bool * bool :=
  (startswith s "copied", startswith s "skip", startswith s "dry-run",
   startswith s "ERROR: ",
   String.eqb s "copied", String.eqb s "skip (same size)",
   String.eqb s "dry-run (would copy)").

(** [fs'] is [fs] with new directories, and nothing else: every entry of
    [fs] is kept as it is, and every other entry of [fs'] is a
    directory. *)
Definition only_new_dirs (fs fs' : gmap Path node) : Prop :=
  (forall q n, fs !! q = Some n -> fs' !! q = Some n)
  /\ (forall q n, fs' !! q = Some n -> fs !! q = Some n \/ n = Dir true).

(** The same, between two states of a run on the finite-map file
    system. *)
Definition keeps (st st' : State (gmap Path node)) : Prop :=
  only_new_dirs (world st) (world st').

(** ** The tool up to the end of the pool *)

Section Pool.
Context {W : Type} `{FileSystem W}.

(** [main] from the test of the source directory to the end of the pool,
    lines 157-185: the plans and their futures, and nothing when the
    source directory is refused. *)
Definition main_pool (cwd : Path) (args : Args)
  : M W (option (list CopyPlan * list Future)) :=
  let src_dir := args_src args in
  let* invalid := source_invalid src_dir in
  if invalid then ret None
  else
    let project_root := resolve cwd (args_project_root args) in
    let images_dest := resolve project_root (args_images_dir args) in
    let models_dest := resolve project_root (args_models_dir args) in
    let* (images, models) := discover_files src_dir in
    let plans := build_copy_plans images models images_dest models_dest in
    let* futures := submit_all plans (args_dry_run args) in
    ret (Some (plans, futures)).

(** The end of [main], lines 178-205, from what the pool gave. *)
Definition summary (o : option (list CopyPlan * list Future)) : M W Z :=
  match o with
  | None => ret 2%Z
  | Some (_, futures) =>
      match tally_loop futures (mkTally 0 0 0) with
      | Raise e => raise e
      | Ok t => ret (if (errors t =? 0)%nat then 0%Z else 1%Z)
      end
  end.

End Pool.

(** The plans and the futures of a run of [main_pool]. *)
Definition plans_in {W} (r : result (option (list CopyPlan * list Future)) * State W)
  : list CopyPlan :=
  match fst r with
  | Ok (Some (plans, _)) => plans
  | _ => []
  end.

Definition futures_in {W} (r : result (option (list CopyPlan * list Future)) * State W)
  : list Future :=
  match fst r with
  | Ok (Some (_, futures)) => futures
  | _ => []
  end.

(** The plans [main] builds from the listing of the source directory on
    the finite-map file system. *)
Definition listed_plans (cwd : Path) (args : Args) (fs : gmap Path node) : list CopyPlan :=
  let project_root := resolve cwd (args_project_root args) in
  build_copy_plans
    (List.filter (is_image_file fs) (MapFS.children (args_src args) fs))
    (List.filter (is_model_file fs) (MapFS.children (args_src args) fs))
    (resolve project_root (args_images_dir args))
    (resolve project_root (args_models_dir args)).

(** The test [discover_files] makes for the list of a kind. *)
Definition listed_as (fs : gmap Path node) (k : Kind) (s : Path) : bool :=
  match k with image => is_image_file fs s | model => is_model_file fs s end.

(** ** ASCII names *)

(** [s.isascii()]: on such a string the ASCII case mapping is [str.lower]
    itself. *)
Fixpoint isascii (s : string) : bool :=
  match s with
  | EmptyString => true
  | String c r => (nat_of_ascii c <? 128)%nat && isascii r
  end.

(** ** Exceptions that are not [OSError]

    [os.stat] refuses a path with an embedded NUL byte with a
    [ValueError], which is no [OSError], while [Path.exists] answers
    [False] for such a path. The calls of [is_same_file] are modelled
    here with both classes of exception, and [except OSError] catches the
    first class only. *)

Module Exc.

Inductive exception :=
| OSErr (e : OSError)
| ValueError (msg : string).

Inductive answer (A : Type) : Type :=
| Returns (a : A)
| Raises (x : exception).
Arguments Returns {A} a.
Arguments Raises {A} x.

(** The calls [is_same_file] makes. *)
Class Calls (W : Type) := {
  call_exists : Path -> W -> answer bool * W;       (* Path.exists *)
  call_stat_size : Path -> W -> answer nat * W      (* Path.stat().st_size *)
}.

Definition M (W A : Type) : Type := State W -> answer A * State W.

Definition ret {W A} (a : A) : M W A := fun st => (Returns a, st).

Definition bind {W A B} (m : M W A) (k : A -> M W B) : M W B :=
  fun st =>
    match m st with
    | (Returns a, st') => k a st'
    | (Raises x, st') => (Raises x, st')
    end.

(** [try: m except OSError: h]: an exception of another class passes. *)
Definition try_except_OSError {W A} (m : M W A) (h : OSError -> M W A) : M W A :=
  fun st =>
    match m st with
    | (Returns a, st') => (Returns a, st')
    | (Raises (OSErr e), st') => h e st'
    | (Raises x, st') => (Raises x, st')
    end.

Definition call {W A} (ev : event) (op : W -> answer A * W) : M W A :=
  fun st =>
    let '(r, w) := op (world st) in
    (r, mkState w (trace st ++ [ev])%list).

Section Script.
Context {W : Type} `{Calls W}.

Definition path_exists (p : Path) : M W bool := call (EvExists p) (call_exists p).
Definition stat_size (p : Path) : M W nat := call (EvStat p) (call_stat_size p).

(** [is_same_file], lines 57-64. *)
Definition is_same_file (s d : Path) : M W bool :=
  try_except_OSError
    (bind (path_exists d) (fun ex =>
       if ex then
         bind (stat_size s) (fun a =>
         bind (stat_size d) (fun b =>
         ret (a =? b)%nat))
       else ret false))
    (fun _ => ret false).

End Script.

(** An outcome of the first model, where every exception is an
    [OSError]. *)
Definition of_result {A} (r : result A) : answer A :=
  match r with
  | Ok a => Returns a
  | Raise e => Raises (OSErr e)
  end.

Definition of_call {A W} (r : result A * W) : answer A * W := (of_result (fst r), snd r).

Definition of_run {A W} (r : result A * State W) : answer A * State W :=
  (of_result (fst r), snd r).

(** Every file system of the first model gives the calls. *)
Definition of_FileSystem {W : Type} `{FileSystem W} : Calls W := {|
  call_exists p w := of_call (fs_exists p w);
  call_stat_size p w := of_call (fs_stat_size p w)
|}.




End Exc.

(** * Properties *)

(** ** Facts about Python strings *)

Section StringFacts.

Lemma lower_ascii_idem c : lower_ascii (lower_ascii c) = lower_ascii c.
Proof. destruct c as [[] [] [] [] [] [] [] []]; reflexivity. Qed.

Lemma lower_ascii_eqb_dot c : Ascii.eqb (lower_ascii c) "." = Ascii.eqb c ".".
Proof. destruct c as [[] [] [] [] [] [] [] []]; reflexivity. Qed.

Lemma lower_ascii_eqb_slash c : Ascii.eqb (lower_ascii c) "/" = Ascii.eqb c "/".
Proof. destruct c as [[] [] [] [] [] [] [] []]; reflexivity. Qed.

Lemma lower_idem s : lower (lower s) = lower s.
Proof. induction s as [|c s IH]; simpl; [reflexivity|]. by rewrite lower_ascii_idem, IH. Qed.

Lemma lower_app a b : lower (a +:+ b) = lower a +:+ lower b.
Proof. induction a as [|c a IH]; simpl; [reflexivity|]. by rewrite IH. Qed.

Lemma lower_length s : String.length (lower s) = String.length s.
Proof. induction s as [|c s IH]; simpl; [reflexivity|]. by rewrite IH. Qed.

Lemma lower_take i s : lower (take i s) = take i (lower s).
Proof.
  revert s; induction i as [|i IH]; intros [|c s]; simpl; try reflexivity.
  by rewrite IH.
Qed.

Lemma lower_drop i s : lower (drop i s) = drop i (lower s).
Proof.
  revert s; induction i as [|i IH]; intros [|c s]; simpl; try reflexivity.
  apply IH.
Qed.

Lemma rfind_dot_lower s : rfind "." (lower s) = rfind "." s.
Proof.
  induction s as [|c s IH]; simpl; [reflexivity|].
  by rewrite IH, lower_ascii_eqb_dot.
Qed.

Lemma contains_slash_lower s : contains "/" (lower s) = contains "/" s.
Proof.
  induction s as [|c s IH]; simpl; [reflexivity|].
  by rewrite IH, lower_ascii_eqb_slash.
Qed.

Lemma app_nil_r_str s : s +:+ "" = s.
Proof. induction s as [|c s IH]; simpl; [reflexivity|]. by rewrite IH. Qed.

Lemma app_assoc_str a b c : (a +:+ b) +:+ c = a +:+ (b +:+ c).
Proof. induction a as [|x a IH]; simpl; [reflexivity|]. by rewrite IH. Qed.

Lemma app_length_str a b : String.length (a +:+ b) = String.length a + String.length b.
Proof. induction a as [|x a IH]; simpl; [reflexivity|]. by rewrite IH. Qed.

Lemma take_drop s i : take i s +:+ drop i s = s.
Proof.
  revert s; induction i as [|i IH]; intros [|c s]; simpl; try reflexivity.
  by rewrite IH.
Qed.

Lemma take_app_length a b : take (String.length a) (a +:+ b) = a.
Proof. induction a as [|x a IH]; simpl; [by destruct b|]. by rewrite IH. Qed.

Lemma drop_app_length a b : drop (String.length a) (a +:+ b) = b.
Proof. induction a as [|x a IH]; simpl; [by destruct b|]. apply IH. Qed.

Lemma contains_app c a b : contains c (a +:+ b) = contains c a || contains c b.
Proof.
  induction a as [|x a IH]; simpl; [reflexivity|].
  by rewrite IH, orb_assoc.
Qed.

Lemma contains_take_drop c i s :
  contains c s = contains c (take i s) || contains c (drop i s).
Proof. by rewrite <- contains_app, take_drop. Qed.

(** The last dot of [a.e] when [e] has none. *)
Lemma rfind_app_dot a e :
  rfind "." e = None -> rfind "." (a +:+ String "." e) = Some (String.length a).
Proof.
  intros He. induction a as [|x a IH]; simpl.
  - by rewrite He.
  - by rewrite IH.
Qed.

Lemma rfind_Some_split c s i :
  rfind c s = Some i ->
  exists e, drop i s = String c e /\ rfind c e = None /\ String.length (take i s) = i.
Proof.
  revert i; induction s as [|x s IH]; simpl; intros i Hi; [discriminate|].
  destruct (rfind c s) as [j|] eqn:Hj.
  - injection Hi as <-. destruct (IH j eq_refl) as (e & He & Hn & Hl).
    exists e. simpl. by rewrite Hl.
  - destruct (Ascii.eqb x c) eqn:Hx; [|discriminate].
    injection Hi as <-. apply Ascii.eqb_eq in Hx as ->.
    by exists s.
Qed.

Lemma rfind_None_contains c s : rfind c s = None <-> contains c s = false.
Proof.
  induction s as [|x s IH]; simpl; [done|].
  destruct (rfind c s); destruct (Ascii.eqb x c); simpl; split; intros Hx;
    try discriminate; try done; try (by apply IH); try (by apply IH in Hx).
Qed.

End StringFacts.

(** ** Stem and suffix *)

Section SplitFacts.

Lemma stem_suffix n : stem_of n +:+ suffix_of n = n.
Proof.
  unfold stem_of, suffix_of. destruct (split_at n) as [i|].
  - apply take_drop.
  - apply app_nil_r_str.
Qed.

Lemma split_at_lower n : split_at (lower n) = split_at n.
Proof. unfold split_at. by rewrite rfind_dot_lower, lower_length. Qed.

Lemma stem_of_lower n : stem_of (lower n) = lower (stem_of n).
Proof.
  unfold stem_of. rewrite split_at_lower.
  destruct (split_at n); [by rewrite lower_take | reflexivity].
Qed.

Lemma suffix_of_lower n : suffix_of (lower n) = lower (suffix_of n).
Proof.
  unfold suffix_of. rewrite split_at_lower.
  destruct (split_at n); [by rewrite lower_drop | reflexivity].
Qed.

(** A name [a.e] with [a] and [e] not empty and no dot in [e] splits
    into the stem [a] and the suffix [.e]. *)
Lemma split_at_intro a e :
  rfind "." e = None -> e <> "" -> a <> "" ->
  split_at (a +:+ String "." e) = Some (String.length a).
Proof.
  intros He Hne Ha. unfold split_at. rewrite (rfind_app_dot a e He).
  rewrite app_length_str. simpl.
  destruct a as [|x a]; [done|]. destruct e as [|y e]; [done|]. simpl.
  replace (String.length a + S (S (String.length e)) - 0)
    with (S (S (String.length a + String.length e))) by lia.
  replace (S (String.length a) <? S (S (String.length a + String.length e)))%nat
    with true; [done|].
  symmetry. apply Nat.ltb_lt. lia.
Qed.

(** A suffix is either empty or a dot and a non-empty rest without dot,
    after a non-empty stem. *)
Lemma split_at_elim n i :
  split_at n = Some i ->
  exists e, drop i n = String "." e /\ rfind "." e = None /\ e <> ""
            /\ String.length (take i n) = i /\ take i n <> "".
Proof.
  unfold split_at. destruct (rfind "." n) as [j|] eqn:Hj; [|discriminate].
  destruct (0 <? j)%nat eqn:H0; simpl; [|discriminate].
  destruct (j <? String.length n - 1)%nat eqn:H1; [|discriminate].
  intros [= <-]. apply Nat.ltb_lt in H0, H1.
  destruct (rfind_Some_split _ _ _ Hj) as (e & Hd & Hn & Hl).
  exists e. repeat split; try done.
  - intros ->. pose proof (take_drop n j) as Htd. rewrite Hd in Htd.
    apply (f_equal String.length) in Htd. rewrite app_length_str, Hl in Htd.
    simpl in Htd. lia.
  - intros Ht. rewrite Ht in Hl. simpl in Hl. lia.
Qed.

Lemma suffix_of_app a e :
  rfind "." e = None -> e <> "" -> a <> "" ->
  suffix_of (a +:+ String "." e) = String "." e /\ stem_of (a +:+ String "." e) = a.
Proof.
  intros He Hne Ha. unfold suffix_of, stem_of.
  rewrite (split_at_intro a e He Hne Ha).
  by rewrite drop_app_length, take_app_length.
Qed.

(** A non-empty suffix stays the suffix when another non-empty stem is
    put before it. *)
Lemma resplit n a :
  a <> "" -> suffix_of n <> "" ->
  suffix_of (a +:+ suffix_of n) = suffix_of n /\ stem_of (a +:+ suffix_of n) = a.
Proof.
  intros Ha. unfold suffix_of at 1 3 4. unfold suffix_of at 2.
  destruct (split_at n) as [i|] eqn:Hs; [|done]. intros _.
  destruct (split_at_elim n i Hs) as (e & Hd & He & Hne & _ & _).
  rewrite Hd. by apply suffix_of_app.
Qed.

Lemma suffix_of_empty n : suffix_of n = "" -> split_at n = None.
Proof.
  unfold suffix_of. destruct (split_at n) as [i|] eqn:Hs; [|done].
  destruct (split_at_elim n i Hs) as (e & Hd & _). by rewrite Hd.
Qed.

End SplitFacts.

(** ** The name normalizer *)

Section NormalizerFacts.

(** The code and the algorithm of the specification agree on every path. *)
Lemma normalize_basename_unfold p : normalize_basename p = spec_normalize (name p).
Proof.
  unfold normalize_basename, spec_normalize, stem, suffix.
  destruct (lower (stem_of (name p))) as [|a [|b r]]; simpl; try reflexivity.
  unfold spec_rank; simpl.
  destruct (Ascii.eqb a "c"), (Ascii.eqb a "d"), (Ascii.eqb a "h"), (Ascii.eqb a "s");
    simpl; try reflexivity;
    destruct (Ascii.eqb b "1"), (Ascii.eqb b "t"), (String.eqb r ""), (String.eqb r "0");
    reflexivity.
Qed.

Lemma spec_rank_cases R :
  (R = "1" /\ spec_rank R = "a") \/
  ((R = "t" \/ R = "10") /\ spec_rank R = "10") \/
  (R <> "1" /\ R <> "t" /\ spec_rank R = R).
Proof.
  unfold spec_rank.
  destruct (String.eqb_spec R "1") as [->|H1]; [by left|].
  destruct (String.eqb_spec R "t") as [->|Ht]; [right; left; by split; [left|]|].
  destruct (String.eqb_spec R "10") as [->|H10]; [right; left; by split; [right|]|].
  right; right. by simpl.
Qed.

Lemma spec_rank_idem R : spec_rank (spec_rank R) = spec_rank R.
Proof.
  destruct (spec_rank_cases R) as [[_ E]|[[_ E]|(_ & _ & E)]];
    rewrite !E; reflexivity.
Qed.

Lemma spec_rank_lower R : lower R = R -> lower (spec_rank R) = spec_rank R.
Proof.
  intros HR.
  destruct (spec_rank_cases R) as [[_ ->]|[[_ ->]|(_ & _ & ->)]]; done.
Qed.

Lemma spec_rank_nonempty R : R <> "" -> spec_rank R <> "".
Proof.
  intros HR.
  destruct (spec_rank_cases R) as [[_ ->]|[[_ ->]|(_ & _ & ->)]]; done.
Qed.

Lemma split_at_suit_rank a R :
  split_at (String a R) = None -> split_at (String a (spec_rank R)) = None.
Proof.
  intros HR.
  destruct (spec_rank_cases R) as [[_ ->]|[[_ ->]|(_ & _ & ->)]]; [| |done];
    unfold split_at; simpl; destruct (Ascii.eqb a "."); reflexivity.
Qed.

Lemma spec_normalize_lower n : spec_normalize (lower n) = spec_normalize n.
Proof.
  unfold spec_normalize.
  by rewrite stem_of_lower, suffix_of_lower, !lower_idem.
Qed.

(** Normalizing twice is normalizing once, on every file name. *)
Lemma spec_normalize_idem n : spec_normalize (spec_normalize n) = spec_normalize n.
Proof.
  assert (Hfall : spec_normalize n = lower n ->
                  spec_normalize (spec_normalize n) = spec_normalize n).
  { intros E. by rewrite E at 1; rewrite spec_normalize_lower. }
  destruct (lower (stem_of n)) as [|a [|r0 rs]] eqn:Hst.
  - apply Hfall. unfold spec_normalize. by rewrite Hst.
  - apply Hfall. unfold spec_normalize. by rewrite Hst.
  - destruct (existsb (Ascii.eqb a) ["c"; "d"; "h"; "s"]%char) eqn:Hsuit.
    2:{ apply Hfall. unfold spec_normalize. by rewrite Hst, Hsuit. }
    clear Hfall.
    assert (Hn1 : spec_normalize n
                  = String a (spec_rank (String r0 rs)) +:+ lower (suffix_of n)).
    { unfold spec_normalize. by rewrite Hst, Hsuit. }
    assert (HRne : String r0 rs <> "") by done.
    remember (String r0 rs) as R eqn:HeqR. clear HeqR.
    rewrite Hn1.
    assert (HlowR : lower (String a R) = String a R).
    { rewrite <- Hst. apply lower_idem. }
    assert (Hlow : lower (String a (spec_rank R)) = String a (spec_rank R)).
    { simpl in HlowR |- *. injection HlowR as Ha HR.
      by rewrite Ha, (spec_rank_lower R HR). }
    assert (Hne : spec_rank R <> "") by (by apply spec_rank_nonempty).
    assert (Hsplit : stem_of (String a (spec_rank R) +:+ lower (suffix_of n))
                     = String a (spec_rank R)
                     /\ suffix_of (String a (spec_rank R) +:+ lower (suffix_of n))
                        = lower (suffix_of n)).
    { destruct (String.eqb_spec (suffix_of n) "") as [He|He].
      - pose proof (suffix_of_empty n He) as Hnone.
        assert (Hn : lower n = String a R).
        { rewrite <- Hst. unfold stem_of. by rewrite Hnone. }
        rewrite He. simpl lower. rewrite app_nil_r_str.
        assert (Hs2 : split_at (String a (spec_rank R)) = None).
        { apply split_at_suit_rank. rewrite <- Hn, split_at_lower. exact Hnone. }
        unfold stem_of, suffix_of. by rewrite Hs2.
      - rewrite <- suffix_of_lower.
        assert (He' : suffix_of (lower n) <> "").
        { rewrite suffix_of_lower. intros Hx. apply He.
          destruct (suffix_of n); [done | discriminate]. }
        destruct (resplit (lower n) (String a (spec_rank R))) as [H1 H2]; [done|done|].
        by split. }
    destruct Hsplit as [Hs1 Hs2].
    unfold spec_normalize. simpl (String a _ +:+ _) in Hs1, Hs2. simpl (String a _ +:+ _).
    rewrite Hs1, Hs2, Hlow, lower_idem.
    destruct (spec_rank R) as [|q0 qs] eqn:Hq; [done|].
    rewrite Hsuit, <- Hq, spec_rank_idem. reflexivity.
Qed.

End NormalizerFacts.

(** ** Joining a path and a file name *)

Section PathFacts.

Lemma split_sep_no_slash cur s :
  contains "/" s = false -> split_sep cur s = [cur +:+ s].
Proof.
  revert cur; induction s as [|c s IH]; intros cur Hs; simpl in *.
  - by rewrite app_nil_r_str.
  - apply orb_false_iff in Hs as [Hc Hs]. rewrite Hc.
    rewrite (IH _ Hs), app_assoc_str. reflexivity.
Qed.

Lemma startswith_no_slash s : contains "/" s = false -> startswith s "/" = false.
Proof.
  destruct s as [|c s]; simpl; [done|]. intros Hs.
  apply orb_false_iff in Hs as [Hc _]. by rewrite Hc.
Qed.

Lemma single_part_elim s :
  single_part s = true -> s <> "" /\ s <> "." /\ contains "/" s = false.
Proof.
  unfold single_part. intros Hs.
  apply andb_true_iff in Hs as [Hs H3]. apply andb_true_iff in Hs as [H1 H2].
  apply negb_true_iff in H1, H2, H3.
  apply String.eqb_neq in H1, H2. done.
Qed.

Lemma single_part_intro s :
  s <> "" -> s <> "." -> contains "/" s = false -> single_part s = true.
Proof.
  intros H1 H2 H3. unfold single_part.
  apply String.eqb_neq in H1, H2. by rewrite H1, H2, H3.
Qed.

Lemma single_part_not_anchor s : single_part s = true -> String.eqb s "/" = false.
Proof.
  intros Hs. apply single_part_elim in Hs as (_ & _ & Hc).
  apply String.eqb_neq. by intros ->.
Qed.

Lemma of_string_single s : single_part s = true -> of_string s = [s].
Proof.
  intros Hs. pose proof (single_part_not_anchor s Hs) as Ha.
  apply single_part_elim in Hs as (H1 & H2 & H3).
  unfold of_string. rewrite (startswith_no_slash s H3), (split_sep_no_slash "" s H3).
  simpl. unfold keep_component.
  apply String.eqb_neq in H1, H2. by rewrite H1, H2.
Qed.

Lemma join_str_single root s : single_part s = true -> (root // s)%path = (root ++ [s])%list.
Proof.
  intros Hs. unfold join_str, join. rewrite (of_string_single s Hs). simpl.
  by rewrite (single_part_not_anchor s Hs).
Qed.

Lemma name_snoc root s : String.eqb s "/" = false -> name (root ++ [s])%list = s.
Proof. intros Hs. unfold name. rewrite rev_unit. by rewrite Hs. Qed.

Lemma parent_snoc root s : String.eqb s "/" = false -> parent (root ++ [s])%list = root.
Proof.
  intros Hs. unfold parent. destruct root as [|r root]; simpl.
  - by rewrite Hs.
  - destruct (root ++ [s])%list as [|y l] eqn:E; [by destruct root|].
    rewrite <- E. f_equal. apply removelast_last.
Qed.

Lemma suit_char a :
  existsb (Ascii.eqb a) ["c"; "d"; "h"; "s"]%char = true ->
  a = "c"%char \/ a = "d"%char \/ a = "h"%char \/ a = "s"%char.
Proof.
  simpl. rewrite orb_false_r. intros Hs.
  repeat (apply orb_true_iff in Hs as [Hs|Hs]); apply Ascii.eqb_eq in Hs; auto.
Qed.

Lemma lower_single s : single_part s = true -> single_part (lower s) = true.
Proof.
  intros Hs. apply single_part_elim in Hs as (H1 & H2 & H3).
  apply single_part_intro.
  - by destruct s.
  - destruct s as [|c [|d s]]; try done. simpl. intros [= Hc].
    apply H2. f_equal. apply Ascii.eqb_eq. rewrite <- lower_ascii_eqb_dot.
    by apply Ascii.eqb_eq.
  - by rewrite contains_slash_lower.
Qed.

Lemma contains_stem_suffix c n :
  contains c n = false -> contains c (stem_of n) = false /\ contains c (suffix_of n) = false.
Proof.
  intros Hn. rewrite <- (stem_suffix n), contains_app in Hn.
  by apply orb_false_iff in Hn.
Qed.

(** The normalized name of a directory entry is the name of a directory
    entry. *)
Lemma spec_normalize_single n : single_part n = true -> single_part (spec_normalize n) = true.
Proof.
  intros Hn. unfold spec_normalize.
  destruct (lower (stem_of n)) as [|a [|r0 rs]] eqn:Hst; try by apply lower_single.
  destruct (existsb (Ascii.eqb a) ["c"; "d"; "h"; "s"]%char) eqn:Hsuit;
    [|by apply lower_single].
  apply single_part_elim in Hn as (_ & _ & Hc).
  destruct (contains_stem_suffix _ _ Hc) as [Hc1 Hc2].
  rewrite <- contains_slash_lower, Hst in Hc1. rewrite <- contains_slash_lower in Hc2.
  remember (String r0 rs) as R eqn:HeqR. clear HeqR.
  simpl in Hc1. apply orb_false_iff in Hc1 as [Ha HR].
  assert (HR' : contains "/" (spec_rank R) = false).
  { destruct (spec_rank_cases R) as [[_ ->]|[[_ ->]|(_ & _ & ->)]]; done. }
  apply single_part_intro.
  - done.
  - simpl. intros [= -> _]. discriminate.
  - simpl. by rewrite Ha, contains_app, HR', Hc2.
Qed.

End PathFacts.

(** ** The name normalizer and the plan builder: main results *)

(** C1: on every path [normalize_basename] computes what the algorithm of
    the specification computes on the path's file name (lowercase the
    stem; a stem of fewer than two characters or a first character outside
    c, d, h, s gives the lowercased file name; otherwise rank ["1"] becomes
    ["a"], ["t"] and ["10"] become ["10"], any other rank is kept, and the
    result is suit, rank and lowercased extension), and the five examples
    hold in whatever directory the file lies. *)
Theorem normalize_basename_follows_spec :
  (forall p : Path, normalize_basename p = spec_normalize (name p))
  /\ (forall dir : Path,
        normalize_basename (dir ++ ["d1.png"])%list = "da.png"
        /\ normalize_basename (dir ++ ["dt.png"])%list = "d10.png"
        /\ normalize_basename (dir ++ ["s10.jpg"])%list = "s10.jpg"
        /\ normalize_basename (dir ++ ["h5.webp"])%list = "h5.webp"
        /\ normalize_basename (dir ++ ["zz.png"])%list = "zz.png").
Proof.
  split; [exact normalize_basename_unfold|].
  intros dir. rewrite !normalize_basename_unfold.
  rewrite !name_snoc by reflexivity.
  repeat split; reflexivity.
Qed.

(** C9: normalizing a normalized name changes nothing: for every path [p]
    and every path [q] whose file name is the normalized name of [p],
    [normalize_basename q = normalize_basename p]; in particular for
    [q = Path(normalize_basename p)] when the name of [p] is the name of a
    directory entry. *)
Theorem normalize_basename_idempotent (p : Path) :
  (forall q : Path,
      name q = normalize_basename p -> normalize_basename q = normalize_basename p)
  /\ (single_part (name p) = true ->
      normalize_basename (of_string (normalize_basename p)) = normalize_basename p).
Proof.
  assert (H1 : forall q : Path,
             name q = normalize_basename p -> normalize_basename q = normalize_basename p).
  { intros q Hq. rewrite (normalize_basename_unfold q), Hq.
    rewrite normalize_basename_unfold. apply spec_normalize_idem. }
  split; [exact H1|].
  intros Hp. apply H1.
  assert (Hs : single_part (normalize_basename p) = true).
  { rewrite normalize_basename_unfold. by apply spec_normalize_single. }
  rewrite (of_string_single _ Hs).
  apply (name_snoc [] _ (single_part_not_anchor _ Hs)).
Qed.

Lemma normalize_basename_idempotent_witness :
  name ["/"; "assets"; "da.png"] = normalize_basename ["/"; "deck"; "D1.PNG"]
  /\ normalize_basename ["/"; "assets"; "da.png"] = normalize_basename ["/"; "deck"; "D1.PNG"]
  /\ normalize_basename (of_string (normalize_basename ["/"; "deck"; "dT.png"])) = "d10.png".
Proof.
  split; [reflexivity|]. split.
  - apply (proj1 (normalize_basename_idempotent ["/"; "deck"; "D1.PNG"])). reflexivity.
  - apply (proj2 (normalize_basename_idempotent ["/"; "deck"; "dT.png"])). reflexivity.
Defined.

Section PlanBuilder.

Lemma fold_left_snoc {A B} (f : A -> B) (l : list A) (acc : list B) :
  fold_left (fun acc x => acc ++ [f x])%list l acc = (acc ++ map f l)%list.
Proof.
  revert acc; induction l as [|x l IH]; intros acc; simpl.
  - by rewrite app_nil_r.
  - by rewrite IH, <- app_assoc.
Qed.

Lemma build_copy_plans_map images models id md :
  build_copy_plans images models id md
  = (map (plan_for id md image) images ++ map (plan_for id md model) models)%list.
Proof. unfold build_copy_plans. by rewrite !fold_left_snoc. Qed.

Lemma plan_for_under_root id md k p :
  single_part (name p) = true ->
  dest (plan_for id md k p) = (root_of id md k ++ [normalize_basename p])%list
  /\ parent (dest (plan_for id md k p)) = root_of id md k
  /\ name (dest (plan_for id md k p)) = normalize_basename p.
Proof.
  intros Hp.
  assert (Hs : single_part (normalize_basename p) = true).
  { rewrite normalize_basename_unfold. by apply spec_normalize_single. }
  pose proof (single_part_not_anchor _ Hs) as Ha.
  simpl. rewrite (join_str_single _ _ Hs).
  by rewrite parent_snoc, name_snoc.
Qed.

End PlanBuilder.

(** C8: [build_copy_plans] makes one plan per input file, the plans of the
    images in their order followed by the plans of the models in theirs;
    the destination of a plan is the root of its kind joined with the
    normalized name of its source, and, the source being a directory entry,
    it lies directly in that root: its parent is the root and its name the
    normalized name. *)
Theorem build_copy_plans_spec (images models : list Path) (images_dest models_dest : Path) :
  let plans := build_copy_plans images models images_dest models_dest in
  plans = (map (fun p => mkCopyPlan p (images_dest // normalize_basename p)%path image) images
           ++ map (fun p => mkCopyPlan p (models_dest // normalize_basename p)%path model) models)%list
  /\ map src plans = (images ++ models)%list
  /\ List.length plans = List.length images + List.length models
  /\ (forall plan, In plan plans ->
        dest plan = (root_of images_dest models_dest (kind plan)
                     // normalize_basename (src plan))%path
        /\ (single_part (name (src plan)) = true ->
            dest plan = (root_of images_dest models_dest (kind plan)
                         ++ [normalize_basename (src plan)])%list
            /\ parent (dest plan) = root_of images_dest models_dest (kind plan)
            /\ name (dest plan) = normalize_basename (src plan))).
Proof.
  intros plans.
  assert (E : plans = (map (plan_for images_dest models_dest image) images
                       ++ map (plan_for images_dest models_dest model) models)%list)
    by apply build_copy_plans_map.
  split; [exact E|]. split; [|split].
  - rewrite E, map_app, !map_map. simpl. by rewrite !map_id.
  - rewrite E, length_app, !length_map. reflexivity.
  - intros plan Hin. rewrite E in Hin.
    assert (Hk : exists k p, plan = plan_for images_dest models_dest k p) .
    { apply in_app_or in Hin as [Hin|Hin]; apply in_map_iff in Hin as (p & <- & _); eauto. }
    destruct Hk as (k & p & ->). split; [reflexivity|].
    apply plan_for_under_root.
Qed.

(** ** The script on any file system *)

Section ScriptFacts.
Context {W : Type} `{FileSystem W}.

Lemma call_eq {A} (ev : event) (op : W -> result A * W) (st : State W) :
  call ev op st
  = (fst (op (world st)), mkState (snd (op (world st))) (trace st ++ [ev])%list).
Proof. unfold call. by destruct (op (world st)). Qed.

(** What [is_same_file] answers, from the outcomes of its three calls. *)
Lemma is_same_file_eq (s d : Path) (st : State W) :
  is_same_file s d st =
  match fs_exists d (world st) with
  | (Ok true, w1) =>
      match fs_stat_size s w1 with
      | (Ok a, w2) =>
          match fs_stat_size d w2 with
          | (Ok b, w3) =>
              (Ok (a =? b)%nat,
               mkState w3 (trace st ++ [EvExists d; EvStat s; EvStat d])%list)
          | (Raise _, w3) =>
              (Ok false, mkState w3 (trace st ++ [EvExists d; EvStat s; EvStat d])%list)
          end
      | (Raise _, w2) => (Ok false, mkState w2 (trace st ++ [EvExists d; EvStat s])%list)
      end
  | (_, w1) => (Ok false, mkState w1 (trace st ++ [EvExists d])%list)
  end.
Proof.
  unfold is_same_file, try_except, bind, path_exists, stat_size, call, ret.
  destruct (fs_exists d (world st)) as [[[|]|e1] w1]; simpl; try reflexivity.
  destruct (fs_stat_size s w1) as [[a|e2] w2]; simpl.
  - destruct (fs_stat_size d w2) as [[b|e3] w3]; simpl;
      by rewrite <- !app_assoc.
  - by rewrite <- !app_assoc.
Qed.

Lemma is_same_file_reads (s d : Path) (st : State W) :
  exists b st' evs,
    is_same_file s d st = (Ok b, st')
    /\ trace st' = (trace st ++ evs)%list
    /\ forallb (fun e => negb (is_write e)) evs = true.
Proof.
  rewrite is_same_file_eq.
  destruct (fs_exists d (world st)) as [[[|]|e1] w1].
  2,3: by eexists _, _, [EvExists d].
  destruct (fs_stat_size s w1) as [[a|e2] w2].
  2: by eexists _, _, [EvExists d; EvStat s].
  destruct (fs_stat_size d w2) as [[b|e3] w3];
    by eexists _, _, [EvExists d; EvStat s; EvStat d].
Qed.

(** [copy_one], from the outcomes of its steps. *)
Lemma copy_one_eq (plan : CopyPlan) (dry_run : bool) (st : State W) :
  copy_one plan dry_run st =
  match ensure_dir (parent (dest plan)) st with
  | (Raise e, st1) => (Raise e, st1)
  | (Ok _, st1) =>
      match is_same_file (src plan) (dest plan) st1 with
      | (Raise e, st2) => (Raise e, st2)
      | (Ok true, st2) => (Ok (plan, "skip (same size)"), st2)
      | (Ok false, st2) =>
          if dry_run then (Ok (plan, "dry-run (would copy)"), st2)
          else
            match fs_copy2 (src plan) (dest plan) (world st2) with
            | (Ok _, w3) =>
                (Ok (plan, "copied"),
                 mkState w3 (trace st2 ++ [EvCopy2 (src plan) (dest plan)])%list)
            | (Raise e, w3) =>
                (Ok (plan, "ERROR: " +:+ strerror e),
                 mkState w3 (trace st2 ++ [EvCopy2 (src plan) (dest plan)])%list)
            end
      end
  end.
Proof.
  unfold copy_one, bind at 1.
  destruct (ensure_dir (parent (dest plan)) st) as [[u|e] st1]; [|reflexivity].
  unfold bind at 1.
  destruct (is_same_file (src plan) (dest plan) st1) as [[[|]|e] st2]; try reflexivity.
  destruct dry_run; [reflexivity|].
  unfold try_except, bind, shutil_copy2, call, ret.
  by destruct (fs_copy2 (src plan) (dest plan) (world st2)) as [[u'|e] w3].
Qed.

Lemma copy_one_outcome plan dry_run st plan' status st' :
  copy_one plan dry_run st = (Ok (plan', status), st') ->
  plan' = plan /\ outcome status.
Proof.
  rewrite copy_one_eq.
  destruct (ensure_dir _ st) as [[u|e] st1]; [|discriminate].
  destruct (is_same_file_reads (src plan) (dest plan) st1) as (b & st2 & evs & -> & _).
  destruct b.
  - intros [= <- <- <-]. split; [done | constructor].
  - destruct dry_run.
    + intros [= <- <- <-]. split; [done | constructor].
    + destruct (fs_copy2 _ _ _) as [[u'|e] w3]; intros [= <- <- <-];
        (split; [done | constructor]).
Qed.

(** A failure of the copy step is caught and becomes the outcome
    "error" with the text of the exception. *)
Lemma copy_one_copy_failure_caught plan st u st1 st2 e w3 :
  ensure_dir (parent (dest plan)) st = (Ok u, st1) ->
  is_same_file (src plan) (dest plan) st1 = (Ok false, st2) ->
  fs_copy2 (src plan) (dest plan) (world st2) = (Raise e, w3) ->
  copy_one plan false st
  = (Ok (plan, "ERROR: " +:+ strerror e),
     mkState w3 (trace st2 ++ [EvCopy2 (src plan) (dest plan)])%list).
Proof. intros H1 H2 H3. by rewrite copy_one_eq, H1, H2, H3. Qed.

(** A failure of the directory step is not caught: [copy_one] raises. *)
Lemma copy_one_mkdir_failure_raises plan dry_run st e st1 :
  ensure_dir (parent (dest plan)) st = (Raise e, st1) ->
  copy_one plan dry_run st = (Raise e, st1).
Proof. intros H1. by rewrite copy_one_eq, H1. Qed.

(** In a dry run the directory step is the only write. *)
Lemma copy_one_dry_run_trace plan st :
  exists evs,
    trace (snd (copy_one plan true st))
    = (trace st ++ EvMkdir (parent (dest plan)) :: evs)%list
    /\ forallb (fun e => negb (is_write e)) evs = true.
Proof.
  rewrite copy_one_eq. unfold ensure_dir. rewrite call_eq.
  destruct (fs_mkdir_parents _ _) as [[u|e] w1]; simpl.
  2: { exists []. by split. }
  match goal with |- context [is_same_file ?s ?d ?st1] =>
    destruct (is_same_file_reads s d st1) as (b & st2 & evs & -> & Ht & Hr) end.
  exists evs. simpl in Ht. destruct b; simpl; rewrite Ht, <- app_assoc; by split.
Qed.

End ScriptFacts.

(** ** The finite-map file system *)

Section MapFSFacts.
Import MapFS.

Lemma grows_refl p fs : grows p fs fs.
Proof. split; auto. Qed.

Lemma parent_prefix p : parent p `prefix_of` p.
Proof.
  unfold parent. destruct p as [|x [|y p]].
  - by exists [].
  - destruct (String.eqb x "/"); [by exists [] | by exists [x]].
  - destruct (@exists_last _ (x :: y :: p)) as (l & a & E); [done|].
    rewrite E, removelast_last. by exists [a].
Qed.

Lemma parent_shorter p : parent p <> p -> List.length (parent p) < List.length p.
Proof.
  unfold parent. destruct p as [|x [|y p]]; [done| |].
  - destruct (String.eqb x "/"); [done | simpl; lia].
  - intros _. destruct (@exists_last _ (x :: y :: p)) as (l & a & E); [done|].
    rewrite E, removelast_last, length_app. simpl. lia.
Qed.

Lemma grows_trans p fs fs1 fs2 :
  grows (parent p) fs fs1 -> grows p fs1 fs2 -> grows p fs fs2.
Proof.
  intros [A1 B1] [A2 B2]. split; [auto|].
  intros q Hq. destruct (B1 q Hq) as [Hn|[Hd Hp]].
  - auto.
  - right. split; [auto|]. etrans; [exact Hp | apply parent_prefix].
Qed.

Lemma os_mkdir_cases p fs :
  (exists e, os_mkdir p fs = (Raise e, fs)
             /\ (errno e = ENOENT -> fs !! p = None /\ fs !! parent p = None)
             /\ (errno e <> ENOENT -> is_dir_node (fs !! p) = false ->
                 is_file_node (fs !! p) = true \/ is_file_node (fs !! parent p) = true))
  \/ (os_mkdir p fs = (Ok tt, <[p := Dir true]> fs)
      /\ fs !! p = None /\ is_dir_node (fs !! parent p) = true).
Proof.
  unfold os_mkdir. destruct (fs !! p) as [n|] eqn:Hp.
  - left. eexists. split; [reflexivity|]. split; [done|].
    intros _. destruct n; simpl; auto; done.
  - destruct (fs !! parent p) as [[data|r]|] eqn:Hq.
    + left. eexists. split; [reflexivity|]. split; [done|]. auto.
    + by right.
    + left. eexists. split; [reflexivity|]. by split.
Qed.

Lemma os_mkdir_grows p fs r fs' : os_mkdir p fs = (r, fs') -> grows p fs fs'.
Proof.
  destruct (os_mkdir_cases p fs) as [(e & -> & _)|(-> & Hp & _)]; intros [= <- <-].
  - apply grows_refl.
  - split.
    + intros q n Hq. rewrite lookup_insert_ne; [done|]. by intros <-; rewrite Hp in Hq.
    + intros q Hq. destruct (decide (p = q)) as [<-|Hne].
      * right. by rewrite lookup_insert_eq.
      * left. by rewrite lookup_insert_ne.
Qed.

Lemma mkdir_grows fuel b p fs r fs' :
  mkdir fuel b p fs = Some (r, fs') -> grows p fs fs'.
Proof.
  revert b p fs r fs'. induction fuel as [|f IH]; intros b p fs r fs'; simpl.
  - destruct (os_mkdir p fs) as [[u|e] fs1] eqn:E.
    + intros [= <- <-]. eapply os_mkdir_grows, E.
    + pose proof (os_mkdir_grows _ _ _ _ E) as Hg.
      destruct (errno e).
      1: destruct (negb b || bool_decide (parent p = p)); [|done].
      1: by intros [= <- <-].
      all: destruct (is_dir_node (fs1 !! p)); by intros [= <- <-].
  - destruct (os_mkdir p fs) as [[u|e] fs1] eqn:E.
    + intros [= <- <-]. eapply os_mkdir_grows, E.
    + destruct (os_mkdir_cases p fs) as [(e' & E' & _)|(E' & _)];
        rewrite E in E'; [|discriminate]. injection E' as <- <-.
      destruct (errno e).
      1: destruct (negb b || bool_decide (parent p = p));
           [intros [= <- <-]; apply grows_refl|].
      1: destruct (mkdir f true (parent p) fs1) as [[[u|e1] fs2]|] eqn:E1; [| |done].
      1: intros E2; eapply grows_trans; [eapply IH, E1 | eapply IH, E2].
      1: { intros [= <- <-]. pose proof (IH _ _ _ _ _ E1) as [A B]. split; [done|].
           intros q Hq. destruct (B q Hq) as [?|[? Hp]]; [auto|].
           right. split; [done|]. etrans; [exact Hp | apply parent_prefix]. }
      all: destruct (is_dir_node (fs1 !! p)); intros [= <- <-]; apply grows_refl.
Qed.

Lemma mkdir_flat fuel p fs : is_Some (mkdir fuel false p fs).
Proof.
  destruct fuel; simpl;
    (destruct (os_mkdir p fs) as [[u|e] fs1]; [by eexists|]);
    destruct (errno e); simpl; try (destruct (is_dir_node (fs1 !! p)); by eexists);
    by eexists.
Qed.

(** The recursion of [mkdir] is never deeper than the path is long. *)
Lemma mkdir_fuel fuel b p fs :
  List.length p <= fuel -> is_Some (mkdir fuel b p fs).
Proof.
  revert b p fs. induction fuel as [|f IH]; intros b p fs Hlen;
    (destruct b; [|apply mkdir_flat]); simpl.
  - destruct (os_mkdir p fs) as [[u|e] fs1]; [by eexists|].
    destruct (errno e); simpl; try (destruct (is_dir_node (fs1 !! p)); by eexists).
    case_bool_decide as Hp; [by eexists|]. apply parent_shorter in Hp. lia.
  - destruct (os_mkdir p fs) as [[u|e] fs1] eqn:E; [by eexists|].
    destruct (errno e) eqn:Ee; simpl; try (destruct (is_dir_node (fs1 !! p)); by eexists).
    case_bool_decide as Hp; [by eexists|]. apply parent_shorter in Hp.
    destruct (IH true (parent p) fs1) as [[[u|e1] fs2] ->]; [lia| |by eexists].
    apply mkdir_flat.
Qed.

Lemma mkdir_parents_eq p fs :
  exists r, mkdir (List.length p) true p fs = Some r /\ mkdir_parents p fs = r.
Proof.
  unfold mkdir_parents.
  destruct (mkdir_fuel (List.length p) true p fs) as [r ->]; [lia|]. eauto.
Qed.

Lemma mkdir_parents_grows p fs r fs' : mkdir_parents p fs = (r, fs') -> grows p fs fs'.
Proof.
  destruct (mkdir_parents_eq p fs) as (r0 & E & ->). intros ->.
  eapply mkdir_grows, E.
Qed.

(** An existing directory is accepted and nothing is written. *)
Lemma mkdir_parents_existing p fs :
  is_dir_node (fs !! p) = true -> mkdir_parents p fs = (Ok tt, fs).
Proof.
  intros Hd. destruct (mkdir_parents_eq p fs) as (r0 & E & ->).
  destruct (List.length p); simpl in E; unfold os_mkdir in E;
    destruct (fs !! p) as [[data|rd]|] eqn:Hp; try done; cbn in E;
    rewrite Hp in E; simpl in E; congruence.
Qed.

Lemma mkdir_success fuel b p fs u fs' :
  mkdir fuel b p fs = Some (Ok u, fs') -> is_dir_node (fs' !! p) = true.
Proof.
  assert (Hbase : forall fs u fs',
             os_mkdir p fs = (Ok u, fs') -> is_dir_node (fs' !! p) = true).
  { intros fs0 u0 fs0' E0.
    destruct (os_mkdir_cases p fs0) as [(e & E & _)|(E & _)]; rewrite E0 in E; [done|].
    injection E as _ ->. by rewrite lookup_insert_eq. }
  revert b fs u fs'. induction fuel as [|f IH]; intros b fs u fs'; simpl.
  - destruct (os_mkdir p fs) as [[u1|e] fs1] eqn:E.
    + intros [= <- <-]. eapply Hbase, E.
    + destruct (errno e).
      1: destruct (negb b || bool_decide (parent p = p)); done.
      all: destruct (is_dir_node (fs1 !! p)) eqn:Hd; by intros [= <- <-].
  - destruct (os_mkdir p fs) as [[u1|e] fs1] eqn:E.
    + intros [= <- <-]. eapply Hbase, E.
    + destruct (errno e).
      1: destruct (negb b || bool_decide (parent p = p)); [done|].
      1: destruct (mkdir f true (parent p) fs1) as [[[u2|e1] fs2]|]; [|done|done].
      1: apply IH.
      all: destruct (is_dir_node (fs1 !! p)) eqn:Hd; by intros [= <- <-].
Qed.

Lemma mkdir_parents_success p fs u fs' :
  mkdir_parents p fs = (Ok u, fs') -> is_dir_node (fs' !! p) = true.
Proof.
  destruct (mkdir_parents_eq p fs) as (r0 & E & ->). intros ->.
  eapply mkdir_success, E.
Qed.

End MapFSFacts.

Section MapFSScript.
Import MapFS.

Lemma copyfile_cases (s t : Path) (fs : FS) :
  (exists e, copyfile s t fs = (Raise e, fs))
  \/ (exists data,
        copyfile s t fs = (Ok tt, <[t := File data]> fs)
        /\ fs !! s = Some (File data) /\ s <> t
        /\ is_dir_node (fs !! t) = false
        /\ is_dir_node (fs !! parent t) = true).
Proof.
  unfold copyfile. case_bool_decide as Hst; [left; eauto|].
  destruct (fs !! s) as [[data|rs]|] eqn:Hs; [|left; eauto|left; eauto].
  destruct (fs !! t) as [[dt|rt]|] eqn:Ht; [|left; eauto|];
    (destruct (fs !! parent t) as [[dp|rp]|] eqn:Hp; [left; eauto| |left; eauto]);
    right; exists data; by rewrite ?Ht.
Qed.

Lemma copy2_cases (s d : Path) (fs : FS) :
  (exists e, copy2 s d fs = (Raise e, fs))
  \/ (exists data,
        copy2 s d fs = (Ok tt, <[copy_target fs s d := File data]> fs)
        /\ fs !! s = Some (File data) /\ s <> copy_target fs s d
        /\ is_dir_node (fs !! copy_target fs s d) = false
        /\ is_dir_node (fs !! parent (copy_target fs s d)) = true).
Proof. unfold copy2. apply copyfile_cases. Qed.

(** On the finite-map file system [is_same_file] is the skip rule and
    writes nothing. *)
Lemma is_same_file_mapfs (s d : Path) (fs : FS) (tr : list event) :
  is_same_file s d (mkState fs tr)
  = (Ok (skip_rule fs s d), mkState fs (tr ++ same_file_events fs s d)%list).
Proof.
  rewrite is_same_file_eq. simpl. unfold exists_, stat_size, skip_rule, same_file_events.
  destruct (fs !! d) as [nd|] eqn:Hd; simpl; [|reflexivity].
  destruct (fs !! s) as [ns|] eqn:Hs; simpl; [|reflexivity].
  by rewrite Hd.
Qed.

Lemma ensure_dir_mapfs (p : Path) (fs : FS) (tr : list event) :
  ensure_dir p (mkState fs tr)
  = (fst (mkdir_parents p fs), mkState (snd (mkdir_parents p fs)) (tr ++ [EvMkdir p])%list).
Proof. unfold ensure_dir. by rewrite call_eq. Qed.

(** One plan on the finite-map file system. *)
Lemma copy_one_mapfs (plan : CopyPlan) (dry_run : bool) (fs : FS) (tr : list event) :
  copy_one plan dry_run (mkState fs tr) =
  match mkdir_parents (parent (dest plan)) fs with
  | (Raise e, fs1) => (Raise e, mkState fs1 (tr ++ [EvMkdir (parent (dest plan))])%list)
  | (Ok _, fs1) =>
      let tr1 := (tr ++ EvMkdir (parent (dest plan))
                     :: same_file_events fs1 (src plan) (dest plan))%list in
      if skip_rule fs1 (src plan) (dest plan)
      then (Ok (plan, "skip (same size)"), mkState fs1 tr1)
      else if dry_run then (Ok (plan, "dry-run (would copy)"), mkState fs1 tr1)
      else
        match copy2 (src plan) (dest plan) fs1 with
        | (Ok _, fs2) =>
            (Ok (plan, "copied"),
             mkState fs2 (tr1 ++ [EvCopy2 (src plan) (dest plan)])%list)
        | (Raise e, fs2) =>
            (Ok (plan, "ERROR: " +:+ strerror e),
             mkState fs2 (tr1 ++ [EvCopy2 (src plan) (dest plan)])%list)
        end
  end.
Proof.
  rewrite copy_one_eq, ensure_dir_mapfs.
  destruct (mkdir_parents (parent (dest plan)) fs) as [[u|e] fs1]; simpl; [|reflexivity].
  rewrite is_same_file_mapfs, <- app_assoc. simpl.
  destruct (skip_rule fs1 (src plan) (dest plan)); [reflexivity|].
  destruct dry_run; reflexivity.
Qed.

Lemma wf_parent_dir (fs : FS) (p : Path) (n : node) :
  wf fs = true -> fs !! p = Some n -> is_dir_node (fs !! parent p) = true.
Proof.
  intros Hwf Hp. unfold wf in Hwf. rewrite forallb_forall in Hwf.
  apply (Hwf (p, n)). apply list_elem_of_In. by apply elem_of_map_to_list.
Qed.

End MapFSScript.

(** C4: on a well-formed file system, when the destination exists and its
    size is the size of the source, [copy_one] returns the outcome "skip"
    and leaves the whole file system, the destination included, as it
    was; the calls it makes are the directory step, the existence check
    and the two [stat] calls, and no copy. This holds for either value of
    the dry-run flag: the skip check comes first. *)
Theorem copy_one_skips_same_size
  (fs : gmap Path node) (tr : list event) (plan : CopyPlan) (dry_run : bool)
  (ns nd : node) :
  MapFS.wf fs = true ->
  fs !! src plan = Some ns ->
  fs !! dest plan = Some nd ->
  MapFS.st_size ns = MapFS.st_size nd ->
  copy_one plan dry_run (mkState fs tr)
  = (Ok (plan, "skip (same size)"),
     mkState fs (tr ++ [EvMkdir (parent (dest plan)); EvExists (dest plan);
                        EvStat (src plan); EvStat (dest plan)])%list).
Proof.
  intros Hwf Hs Hd Hsz. rewrite copy_one_mapfs.
  rewrite (mkdir_parents_existing _ _ (wf_parent_dir _ _ _ Hwf Hd)).
  unfold MapFS.skip_rule, MapFS.same_file_events. rewrite Hs, Hd, Hsz, Nat.eqb_refl.
  reflexivity.
Qed.

Lemma copy_one_skips_same_size_witness :
  Samples.stale_fs !! dest Samples.ace_plan = Some (File "xyz")
  /\ copy_one Samples.ace_plan true (mkState Samples.stale_fs [])
     = (Ok (Samples.ace_plan, "skip (same size)"),
        mkState Samples.stale_fs
          [EvMkdir Samples.images_root; EvExists (dest Samples.ace_plan);
           EvStat (src Samples.ace_plan); EvStat (dest Samples.ace_plan)]).
Proof.
  split; [vm_compute; reflexivity|].
  apply (copy_one_skips_same_size Samples.stale_fs [] Samples.ace_plan true
           (File "ace") (File "xyz")); vm_compute; reflexivity.
Defined.

(** ** The dry run and the directory step *)

Section DryRun.
Import MapFS.

Lemma grows_files (p : Path) (fs fs1 : FS) :
  grows p fs fs1 ->
  forall q data, fs1 !! q = Some (File data) <-> fs !! q = Some (File data).
Proof.
  intros [A B] q data. split; [|apply A].
  intros Hq. destruct (fs !! q) as [n|] eqn:E.
  - rewrite (A q n E) in Hq. done.
  - destruct (B q E) as [Hn|[Hd _]]; congruence.
Qed.

End DryRun.

(** C3, as the code has it: in a dry run [copy_one] creates, overwrites
    and removes no file; the file system only grows by the directories
    the directory step makes on the way to the destination's parent, that
    step being the first call and the only write of the run; and when the
    directory step succeeds the outcome is "skip" if the skip rule applies
    and "would copy" otherwise. *)
Theorem copy_one_dry_run_writes_no_file
  (fs : gmap Path node) (tr : list event) (plan : CopyPlan) :
  let r := copy_one plan true (mkState fs tr) in
  let made := MapFS.mkdir_parents (parent (dest plan)) fs in
  MapFS.grows (parent (dest plan)) fs (world (snd r))
  /\ (forall q data, world (snd r) !! q = Some (File data) <-> fs !! q = Some (File data))
  /\ (exists evs,
        trace (snd r) = (tr ++ EvMkdir (parent (dest plan)) :: evs)%list
        /\ forallb (fun e => negb (is_write e)) evs = true)
  /\ (is_ok (fst made) = true ->
        world (snd r) = snd made
        /\ fst r = Ok (plan,
                       if MapFS.skip_rule (snd made) (src plan) (dest plan)
                       then "skip (same size)" else "dry-run (would copy)")).
Proof.
  intros r made.
  assert (Hg : MapFS.grows (parent (dest plan)) fs (world (snd r))).
  { subst r. rewrite copy_one_mapfs.
    destruct (MapFS.mkdir_parents (parent (dest plan)) fs) as [[u|e] fs1] eqn:E;
      pose proof (mkdir_parents_grows _ _ _ _ E) as Hg';
      [destruct (MapFS.skip_rule fs1 (src plan) (dest plan))|]; exact Hg'. }
  split; [exact Hg|]. split; [by apply (grows_files (parent (dest plan)))|]. split.
  - apply (copy_one_dry_run_trace plan (mkState fs tr)).
  - subst r made. rewrite copy_one_mapfs.
    destruct (MapFS.mkdir_parents (parent (dest plan)) fs) as [[u|e] fs1]; [|done].
    intros _. simpl. by destruct (MapFS.skip_rule fs1 (src plan) (dest plan)).
Qed.

Lemma copy_one_dry_run_writes_no_file_witness :
  fst (copy_one Samples.ace_plan true (mkState Samples.deck_fs []))
  = Ok (Samples.ace_plan, "dry-run (would copy)")
  /\ (forall q data,
        world (snd (copy_one Samples.ace_plan true (mkState Samples.deck_fs []))) !! q
        = Some (File data) <-> Samples.deck_fs !! q = Some (File data)).
Proof.
  pose proof (copy_one_dry_run_writes_no_file Samples.deck_fs [] Samples.ace_plan)
    as (_ & Hfiles & _ & Hout).
  split; [|exact Hfiles].
  destruct Hout as [_ Hout]; [vm_compute; reflexivity|].
  etrans; [exact Hout|]. vm_compute. reflexivity.
Defined.

(** C3 as stated fails: the dry run of the first plan of the sample deck
    creates the destination directory and its ancestors, which did not
    exist. *)
Lemma dry_run_creates_directories :
  Samples.deck_fs !! Samples.images_root = None
  /\ world (snd (copy_one Samples.ace_plan true (mkState Samples.deck_fs [])))
       !! Samples.images_root = Some (Dir true)
  /\ world (snd (copy_one Samples.ace_plan true (mkState Samples.deck_fs [])))
       !! ["/"; "proj"; "assets"] = Some (Dir true)
  /\ world (snd (copy_one Samples.ace_plan true (mkState Samples.deck_fs [])))
     <> Samples.deck_fs
  /\ existsb is_write
       (trace (snd (copy_one Samples.ace_plan true (mkState Samples.deck_fs []))))
     = true.
Proof.
  assert (H0 : Samples.deck_fs !! Samples.images_root = None)
    by (vm_compute; reflexivity).
  assert (H1 : world (snd (copy_one Samples.ace_plan true (mkState Samples.deck_fs [])))
                 !! Samples.images_root = Some (Dir true))
    by (vm_compute; reflexivity).
  split; [exact H0|]. split; [exact H1|]. split; [vm_compute; reflexivity|]. split.
  - intros E. rewrite E, H0 in H1. discriminate.
  - vm_compute. reflexivity.
Qed.

(** C2, the directory step: on the sample project whose images directory
    is a regular file, [copy_one] does not return an "error" outcome, it
    raises the [FileExistsError] of [mkdir] after that one call; [main]
    then raises it too from [fut.result()], with or without the dry-run
    flag, and gives no exit code. *)
Theorem copy_one_mkdir_failure_escapes :
  Samples.blocked_fs !! parent (dest Samples.ace_plan) = Some (File "not a directory")
  /\ fst (copy_one Samples.ace_plan false (mkState Samples.blocked_fs []))
     = Raise MapFS.FileExistsError
  /\ trace (snd (copy_one Samples.ace_plan false (mkState Samples.blocked_fs [])))
     = [EvMkdir Samples.images_root]
  /\ fst (run (main ["/"] (Samples.deck_args false)) Samples.blocked_fs)
     = Raise MapFS.FileExistsError
  /\ fst (run (main ["/"] (Samples.deck_args true)) Samples.blocked_fs)
     = Raise MapFS.FileExistsError.
Proof. repeat split; vm_compute; reflexivity. Qed.

(** ** Discovery *)

Section Discovery.
Import MapFS.

Lemma image_not_model ext : mem ext IMAGE_EXTS = true -> mem ext MODEL_EXTS = false.
Proof.
  unfold mem. simpl. rewrite !orb_false_r. intros Hi.
  repeat (apply orb_true_iff in Hi as [Hi|Hi]); apply String.eqb_eq in Hi; by subst.
Qed.

Lemma discover_loop_mapfs (entries images models : list Path) (fs : FS) (tr : list event) :
  discover_loop entries images models (mkState fs tr)
  = (Ok ((images ++ List.filter (is_image_file fs) entries)%list,
         (models ++ List.filter (is_model_file fs) entries)%list),
     mkState fs (tr ++ map EvIsFile entries)%list).
Proof.
  revert images models tr. induction entries as [|p rest IH]; intros images models tr.
  - simpl. unfold ret. by rewrite !app_nil_r.
  - cbn [discover_loop List.filter map]. unfold bind at 1, path_is_file.
    rewrite call_eq. cbn [fst snd world trace fs_is_file MapFS_FileSystem is_file].
    unfold is_image_file, is_model_file.
    destruct (is_file_node (fs !! p)); cbn [negb andb].
    + destruct (mem (lower (suffix p)) IMAGE_EXTS) eqn:Hi.
      * rewrite (image_not_model _ Hi), IH, <- !app_assoc. reflexivity.
      * destruct (mem (lower (suffix p)) MODEL_EXTS);
          rewrite IH, <- !app_assoc; reflexivity.
    + rewrite IH, <- !app_assoc. reflexivity.
Qed.

(** The listing of a directory holds, once each, the existing paths
    directly in it. *)
Lemma children_spec (d : Path) (fs : FS) (p : Path) :
  In p (children d fs) <-> is_Some (fs !! p) /\ parent p = d /\ p <> d.
Proof.
  unfold children. rewrite filter_In, <- list_elem_of_In, list_elem_of_fmap.
  split.
  - intros [([q n] & -> & Hq) Hp]. apply elem_of_map_to_list in Hq.
    apply bool_decide_eq_true in Hp as [Hp Hne]. simpl in *. eauto.
  - intros ([n Hn] & Hp & Hne). split.
    + exists (p, n). split; [done|]. by apply elem_of_map_to_list.
    + apply bool_decide_eq_true. done.
Qed.

Lemma children_NoDup (d : Path) (fs : FS) : NoDup (children d fs).
Proof.
  unfold children. apply NoDup_ListNoDup, List.NoDup_filter, NoDup_ListNoDup.
  apply NoDup_fst_map_to_list.
Qed.

Lemma filter_NoDup {A} (f : A -> bool) (l : list A) : NoDup l -> NoDup (List.filter f l).
Proof. intros Hl. by apply NoDup_ListNoDup, List.NoDup_filter, NoDup_ListNoDup. Qed.

Lemma filter_sublist {A} (f : A -> bool) (l : list A) : sublist (List.filter f l) l.
Proof.
  induction l as [|x l IH]; simpl; [constructor|].
  destruct (f x); by constructor.
Qed.

End Discovery.

(** C7: on the finite-map file system [discover_files] fails as the
    listing of the directory fails, and otherwise returns the images and
    the models as the listing filtered by "regular file with an image
    extension" and "regular file with the model extension" (so in the
    order of the listing), asking [is_file] once per entry and writing
    nothing. An entry is in the images exactly when it exists as a regular
    file directly in the directory and its lowercased extension is one of
    .png, .jpg, .jpeg, .webp; likewise the models with .glb; directories
    and other extensions are in neither. *)
Theorem discover_files_spec (src_dir : Path) (fs : gmap Path node) (tr : list event) :
  let listing := MapFS.children src_dir fs in
  let images := List.filter (is_image_file fs) listing in
  let models := List.filter (is_model_file fs) listing in
  discover_files src_dir (mkState fs tr)
  = match MapFS.iterdir src_dir fs with
    | (Ok _, _) =>
        (Ok (images, models),
         mkState fs (tr ++ EvIterdir src_dir :: map EvIsFile listing)%list)
    | (Raise e, _) => (Raise e, mkState fs (tr ++ [EvIterdir src_dir])%list)
    end
  /\ (forall p, In p images <->
        (exists data, fs !! p = Some (File data)) /\ parent p = src_dir /\ p <> src_dir
        /\ In (lower (suffix p)) [".png"; ".jpg"; ".jpeg"; ".webp"])
  /\ (forall p, In p models <->
        (exists data, fs !! p = Some (File data)) /\ parent p = src_dir /\ p <> src_dir
        /\ lower (suffix p) = ".glb")
  /\ sublist images listing /\ sublist models listing
  /\ NoDup images /\ NoDup models
  /\ (forall p, In p images -> ~ In p models).
Proof.
  intros listing images models.
  assert (Hfile : forall p, MapFS.is_file_node (fs !! p) = true
                            <-> exists data, fs !! p = Some (File data)).
  { intros p. destruct (fs !! p) as [[data|r]|]; simpl; split; try done; eauto.
    - by intros [? ?]. - by intros [? ?]. }
  assert (Hmem : forall x l, mem x l = true <-> In x l).
  { intros x l. unfold mem. rewrite existsb_exists. split.
    - intros (y & Hy & E). apply String.eqb_eq in E. by subst.
    - intros Hx. exists x. split; [done | apply String.eqb_refl]. }
  split; [|split; [|split; [|split; [|split; [|split; [|split]]]]]].
  - unfold discover_files, bind, iterdir. rewrite call_eq. simpl.
    unfold MapFS.iterdir.
    destruct (fs !! src_dir) as [[data|[|]]|]; simpl; try reflexivity.
    rewrite discover_loop_mapfs, <- app_assoc. reflexivity.
  - intros p. unfold images. rewrite filter_In. unfold listing, is_image_file.
    rewrite children_spec, andb_true_iff, Hfile, Hmem. split.
    + intros ((_ & Hp & Hne) & Hf & He). done.
    + intros ((data & Hd) & Hp & Hne & He). repeat split; eauto.
  - intros p. unfold models. rewrite filter_In. unfold listing, is_model_file.
    rewrite children_spec, andb_true_iff, Hfile, Hmem. split.
    + intros ((_ & Hp & Hne) & Hf & [He|[]]). done.
    + intros ((data & Hd) & Hp & Hne & He). repeat split; eauto. by left.
  - apply filter_sublist.
  - apply filter_sublist.
  - apply filter_NoDup, children_NoDup.
  - apply filter_NoDup, children_NoDup.
  - intros p Hi Hm. apply filter_In in Hi as [_ Hi]. apply filter_In in Hm as [_ Hm].
    unfold is_image_file, is_model_file in *.
    apply andb_true_iff in Hi as [_ Hi]. apply andb_true_iff in Hm as [_ Hm].
    rewrite (image_not_model _ Hi) in Hm. discriminate.
Qed.

(** The sample deck: the directory [old.png] and the text file are left
    out, and the upper-case extension counts as an image. *)
Example discover_files_deck :
  fst (run (discover_files ["/"; "deck"]) Samples.deck_fs)
  = Ok ([["/"; "deck"; "d1.png"]; ["/"; "deck"; "hT.JPG"]], [["/"; "deck"; "table.glb"]]).
Proof. vm_compute. reflexivity. Qed.

(** ** The pool and the exit code *)

#[local] Arguments startswith : simpl never.

Section MainFacts.
Context {W : Type} `{FileSystem W}.

Lemma submit_all_total plans dry_run (st : State W) :
  exists futures st',
    submit_all plans dry_run st = (Ok futures, st')
    /\ List.length futures = List.length plans
    /\ Forall well_formed_future futures.
Proof.
  revert st. induction plans as [|plan rest IH]; intros st; simpl.
  - by exists [], st.
  - destruct (copy_one plan dry_run st) as [fut st1] eqn:E.
    destruct (IH st1) as (futs & st2 & E2 & Hlen & Hwf).
    exists (fut :: futs), st2. unfold bind. rewrite E2. simpl.
    split; [done|]. split; [by rewrite Hlen|].
    constructor; [|done]. destruct fut as [[pl s]|e]; [|done].
    by destruct (copy_one_outcome _ _ _ _ _ _ E).
Qed.

Lemma outcome_class status :
  outcome status ->
  (startswith status "ERROR: " = true
   /\ startswith status "copied" = false
   /\ startswith status "skip" = false
   /\ startswith status "dry-run" = false)
  \/ (startswith status "ERROR: " = false
      /\ (startswith status "copied" = true
          \/ startswith status "skip" = true
          \/ startswith status "dry-run" = true)).
Proof. intros []; [right|right|right|left]; repeat split; auto. Qed.

Lemma tally_step_ok t fut :
  is_ok fut = true -> well_formed_future fut ->
  exists t',
    tally_step t fut = Ok t'
    /\ errors t' = errors t + (if is_error fut then 1 else 0).
Proof.
  destruct fut as [[pl s]|e]; [|done]. intros _ Hs.
  unfold well_formed_future in Hs. unfold tally_step, is_error.
  destruct (outcome_class s Hs) as [(-> & -> & -> & ->)|(-> & Hc)].
  - eexists. split; [reflexivity|]. reflexivity.
  - destruct (startswith s "copied"); [eexists; split; [done|simpl; lia]|].
    destruct (startswith s "skip"); [eexists; split; [done|simpl; lia]|].
    destruct (startswith s "dry-run"); [eexists; split; [done|simpl; lia]|].
    by destruct Hc as [|[|]].
Qed.

Lemma tally_loop_ok futures t :
  forallb is_ok futures = true -> Forall well_formed_future futures ->
  exists t',
    tally_loop futures t = Ok t'
    /\ (errors t' =? 0)%nat = (errors t =? 0)%nat && negb (existsb is_error futures).
Proof.
  revert t. induction futures as [|fut rest IH]; intros t Hok Hwf; simpl.
  - exists t. by rewrite andb_true_r.
  - simpl in Hok. apply andb_true_iff in Hok as [Hok1 Hok2].
    inversion Hwf as [|? ? Hwf1 Hwf2]; subst.
    destruct (tally_step_ok t fut Hok1 Hwf1) as (t1 & -> & He1).
    destruct (IH t1 Hok2 Hwf2) as (t2 & -> & He2).
    exists t2. split; [done|]. rewrite He2, He1.
    destruct (is_error fut); simpl.
    + replace (errors t + 1 =? 0)%nat with false; [by rewrite andb_false_r|].
      symmetry. apply Nat.eqb_neq. lia.
    + by rewrite Nat.add_0_r.
Qed.

(** A future that holds an exception makes the reporting loop raise. *)
Lemma tally_loop_raises futures t :
  forallb is_ok futures = false -> Forall well_formed_future futures ->
  exists e, tally_loop futures t = Raise e.
Proof.
  revert t. induction futures as [|fut rest IH]; intros t Hok Hwf; simpl; [done|].
  simpl in Hok. inversion Hwf as [|? ? Hwf1 Hwf2]; subst.
  destruct fut as [[pl s]|e]; [|by exists e].
  destruct (tally_step_ok t (Ok (pl, s)) eq_refl Hwf1) as (t1 & -> & _).
  by apply IH.
Qed.

Lemma source_invalid_eq src_dir (st : State W) :
  source_invalid src_dir st =
  match fs_exists src_dir (world st) with
  | (Raise e, w1) => (Raise e, mkState w1 (trace st ++ [EvExists src_dir])%list)
  | (Ok false, w1) => (Ok true, mkState w1 (trace st ++ [EvExists src_dir])%list)
  | (Ok true, w1) =>
      match fs_is_dir src_dir w1 with
      | (Raise e, w2) =>
          (Raise e, mkState w2 (trace st ++ [EvExists src_dir; EvIsDir src_dir])%list)
      | (Ok d, w2) =>
          (Ok (negb d), mkState w2 (trace st ++ [EvExists src_dir; EvIsDir src_dir])%list)
      end
  end.
Proof.
  unfold source_invalid, bind, path_exists, path_is_dir, call, ret.
  destruct (fs_exists src_dir (world st)) as [[[|]|e] w1]; simpl; try reflexivity.
  destruct (fs_is_dir src_dir w1) as [[d|e] w2]; simpl; by rewrite <- app_assoc.
Qed.

(** [main] after a valid source directory was listed. *)
Lemma main_after_discovery cwd args (st st1 st2 : State W) images models :
  source_invalid (args_src args) st = (Ok false, st1) ->
  discover_files (args_src args) st1 = (Ok (images, models), st2) ->
  let project_root := resolve cwd (args_project_root args) in
  let plans := build_copy_plans images models
                 (resolve project_root (args_images_dir args))
                 (resolve project_root (args_models_dir args)) in
  main cwd args st =
  match plans with
  | [] => (Ok 0%Z, st2)
  | _ =>
      match submit_all plans (args_dry_run args) st2 with
      | (Ok futures, st3) =>
          match tally_loop futures (mkTally 0 0 0) with
          | Raise e => (Raise e, st3)
          | Ok t => (Ok (if (errors t =? 0)%nat then 0%Z else 1%Z), st3)
          end
      | (Raise e, st3) => (Raise e, st3)
      end
  end.
Proof.
  intros E1 E2 project_root plans. unfold main, bind at 1. rewrite E1.
  unfold bind at 1. rewrite E2. fold project_root. fold plans.
  destruct plans as [|pl rest]; [reflexivity|].
  unfold bind.
  destruct (submit_all (pl :: rest) (args_dry_run args) st2) as [[futs|e] st3];
    [|reflexivity].
  by destruct (tally_loop futs (mkTally 0 0 0)).
Qed.

End MainFacts.

(** C5, as the code has it: on every file system [main] returns 2 when
    the source directory does not exist or is not a directory, after the
    existence and directory checks alone (no listing, no plan); and after
    a valid source directory was listed it returns 0 when there is no
    plan, without running the pool, and, when every plan of the pool
    returned an outcome, 0 if none of the outcomes is "error" and 1 if one
    or more are. *)
Theorem main_exit_code {W : Type} `{FileSystem W}
  (cwd : Path) (args : Args) (st : State W) :
  let src_dir := args_src args in
  let project_root := resolve cwd (args_project_root args) in
  let images_dest := resolve project_root (args_images_dir args) in
  let models_dest := resolve project_root (args_models_dir args) in
  (forall w1,
      fs_exists src_dir (world st) = (Ok false, w1) ->
      main cwd args st = (Ok 2%Z, mkState w1 (trace st ++ [EvExists src_dir])%list))
  /\ (forall w1 w2,
        fs_exists src_dir (world st) = (Ok true, w1) ->
        fs_is_dir src_dir w1 = (Ok false, w2) ->
        main cwd args st
        = (Ok 2%Z, mkState w2 (trace st ++ [EvExists src_dir; EvIsDir src_dir])%list))
  /\ (forall w1 w2 images models st2,
        fs_exists src_dir (world st) = (Ok true, w1) ->
        fs_is_dir src_dir w1 = (Ok true, w2) ->
        discover_files src_dir
          (mkState w2 (trace st ++ [EvExists src_dir; EvIsDir src_dir])%list)
        = (Ok (images, models), st2) ->
        let plans := build_copy_plans images models images_dest models_dest in
        (plans = [] -> main cwd args st = (Ok 0%Z, st2))
        /\ (forall futures st3,
              submit_all plans (args_dry_run args) st2 = (Ok futures, st3) ->
              forallb is_ok futures = true ->
              main cwd args st
              = (Ok (if existsb is_error futures then 1%Z else 0%Z), st3))).
Proof.
  intros src_dir project_root images_dest models_dest.
  split; [|split].
  - intros w1 E. unfold main, bind at 1. fold src_dir.
    by rewrite source_invalid_eq, E.
  - intros w1 w2 E1 E2. unfold main, bind at 1. fold src_dir.
    by rewrite source_invalid_eq, E1, E2.
  - intros w1 w2 images models st2 E1 E2 E3 plans.
    assert (Ev : source_invalid src_dir st
                 = (Ok false,
                    mkState w2 (trace st ++ [EvExists src_dir; EvIsDir src_dir])%list)).
    { by rewrite source_invalid_eq, E1, E2. }
    pose proof (main_after_discovery cwd args st _ st2 images models Ev E3) as Hm.
    simpl in Hm. fold project_root images_dest models_dest plans in Hm.
    split.
    + intros Hnil. rewrite Hm, Hnil. reflexivity.
    + intros futures st3 E4 Hok. rewrite Hm.
      destruct (submit_all_total plans (args_dry_run args) st2)
        as (futs & st3' & E4' & _ & Hwf).
      rewrite E4 in E4'. injection E4' as <- <-.
      destruct plans as [|pl rest] eqn:Hp.
      * simpl in E4. unfold ret in E4. injection E4 as <- <-. reflexivity.
      * rewrite E4.
        destruct (tally_loop_ok futures (mkTally 0 0 0) Hok Hwf) as (t & -> & Ht).
        rewrite Ht. simpl. by destruct (existsb is_error futures).
Qed.

(** C5 as stated fails on a source directory that exists but may not be
    listed: [main] does not return 2, it raises the [PermissionError] of
    the listing. *)
Lemma unreadable_source_is_not_exit_2 :
  Samples.unreadable_fs !! ["/"; "deck"] = Some (Dir false)
  /\ fst (run (main ["/"] (Samples.deck_args false)) Samples.unreadable_fs)
     = Raise MapFS.PermissionError
  /\ fst (run (main ["/"] (Samples.deck_args false)) Samples.unreadable_fs) <> Ok 2%Z.
Proof.
  assert (E : fst (run (main ["/"] (Samples.deck_args false)) Samples.unreadable_fs)
              = Raise MapFS.PermissionError) by (vm_compute; reflexivity).
  split; [vm_compute; reflexivity|]. split; [exact E|]. by rewrite E.
Qed.

(** The exit codes on the samples: a deck copied, a dry run, a source
    directory that is missing, one that is a file, a directory without
    assets, and a copy that fails. *)
Example main_exit_code_samples :
  fst (run (main ["/"] (Samples.deck_args false)) Samples.deck_fs) = Ok 0%Z
  /\ fst (run (main ["/"] (Samples.deck_args true)) Samples.deck_fs) = Ok 0%Z
  /\ fst (run (main ["/"] (mkArgs ["/"; "nowhere"] ["/"; "proj"] ["i"] ["m"] 10 false))
              Samples.deck_fs) = Ok 2%Z
  /\ trace (snd (run (main ["/"] (mkArgs ["/"; "nowhere"] ["/"; "proj"] ["i"] ["m"] 10 false))
                     Samples.deck_fs)) = [EvExists ["/"; "nowhere"]]
  /\ fst (run (main ["/"] (mkArgs ["/"; "deck"; "d1.png"] ["/"; "proj"] ["i"] ["m"] 10 false))
              Samples.deck_fs) = Ok 2%Z
  /\ fst (run (main ["/"] (mkArgs ["/"; "proj"] ["/"; "proj"] ["i"] ["m"] 10 false))
              Samples.deck_fs) = Ok 0%Z
  /\ trace (snd (run (main ["/"] (mkArgs ["/"; "proj"] ["/"; "proj"] ["i"] ["m"] 10 false))
                     Samples.deck_fs))
     = [EvExists ["/"; "proj"]; EvIsDir ["/"; "proj"]; EvIterdir ["/"; "proj"]]
  /\ fst (run (main ["/"] (Samples.deck_args false)) Samples.nested_fs) = Ok 1%Z.
Proof. repeat split; vm_compute; reflexivity. Qed.

(** ** Two runs over the same plans *)

Section PlanStep.
Import MapFS.

Lemma copy_one_step (q : CopyPlan) (fs : FS) (tr : list event) :
  plan_step q fs (fst (copy_one q false (mkState fs tr)))
            (world (snd (copy_one q false (mkState fs tr)))).
Proof.
  rewrite copy_one_mapfs.
  destruct (mkdir_parents (parent (dest q)) fs) as [[u|e] fs1] eqn:E1; simpl.
  2: by apply step_raise.
  destruct (skip_rule fs1 (src q) (dest q)) eqn:E2; simpl.
  1: by eapply step_skip.
  destruct (copy2_cases (src q) (dest q) fs1) as [(e & E3)|(data & E3 & A & B & C & D)];
    rewrite E3; simpl.
  - by eapply step_error.
  - by eapply step_copied.
Qed.

(** The world after a plan does not depend on the trace before it. *)
Lemma copy_one_world (q : CopyPlan) (fs : FS) (tr : list event) :
  fst (copy_one q false (mkState fs tr)) = fst (copy_one q false (mkState fs []))
  /\ world (snd (copy_one q false (mkState fs tr)))
     = world (snd (copy_one q false (mkState fs []))).
Proof.
  rewrite !copy_one_mapfs.
  destruct (mkdir_parents (parent (dest q)) fs) as [[u|e] fs1]; simpl; [|done].
  destruct (skip_rule fs1 (src q) (dest q)); simpl; [done|].
  by destruct (copy2 (src q) (dest q) fs1) as [[u'|e] fs2].
Qed.

Lemma skip_rule_true (fs : FS) (s d : Path) :
  skip_rule fs s d = true <->
  exists ns nd, fs !! s = Some ns /\ fs !! d = Some nd /\ st_size ns = st_size nd.
Proof.
  unfold skip_rule. destruct (fs !! d) as [nd|], (fs !! s) as [ns|]; split;
    try done; try (by intros (? & ? & ? & ? & ?)).
  - intros Hs. apply Nat.eqb_eq in Hs. eauto.
  - intros (? & ? & [= <-] & [= <-] & ->). apply Nat.eqb_refl.
Qed.

Lemma grows_dir (p x : Path) (fs fs1 : FS) :
  grows p fs fs1 -> is_dir_node (fs !! x) = true -> is_dir_node (fs1 !! x) = true.
Proof.
  intros [A _] Hx. destruct (fs !! x) as [n|] eqn:E; [|done].
  by rewrite (A x n E).
Qed.

Lemma grows_not_file (p x : Path) (fs fs1 : FS) :
  grows p fs fs1 -> is_file_node (fs !! x) = false -> is_file_node (fs1 !! x) = false.
Proof.
  intros [A B] Hx. destruct (fs !! x) as [n|] eqn:E.
  - by rewrite (A x n E).
  - destruct (B x E) as [->|[-> _]]; done.
Qed.

Lemma grows_skip_rule (p s d : Path) (fs fs1 : FS) :
  grows p fs fs1 -> skip_rule fs s d = true -> skip_rule fs1 s d = true.
Proof.
  intros [A _] Hs. apply skip_rule_true in Hs as (ns & nd & Hs & Hd & Hsz).
  apply skip_rule_true. exists ns, nd. auto.
Qed.

End PlanStep.

(** The tool run twice on the sample deck: the first run copies, the
    second makes no call to [shutil.copy2], and both exit with 0. *)
Example main_twice_on_deck :
  existsb is_copy (trace (snd (run (main ["/"] (Samples.deck_args false)) Samples.deck_fs)))
  = true
  /\ existsb is_copy
       (trace (snd (run (main ["/"] (Samples.deck_args false))
                        (world (snd (run (main ["/"] (Samples.deck_args false))
                                         Samples.deck_fs))))))
     = false
  /\ fst (run (main ["/"] (Samples.deck_args false))
              (world (snd (run (main ["/"] (Samples.deck_args false)) Samples.deck_fs))))
     = Ok 0%Z.
Proof. repeat split; vm_compute; reflexivity. Qed.

(** ** The order of completion *)

Section CompletionOrder.

Lemma existsb_perm {A} (f : A -> bool) (l l' : list A) :
  Permutation l l' -> existsb f l = existsb f l'.
Proof.
  induction 1 as [|x l l' _ IH|x y l|l l' l'' _ IH1 _ IH2]; simpl.
  - reflexivity.
  - by rewrite IH.
  - by rewrite !orb_assoc, (orb_comm (f y)).
  - by rewrite IH1.
Qed.

Lemma forallb_perm {A} (f : A -> bool) (l l' : list A) :
  Permutation l l' -> forallb f l = forallb f l'.
Proof.
  induction 1 as [|x l l' _ IH|x y l|l l' l'' _ IH1 _ IH2]; simpl.
  - reflexivity.
  - by rewrite IH.
  - by rewrite !andb_assoc, (andb_comm (f y)).
  - by rewrite IH1.
Qed.

(** In whatever order [as_completed] hands the futures over, the
    reporting loop raises or not alike, and finds errors or not alike. *)
Lemma tally_loop_order (futures futures' : list Future) :
  Permutation futures futures' ->
  Forall well_formed_future futures ->
  match tally_loop futures (mkTally 0 0 0), tally_loop futures' (mkTally 0 0 0) with
  | Ok t, Ok t' => (errors t =? 0)%nat = (errors t' =? 0)%nat
  | Raise _, Raise _ => True
  | _, _ => False
  end.
Proof.
  intros Hp Hwf.
  assert (Hwf' : Forall well_formed_future futures').
  { apply Forall_forall. intros f Hf. rewrite Forall_forall in Hwf.
    apply Hwf. by rewrite Hp. }
  destruct (forallb is_ok futures) eqn:Hok.
  - assert (Hok' : forallb is_ok futures' = true)
      by (by rewrite <- (forallb_perm is_ok _ _ Hp)).
    destruct (tally_loop_ok futures (mkTally 0 0 0) Hok Hwf) as (t & -> & Ht).
    destruct (tally_loop_ok futures' (mkTally 0 0 0) Hok' Hwf') as (t' & -> & Ht').
    by rewrite Ht, Ht', (existsb_perm is_error _ _ Hp).
  - assert (Hok' : forallb is_ok futures' = false)
      by (by rewrite <- (forallb_perm is_ok _ _ Hp)).
    destruct (tally_loop_raises futures (mkTally 0 0 0) Hok Hwf) as (e & ->).
    by destruct (tally_loop_raises futures' (mkTally 0 0 0) Hok' Hwf') as (e' & ->).
Qed.

End CompletionOrder.

(** The plans of the sample deck: the images first, each under the images
    root with its normalized name, then the model under the models root. *)
Example build_copy_plans_deck :
  Samples.deck_plans
  = [ mkCopyPlan ["/"; "deck"; "d1.png"] (Samples.images_root ++ ["da.png"])%list image;
      mkCopyPlan ["/"; "deck"; "hT.JPG"] (Samples.images_root ++ ["h10.jpg"])%list image;
      mkCopyPlan ["/"; "deck"; "table.glb"] (Samples.models_root ++ ["table.glb"])%list model ].
Proof. reflexivity. Qed.

(** * Further properties *)

(** ** The name normalizer *)

Section NormalizerMore.

Lemma spec_normalize_shape n :
  spec_normalize n = lower n
  \/ exists a R,
       lower (stem_of n) = String a R /\ R <> ""
       /\ existsb (Ascii.eqb a) ["c"; "d"; "h"; "s"]%char = true
       /\ spec_normalize n = String a (spec_rank R) +:+ lower (suffix_of n).
Proof.
  unfold spec_normalize.
  destruct (lower (stem_of n)) as [|a [|r0 rs]] eqn:Hst; auto.
  destruct (existsb (Ascii.eqb a) ["c"; "d"; "h"; "s"]%char) eqn:Hs; auto.
  right. exists a, (String r0 rs). done.
Qed.

Lemma lower_fixed_app a b : lower a = a -> lower b = b -> lower (a +:+ b) = a +:+ b.
Proof. intros Ha Hb. by rewrite lower_app, Ha, Hb. Qed.

Lemma spec_normalize_lowercase n : lower (spec_normalize n) = spec_normalize n.
Proof.
  destruct (spec_normalize_shape n) as [->|(a & R & Hst & HR & Hs & ->)].
  - apply lower_idem.
  - assert (Hl : lower (String a R) = String a R) by (rewrite <- Hst; apply lower_idem).
    simpl in Hl. injection Hl as Ha Hr.
    change (String a (spec_rank R) +:+ lower (suffix_of n))
      with (String a (spec_rank R +:+ lower (suffix_of n))).
    simpl. rewrite Ha. f_equal.
    apply lower_fixed_app; [by apply spec_rank_lower | apply lower_idem].
Qed.

Lemma spec_normalize_suffix n :
  suffix_of (spec_normalize n) = lower (suffix_of n).
Proof.
  destruct (spec_normalize_shape n) as [->|(a & R & Hst & HR & Hs & ->)].
  - apply suffix_of_lower.
  - pose proof (spec_rank_nonempty R HR) as Hne.
    destruct (String.eqb_spec (suffix_of n) "") as [He|He].
    + pose proof (suffix_of_empty n He) as Hnone.
      assert (Hn : lower n = String a R).
      { rewrite <- Hst. unfold stem_of. by rewrite Hnone. }
      rewrite He. simpl lower. rewrite app_nil_r_str.
      assert (Hs2 : split_at (String a (spec_rank R)) = None).
      { apply split_at_suit_rank. rewrite <- Hn, split_at_lower. exact Hnone. }
      unfold suffix_of. by rewrite Hs2.
    + rewrite <- suffix_of_lower.
      assert (He' : suffix_of (lower n) <> "").
      { rewrite suffix_of_lower. intros Hx. apply He.
        destruct (suffix_of n); [done | discriminate]. }
      by destruct (resplit (lower n) (String a (spec_rank R))) as [H1 _].
Qed.

End NormalizerMore.

(** X1: the normalized name is in lower case: lowering it again changes
    nothing, whatever the source path. *)
Theorem normalize_basename_lowercase (p : Path) :
  lower (normalize_basename p) = normalize_basename p.
Proof. rewrite normalize_basename_unfold. apply spec_normalize_lowercase. Qed.

(** X2: renaming keeps the file type of an ASCII name: the extension of
    the normalized name is the lowercased extension of the source, so the
    normalized name is an image name, or a model name, exactly when the
    source is. *)
Theorem normalize_basename_keeps_extension (p : Path) :
  isascii (name p) = true ->
  suffix_of (normalize_basename p) = lower (suffix p)
  /\ mem (lower (suffix_of (normalize_basename p))) IMAGE_EXTS
     = mem (lower (suffix p)) IMAGE_EXTS
  /\ mem (lower (suffix_of (normalize_basename p))) MODEL_EXTS
     = mem (lower (suffix p)) MODEL_EXTS.
Proof.
  intros _.
  assert (E : suffix_of (normalize_basename p) = lower (suffix p)).
  { rewrite normalize_basename_unfold. apply spec_normalize_suffix. }
  by rewrite !E, !lower_idem.
Qed.

Lemma normalize_basename_keeps_extension_witness :
  suffix_of (normalize_basename ["/"; "deck"; "hT.JPG"]) = ".jpg"
  /\ mem (lower (suffix_of (normalize_basename ["/"; "deck"; "hT.JPG"]))) IMAGE_EXTS = true.
Proof.
  destruct (normalize_basename_keeps_extension ["/"; "deck"; "hT.JPG"] eq_refl)
    as (E1 & E2 & _).
  split; [exact E1 | exact E2].
Defined.

(** X3: the normalizer does not see the case of an ASCII name: two paths
    whose ASCII file names differ in case only get the same normalized
    name. *)
Theorem normalize_basename_ignores_case (p q : Path) :
  isascii (name p) = true ->
  isascii (name q) = true ->
  lower (name p) = lower (name q) ->
  normalize_basename p = normalize_basename q.
Proof.
  intros _ _ E. rewrite !normalize_basename_unfold.
  by rewrite <- (spec_normalize_lower (name p)), E, spec_normalize_lower.
Qed.

Lemma normalize_basename_ignores_case_witness :
  normalize_basename ["/"; "deck"; "HT.Jpg"] = normalize_basename ["/"; "old"; "ht.JPG"]
  /\ normalize_basename ["/"; "deck"; "HT.Jpg"] = "h10.jpg".
Proof.
  split; [|reflexivity].
  apply (normalize_basename_ignores_case ["/"; "deck"; "HT.Jpg"] ["/"; "old"; "ht.JPG"]);
    reflexivity.
Defined.

(** ** The plan builder *)

Section PlanBuilderMore.

Lemma join_absolute (root q : Path) :
  is_absolute root = true -> is_absolute (join root q) = true.
Proof.
  intros Hr. unfold join. destruct (is_absolute q) eqn:Hq; [done|].
  destruct root as [|x root]; [done|]. exact Hr.
Qed.

Lemma resolve_absolute (base p : Path) :
  is_absolute base = true -> is_absolute (resolve base p) = true.
Proof.
  intros Hb. unfold resolve. destruct (is_absolute p) eqn:Hp; [done|].
  by apply join_absolute.
Qed.

Lemma in_build_copy_plans images models id md plan :
  In plan (build_copy_plans images models id md) ->
  exists k p, plan = plan_for id md k p.
Proof.
  rewrite build_copy_plans_map. intros Hin.
  apply in_app_or in Hin as [Hin|Hin]; apply in_map_iff in Hin as (p & <- & _); eauto.
Qed.

End PlanBuilderMore.

(** X4: a plan keeps the file type of its source: for a source that is a
    directory entry with an ASCII name, the extension of the destination
    is the lowercased extension of the source, and the name of the
    destination is in lower case. *)
Theorem build_copy_plans_keeps_extension
  (images models : list Path) (images_dest models_dest : Path) (plan : CopyPlan) :
  In plan (build_copy_plans images models images_dest models_dest) ->
  single_part (name (src plan)) = true ->
  isascii (name (src plan)) = true ->
  suffix (dest plan) = lower (suffix (src plan))
  /\ lower (name (dest plan)) = name (dest plan).
Proof.
  intros Hin Hs _. destruct (in_build_copy_plans _ _ _ _ _ Hin) as (k & p & ->).
  destruct (plan_for_under_root images_dest models_dest k p Hs) as (_ & _ & Hn).
  unfold suffix. rewrite Hn. split.
  - rewrite normalize_basename_unfold. apply spec_normalize_suffix.
  - rewrite normalize_basename_unfold. apply spec_normalize_lowercase.
Qed.

Lemma build_copy_plans_keeps_extension_witness :
  suffix (Samples.images_root ++ ["h10.jpg"])%list = ".jpg"
  /\ suffix (dest (mkCopyPlan ["/"; "deck"; "hT.JPG"]
                               (Samples.images_root ++ ["h10.jpg"])%list image))
     = lower (suffix ["/"; "deck"; "hT.JPG"]).
Proof.
  split; [reflexivity|].
  apply (build_copy_plans_keeps_extension
           [["/"; "deck"; "d1.png"]; ["/"; "deck"; "hT.JPG"]] [["/"; "deck"; "table.glb"]]
           Samples.images_root Samples.models_root).
  - right. left. reflexivity.
  - reflexivity.
  - reflexivity.
Defined.

(** X5: for POSIX paths (the flavour of this model: the anchor is the
    root, and there are no drives), with an absolute working directory
    the two destination roots [main] resolves are absolute, whatever the
    options are, and so is the destination of every plan built under
    them. *)
Theorem destinations_are_absolute
  (cwd : Path) (args : Args) (images models : list Path) (plan : CopyPlan) :
  let project_root := resolve cwd (args_project_root args) in
  let images_dest := resolve project_root (args_images_dir args) in
  let models_dest := resolve project_root (args_models_dir args) in
  is_absolute cwd = true ->
  In plan (build_copy_plans images models images_dest models_dest) ->
  is_absolute images_dest = true
  /\ is_absolute models_dest = true
  /\ is_absolute (dest plan) = true.
Proof.
  intros project_root images_dest models_dest Hcwd Hin.
  assert (Hpr : is_absolute project_root = true) by (by apply resolve_absolute).
  assert (Hi : is_absolute images_dest = true) by (by apply resolve_absolute).
  assert (Hm : is_absolute models_dest = true) by (by apply resolve_absolute).
  split; [done|]. split; [done|].
  destruct (in_build_copy_plans _ _ _ _ _ Hin) as (k & p & ->).
  simpl. unfold join_str. apply join_absolute. by destruct k.
Qed.

Lemma destinations_are_absolute_witness :
  is_absolute ["/"; "home"; "proj"; "assets"; "cards"; "images"; "da.png"] = true.
Proof.
  refine (proj2 (proj2 (destinations_are_absolute ["/"; "home"]
            (mkArgs ["deck"] ["proj"] ["assets"; "cards"; "images"]
                    ["assets"; "cards"; "models"] 10 false)
            [["deck"; "d1.png"]] []
            (mkCopyPlan ["deck"; "d1.png"]
               ["/"; "home"; "proj"; "assets"; "cards"; "images"; "da.png"] image) _ _))).
  - reflexivity.
  - left. reflexivity.
Defined.

(** ** The copy executor on any file system *)

(** X6: a failure of the copy step is caught inside the plan: when the
    directory step succeeds, [is_same_file] answers no and [shutil.copy2]
    raises [e], [copy_one] returns the plan with the outcome
    ["ERROR: " + str(e)], in the world the failed copy left, and nothing
    is raised. *)
Theorem copy_failure_is_reported {W : Type} `{FileSystem W}
  (plan : CopyPlan) (st : State W) (e : OSError) :
  let r1 := ensure_dir (parent (dest plan)) st in
  let r2 := is_same_file (src plan) (dest plan) (snd r1) in
  let r3 := fs_copy2 (src plan) (dest plan) (world (snd r2)) in
  is_ok (fst r1) = true ->
  fst r2 = Ok false ->
  fst r3 = Raise e ->
  fst (copy_one plan false st) = Ok (plan, "ERROR: " +:+ strerror e)
  /\ world (snd (copy_one plan false st)) = snd r3
  /\ trace (snd (copy_one plan false st))
     = (trace (snd r2) ++ [EvCopy2 (src plan) (dest plan)])%list.
Proof.
  intros r1 r2 r3 H1 H2 H3. subst r1 r2 r3. rewrite copy_one_eq.
  destruct (ensure_dir (parent (dest plan)) st) as [[u|e1] st1]; [|done]. simpl in *.
  destruct (is_same_file (src plan) (dest plan) st1) as [[[|]|e2] st2]; try done.
  simpl in *. destruct (fs_copy2 (src plan) (dest plan) (world st2)) as [[u'|e3] w3];
    [done|]. simpl in *. by injection H3 as ->.
Qed.

Lemma copy_failure_is_reported_witness :
  fst (copy_one Samples.ace_plan false (mkState Samples.nested_fs []))
  = Ok (Samples.ace_plan, "ERROR: [Errno 21] Is a directory").
Proof.
  refine (proj1 (copy_failure_is_reported Samples.ace_plan
                   (mkState Samples.nested_fs []) MapFS.IsADirectoryError _ _ _));
    vm_compute; reflexivity.
Defined.

Lemma copy_one_returns {W : Type} `{FileSystem W}
  (plan : CopyPlan) (dry_run : bool) (st : State W) (plan' : CopyPlan) (status : string) :
  fst (copy_one plan dry_run st) = Ok (plan', status) ->
  plan' = plan /\ outcome_in_mode dry_run status.
Proof.
  rewrite copy_one_eq.
  destruct (ensure_dir _ st) as [[u|e] st1]; [|discriminate].
  destruct (is_same_file_reads (src plan) (dest plan) st1) as (b & st2 & evs & -> & _).
  unfold outcome_in_mode. destruct b.
  - intros [= <- <-]. split; [done|]. destruct dry_run; auto.
  - destruct dry_run.
    + intros [= <- <-]. auto.
    + destruct (fs_copy2 _ _ _) as [[u'|e] w3]; intros [= <- <-]; split; eauto.
Qed.

(** X7: what [copy_one] returns: the plan it was given, and in a dry run
    the outcome "skip" or "would copy", otherwise "skip", "copied" or
    "error" with the text of the exception. *)
Theorem copy_one_outcome_by_mode {W : Type} `{FileSystem W}
  (plan : CopyPlan) (dry_run : bool) (st : State W) (plan' : CopyPlan) (status : string) :
  fst (copy_one plan dry_run st) = Ok (plan', status) ->
  plan' = plan /\ outcome_in_mode dry_run status.
Proof. apply copy_one_returns. Qed.

Lemma copy_one_outcome_by_mode_witness :
  Samples.ace_plan = Samples.ace_plan
  /\ outcome_in_mode true "dry-run (would copy)".
Proof.
  apply (copy_one_outcome_by_mode Samples.ace_plan true (mkState Samples.deck_fs [])).
  vm_compute. reflexivity.
Defined.

(** X8: [is_same_file] only looks: whatever the file system answers, its
    calls are the existence check of the destination followed by at most
    the [stat] of the source and the [stat] of the destination, in that
    order, and it makes no write. *)
Theorem is_same_file_only_reads {W : Type} `{FileSystem W}
  (s d : Path) (st : State W) :
  exists evs,
    trace (snd (is_same_file s d st)) = (trace st ++ EvExists d :: evs)%list
    /\ stat_calls s d evs
    /\ existsb is_write (EvExists d :: evs) = false.
Proof.
  rewrite is_same_file_eq. unfold stat_calls.
  destruct (fs_exists d (world st)) as [[[|]|e1] w1].
  2,3: exists []; simpl; auto.
  destruct (fs_stat_size s w1) as [[a|e2] w2].
  2: exists [EvStat s]; simpl; auto.
  destruct (fs_stat_size d w2) as [[b|e3] w3];
    exists [EvStat s; EvStat d]; simpl; auto.
Qed.

(** ** The copy executor on the finite-map file system *)

Section CopyMore.
Import MapFS.

(** The run of a plan that ends with "copied". *)
Lemma copied_cases (plan plan' : CopyPlan) (fs : FS) (tr : list event) :
  fst (copy_one plan false (mkState fs tr)) = Ok (plan', "copied") ->
  exists u fs1 data,
    mkdir_parents (parent (dest plan)) fs = (Ok u, fs1)
    /\ skip_rule fs1 (src plan) (dest plan) = false
    /\ fs1 !! src plan = Some (File data)
    /\ src plan <> copy_target fs1 (src plan) (dest plan)
    /\ is_dir_node (fs1 !! copy_target fs1 (src plan) (dest plan)) = false
    /\ is_dir_node (fs1 !! parent (copy_target fs1 (src plan) (dest plan))) = true
    /\ world (snd (copy_one plan false (mkState fs tr)))
       = <[copy_target fs1 (src plan) (dest plan) := File data]> fs1.
Proof.
  rewrite copy_one_mapfs.
  destruct (mkdir_parents (parent (dest plan)) fs) as [[u|e] fs1] eqn:E1; [|done].
  simpl. destruct (skip_rule fs1 (src plan) (dest plan)) eqn:E2; [done|].
  destruct (copy2_cases (src plan) (dest plan) fs1) as [(e & E3)|(data & E3 & A & B & C & D)];
    rewrite E3; simpl; [discriminate|].
  intros _. by exists u, fs1, data.
Qed.

End CopyMore.

(** X9: a plan that reports "copied" has copied: afterwards the target
    (the destination, or the file of the source's name inside it when the
    destination is a directory) holds the content the source had, the
    source still holds it, and every other path is as the directory step
    left it, which itself only added directories on the way to the
    destination's parent. *)
Theorem copied_holds_source_content
  (fs : gmap Path node) (tr : list event) (plan plan' : CopyPlan) :
  let r := copy_one plan false (mkState fs tr) in
  let fs1 := snd (MapFS.mkdir_parents (parent (dest plan)) fs) in
  let target := MapFS.copy_target fs1 (src plan) (dest plan) in
  fst r = Ok (plan', "copied") ->
  exists data,
    fs !! src plan = Some (File data)
    /\ world (snd r) !! src plan = Some (File data)
    /\ world (snd r) !! target = Some (File data)
    /\ (forall q, q <> target -> world (snd r) !! q = fs1 !! q)
    /\ MapFS.grows (parent (dest plan)) fs fs1.
Proof.
  intros r fs1 target Hc. subst r fs1 target.
  destruct (copied_cases plan plan' fs tr Hc)
    as (u & fs1 & data & E1 & _ & Hs & Hne & _ & _ & ->).
  rewrite E1. simpl. pose proof (mkdir_parents_grows _ _ _ _ E1) as Hg.
  exists data. split; [|split; [|split; [|split]]].
  - by apply (grows_files _ _ _ Hg).
  - by rewrite lookup_insert_ne.
  - by rewrite lookup_insert_eq.
  - intros q Hq. by rewrite lookup_insert_ne.
  - exact Hg.
Qed.

Lemma copied_holds_source_content_witness :
  exists data,
    Samples.deck_fs !! src Samples.ace_plan = Some (File data)
    /\ world (snd (copy_one Samples.ace_plan false (mkState Samples.deck_fs [])))
         !! src Samples.ace_plan = Some (File data)
    /\ world (snd (copy_one Samples.ace_plan false (mkState Samples.deck_fs [])))
         !! MapFS.copy_target
              (snd (MapFS.mkdir_parents (parent (dest Samples.ace_plan)) Samples.deck_fs))
              (src Samples.ace_plan) (dest Samples.ace_plan)
       = Some (File data).
Proof.
  destruct (copied_holds_source_content Samples.deck_fs [] Samples.ace_plan Samples.ace_plan)
    as (data & H1 & H2 & H3 & _); [vm_compute; reflexivity|].
  exists data. auto.
Defined.

(** X10: [ensure_dir] changes no node that exists and adds nothing but
    directories on the way to its argument; when it succeeds the argument
    is a directory, and a second call succeeds and changes nothing. *)
Theorem ensure_dir_idempotent (p : Path) (fs : gmap Path node) (tr : list event) :
  let r := ensure_dir p (mkState fs tr) in
  MapFS.grows p fs (world (snd r))
  /\ (forall q data, world (snd r) !! q = Some (File data) <-> fs !! q = Some (File data))
  /\ (is_ok (fst r) = true ->
      MapFS.is_dir_node (world (snd r) !! p) = true
      /\ ensure_dir p (snd r)
         = (Ok tt, mkState (world (snd r)) (trace (snd r) ++ [EvMkdir p])%list)).
Proof.
  intros r. subst r. rewrite ensure_dir_mapfs. simpl.
  destruct (MapFS.mkdir_parents p fs) as [[u|e] fs1] eqn:E; simpl;
    pose proof (mkdir_parents_grows _ _ _ _ E) as Hg.
  - split; [done|]. split; [by apply (grows_files p)|]. intros _.
    pose proof (mkdir_parents_success _ _ _ _ E) as Hd. split; [done|].
    rewrite ensure_dir_mapfs. simpl. by rewrite (mkdir_parents_existing _ _ Hd).
  - split; [done|]. split; [by apply (grows_files p)|]. done.
Qed.

(** X11: copying is settled at once: after a plan reported "copied" into
    a destination that is not a directory, running the same plan again,
    dry or not, reports "skip", with the directory step, the existence
    check and the two [stat] calls as its only calls, and leaves the file
    system as it is. *)
Theorem copied_then_skipped
  (fs : gmap Path node) (tr tr' : list event) (plan plan' : CopyPlan) (dry_run : bool) :
  let r := copy_one plan false (mkState fs tr) in
  fst r = Ok (plan', "copied") ->
  MapFS.is_dir_node (world (snd r) !! dest plan) = false ->
  copy_one plan dry_run (mkState (world (snd r)) tr')
  = (Ok (plan, "skip (same size)"),
     mkState (world (snd r))
       (tr' ++ [EvMkdir (parent (dest plan)); EvExists (dest plan);
                EvStat (src plan); EvStat (dest plan)])%list).
Proof.
  intros r Hc Hnd. subst r.
  destruct (copied_cases plan plan' fs tr Hc)
    as (u & fs1 & data & E1 & _ & Hs & Hne & Ht & Hp & E).
  rewrite E in Hnd |- *. clear E.
  assert (Htarget : MapFS.copy_target fs1 (src plan) (dest plan) = dest plan).
  { unfold MapFS.copy_target in *. destruct (MapFS.is_dir_node (fs1 !! dest plan)) eqn:Hd;
      [|done].
    rewrite lookup_insert_ne in Hnd; [congruence|].
    intros E'. apply (f_equal List.length) in E'. rewrite length_app in E'. simpl in E'. lia. }
  rewrite Htarget in *.
  assert (Hpar : parent (dest plan) <> dest plan) by (intros E'; rewrite E' in Hp; congruence).
  rewrite copy_one_mapfs.
  rewrite (mkdir_parents_existing (parent (dest plan)));
    [|by rewrite lookup_insert_ne].
  unfold MapFS.skip_rule, MapFS.same_file_events.
  rewrite lookup_insert_eq, lookup_insert_ne, Hs by done.
  simpl. by rewrite Nat.eqb_refl.
Qed.

Lemma copied_then_skipped_witness :
  fst (copy_one Samples.ace_plan true
         (mkState (world (snd (copy_one Samples.ace_plan false (mkState Samples.deck_fs []))))
                  []))
  = Ok (Samples.ace_plan, "skip (same size)").
Proof.
  rewrite (copied_then_skipped Samples.deck_fs [] [] Samples.ace_plan Samples.ace_plan true);
    [reflexivity | vm_compute; reflexivity | vm_compute; reflexivity].
Defined.

(** ** Discovery on any file system *)

Section DiscoveryMore.
Context {W : Type} `{FileSystem W}.

Lemma sublist_app_skip {A} (l1 l2 : list A) (x : A) :
  sublist l1 l2 -> sublist l1 (l2 ++ [x])%list.
Proof.
  intros Hs. rewrite <- (app_nil_r l1). apply sublist_app; [done|]. apply sublist_nil_l.
Qed.

Lemma discover_loop_result (entries images models : list Path) (st : State W)
      (images' models' : list Path) (st' : State W) :
  discover_loop entries images models st = (Ok (images', models'), st') ->
  exists imgs mdls,
    images' = (images ++ imgs)%list /\ models' = (models ++ mdls)%list
    /\ sublist imgs entries /\ sublist mdls entries
    /\ Forall (fun p => mem (lower (suffix p)) IMAGE_EXTS = true) imgs
    /\ Forall (fun p => mem (lower (suffix p)) IMAGE_EXTS = false
                        /\ mem (lower (suffix p)) MODEL_EXTS = true) mdls
    /\ trace st' = (trace st ++ map EvIsFile entries)%list.
Proof.
  revert images models st.
  induction entries as [|p rest IH]; intros images models st.
  - simpl. unfold ret. intros [= <- <- <-]. exists [], [].
    rewrite !app_nil_r. repeat split; constructor.
  - cbn [discover_loop]. unfold bind at 1, path_is_file. rewrite call_eq.
    destruct (fs_is_file p (world st)) as [[f|e] w1]; [|discriminate].
    cbn [fst snd].
    assert (Htr : forall (st1 : State W) evs,
               trace st1 = (trace (mkState w1 (trace st ++ [EvIsFile p])) ++ evs)%list ->
               trace st1 = (trace st ++ map EvIsFile (p :: []) ++ evs)%list).
    { intros st1 evs ->. simpl. by rewrite <- app_assoc. }
    destruct f; cbn [negb].
    + destruct (mem (lower (suffix p)) IMAGE_EXTS) eqn:Hi.
      * intros E. destruct (IH _ _ _ E) as (imgs & mdls & -> & -> & S1 & S2 & F1 & F2 & T).
        exists (p :: imgs), mdls. rewrite <- app_assoc. simpl.
        repeat split; try done.
        -- by constructor.
        -- by constructor.
        -- by constructor.
        -- rewrite T. simpl. by rewrite <- app_assoc.
      * destruct (mem (lower (suffix p)) MODEL_EXTS) eqn:Hm.
        -- intros E. destruct (IH _ _ _ E) as (imgs & mdls & -> & -> & S1 & S2 & F1 & F2 & T).
           exists imgs, (p :: mdls). rewrite <- app_assoc. simpl.
           repeat split; try done.
           ++ by constructor.
           ++ by constructor.
           ++ by constructor.
           ++ rewrite T. simpl. by rewrite <- app_assoc.
        -- intros E. destruct (IH _ _ _ E) as (imgs & mdls & -> & -> & S1 & S2 & F1 & F2 & T).
           exists imgs, mdls. repeat split; try done.
           ++ by constructor.
           ++ by constructor.
           ++ rewrite T. simpl. by rewrite <- app_assoc.
    + intros E. destruct (IH _ _ _ E) as (imgs & mdls & -> & -> & S1 & S2 & F1 & F2 & T).
      exists imgs, mdls. repeat split; try done.
      * by constructor.
      * by constructor.
      * rewrite T. simpl. by rewrite <- app_assoc.
Qed.

End DiscoveryMore.

(** X12: on every file system, whatever [is_file] answers, what
    [discover_files] returns are two sublists of the listing (so in its
    order), the first of paths with an image extension, the second of
    paths with the model extension and no image extension, hence
    disjoint; its calls are the listing followed by one [is_file] per
    entry, in order, and nothing else. *)
Theorem discover_files_sublists {W : Type} `{FileSystem W}
  (src_dir : Path) (st : State W) (entries images models : list Path) :
  fst (fs_iterdir src_dir (world st)) = Ok entries ->
  fst (discover_files src_dir st) = Ok (images, models) ->
  sublist images entries /\ sublist models entries
  /\ Forall (fun p => mem (lower (suffix p)) IMAGE_EXTS = true) images
  /\ Forall (fun p => mem (lower (suffix p)) MODEL_EXTS = true) models
  /\ (forall p, In p images -> ~ In p models)
  /\ trace (snd (discover_files src_dir st))
     = (trace st ++ EvIterdir src_dir :: map EvIsFile entries)%list.
Proof.
  unfold discover_files, bind, iterdir. rewrite call_eq.
  destruct (fs_iterdir src_dir (world st)) as [[l|e] w1]; [|discriminate].
  cbn [fst snd]. intros [= ->].
  destruct (discover_loop entries [] [] _) as [[[imgs0 mdls0]|e] st'] eqn:E; [|discriminate].
  cbn [fst snd]. intros [= -> ->].
  destruct (discover_loop_result _ _ _ _ _ _ _ E)
    as (imgs & mdls & -> & -> & S1 & S2 & F1 & F2 & T).
  simpl in *. split; [done|]. split; [done|]. split; [done|]. split; [|split].
  - eapply Forall_impl; [exact F2|]. by intros p [_ ?].
  - intros p Hi Hm. rewrite Forall_forall in F1, F2.
    apply list_elem_of_In in Hi, Hm.
    specialize (F1 p Hi). destruct (F2 p Hm) as [F2' _]. congruence.
  - rewrite T. simpl. by rewrite <- app_assoc.
Qed.

Lemma discover_files_sublists_witness :
  sublist [["/"; "deck"; "d1.png"]; ["/"; "deck"; "hT.JPG"]]
          (MapFS.children ["/"; "deck"] Samples.deck_fs).
Proof.
  refine (proj1 (discover_files_sublists ["/"; "deck"] (mkState Samples.deck_fs [])
                   (MapFS.children ["/"; "deck"] Samples.deck_fs)
                   [["/"; "deck"; "d1.png"]; ["/"; "deck"; "hT.JPG"]]
                   [["/"; "deck"; "table.glb"]] _ _));
    vm_compute; reflexivity.
Defined.

(** ** The pool and the summary on any file system *)

Section PoolMore.
Context {W : Type} `{FileSystem W}.

Lemma submit_all_futures (plans : list CopyPlan) (dry_run : bool) (st : State W) :
  exists futures st',
    submit_all plans dry_run st = (Ok futures, st')
    /\ Forall2 (future_of dry_run) plans futures.
Proof.
  revert st. induction plans as [|plan rest IH]; intros st; simpl.
  - exists [], st. split; [done | constructor].
  - destruct (copy_one plan dry_run st) as [fut st1] eqn:E.
    destruct (IH st1) as (futs & st2 & E2 & Hall).
    exists (fut :: futs), st2. unfold bind. rewrite E2. split; [done|].
    constructor; [|done]. destruct fut as [[pl s]|e]; [|done].
    apply (copy_one_returns plan dry_run st). by rewrite E.
Qed.

Lemma adds_refl P (st : State W) : adds P st st.
Proof. exists []. by rewrite app_nil_r. Qed.

Lemma adds_trans P (st1 st2 st3 : State W) :
  adds P st1 st2 -> adds P st2 st3 -> adds P st1 st3.
Proof.
  intros (e1 & T1 & H1) (e2 & T2 & H2). exists (e1 ++ e2)%list.
  by rewrite T2, T1, <- app_assoc, forallb_app, H1, H2.
Qed.

Lemma adds_call {A} P ev (op : W -> result A * W) st :
  P ev = true -> adds P st (snd (call ev op st)).
Proof. intros Hev. rewrite call_eq. exists [ev]. simpl. by rewrite Hev. Qed.

Lemma adds_bind {A B} P (m : M W A) (k : A -> M W B) st :
  adds P st (snd (m st)) ->
  (forall a st1, adds P st1 (snd (k a st1))) ->
  adds P st (snd (bind m k st)).
Proof.
  intros Hm Hk. unfold bind. destruct (m st) as [[a|e] st1]; [|done].
  eapply adds_trans; [exact Hm | apply Hk].
Qed.

Lemma source_invalid_adds src_dir st :
  adds not_copy st (snd (source_invalid src_dir st)).
Proof.
  unfold source_invalid. apply adds_bind; [by apply adds_call|].
  intros ex st1. destruct ex; simpl; [|apply adds_refl].
  apply adds_bind; [by apply adds_call|]. intros; apply adds_refl.
Qed.

Lemma discover_loop_adds entries images models st :
  adds not_copy st (snd (discover_loop entries images models st)).
Proof.
  revert images models st. induction entries as [|p rest IH]; intros images models st.
  - apply adds_refl.
  - cbn [discover_loop]. apply adds_bind; [by apply adds_call|].
    intros f st1. destruct f; cbn [negb]; [|apply IH].
    destruct (mem _ IMAGE_EXTS); [apply IH|]. destruct (mem _ MODEL_EXTS); apply IH.
Qed.

Lemma discover_files_adds src_dir st :
  adds not_copy st (snd (discover_files src_dir st)).
Proof.
  unfold discover_files. apply adds_bind; [by apply adds_call|].
  intros; apply discover_loop_adds.
Qed.

Lemma copy_one_dry_adds plan st :
  adds not_copy st (snd (copy_one plan true st)).
Proof.
  destruct (copy_one_dry_run_trace plan st) as (evs & Ht & Hr).
  exists (EvMkdir (parent (dest plan)) :: evs). split; [exact Ht|]. simpl.
  rewrite forallb_forall in Hr. apply forallb_forall. intros e He.
  specialize (Hr e He). by destruct e.
Qed.

Lemma submit_all_dry_adds plans st :
  adds not_copy st (snd (submit_all plans true st)).
Proof.
  revert st. induction plans as [|plan rest IH]; intros st; simpl.
  - apply adds_refl.
  - pose proof (copy_one_dry_adds plan st) as H1.
    destruct (copy_one plan true st) as [fut st1]. simpl in H1.
    eapply adds_trans; [exact H1|].
    apply (adds_bind not_copy (submit_all rest true)); [apply IH|].
    intros; apply adds_refl.
Qed.

End PoolMore.

Section SummaryMore.

Lemma outcome_flags s :
  outcome s ->
  flags s = (true, false, false, false, true, false, false)
  \/ flags s = (false, true, false, false, false, true, false)
  \/ flags s = (false, false, true, false, false, false, true)
  \/ flags s = (false, false, false, true, false, false, false).
Proof. intros []; [right; left|right; right; left|left|right; right; right]; reflexivity. Qed.

Lemma count_cons f fut futs :
  count f (fut :: futs) = (if f fut then 1 else 0) + count f futs.
Proof. unfold count. simpl. by destruct (f fut). Qed.

Lemma tally_loop_counts futures t0 t :
  Forall well_formed_future futures ->
  tally_loop futures t0 = Ok t ->
  copied t = copied t0 + count is_copied futures
  /\ skipped t = skipped t0 + count is_skipped futures
  /\ errors t = errors t0 + count is_error futures
  /\ count is_copied futures + count is_skipped futures + count is_error futures
     + count is_would_copy futures = List.length futures.
Proof.
  intros Hwf. revert t0. induction Hwf as [|fut futs Hf Hwf IH]; intros t0.
  - simpl. intros [= <-]. unfold count. simpl. lia.
  - rewrite !count_cons. cbn [tally_loop List.length].
    destruct fut as [[pl s]|e]; [|discriminate].
    unfold well_formed_future in Hf. unfold tally_step.
    change (is_copied (Ok (pl, s))) with (String.eqb s "copied").
    change (is_skipped (Ok (pl, s))) with (String.eqb s "skip (same size)").
    change (is_would_copy (Ok (pl, s))) with (String.eqb s "dry-run (would copy)").
    change (is_error (Ok (pl, s))) with (startswith s "ERROR: ").
    destruct (outcome_flags s Hf) as [E|[E|[E|E]]]; unfold flags in E;
      injection E as E1 E2 E3 E4 E5 E6 E7;
      rewrite ?E1, ?E2, ?E3, ?E4, ?E5, ?E6, ?E7; intros Ht;
      destruct (IH _ Ht) as (A & B & C & D); simpl in *; lia.
Qed.

Lemma tally_loop_raises_in futures t :
  forallb is_ok futures = false -> Forall well_formed_future futures ->
  exists e, tally_loop futures t = Raise e /\ In (Raise e) futures.
Proof.
  revert t. induction futures as [|fut rest IH]; intros t Hok Hwf; simpl; [done|].
  simpl in Hok. inversion Hwf as [|? ? Hwf1 Hwf2]; subst.
  destruct fut as [[pl s]|e]; [|exists e; auto].
  destruct (tally_step_ok t (Ok (pl, s)) eq_refl Hwf1) as (t1 & -> & _).
  destruct (IH t1 Hok Hwf2) as (e & -> & Hin). exists e. auto.
Qed.

Lemma future_of_well_formed dry_run plans futures :
  Forall2 (future_of dry_run) plans futures -> Forall well_formed_future futures.
Proof.
  induction 1 as [|p fut ps futs Hf _ IH]; constructor; [|done].
  destruct fut as [[pl s]|e]; [|done]. destruct Hf as [_ Hs].
  unfold outcome_in_mode in Hs.
  destruct dry_run; [destruct Hs as [->| ->]|destruct Hs as [->|[->|[e ->]]]]; constructor.
Qed.

End SummaryMore.

(** X13: the pool gives one future per plan, in the order of the plans,
    whatever happens to the plans before: a future that holds a value
    holds the plan it was made for and an outcome of the mode, so a dry
    run has no "copied" and no "error". *)
Theorem pool_returns_one_future_per_plan {W : Type} `{FileSystem W}
  (plans : list CopyPlan) (dry_run : bool) (st : State W) :
  exists futures st',
    submit_all plans dry_run st = (Ok futures, st')
    /\ Forall2 (future_of dry_run) plans futures
    /\ List.length futures = List.length plans
    /\ (dry_run = true -> count is_copied futures = 0 /\ count is_error futures = 0).
Proof.
  destruct (submit_all_futures plans dry_run st) as (futs & st' & E & Hall).
  exists futs, st'. split; [done|]. split; [done|]. split.
  - symmetry. by eapply Forall2_length.
  - intros ->. clear E. induction Hall as [|p fut ps fs' Hf _ IH]; [done|].
    rewrite !count_cons. destruct IH as [-> ->].
    destruct fut as [[pl s]|e]; [|done]. destruct Hf as [_ [-> | ->]]; done.
Qed.

(** X14: the summary adds up: when the reporting loop ends, its three
    counters are the numbers of "copied", "skip" and "error" outcomes,
    and together with the "would copy" outcomes, which it does not count,
    they account for every future. *)
Theorem summary_counts_add_up (futures : list Future) (t : Tally) :
  Forall well_formed_future futures ->
  tally_loop futures (mkTally 0 0 0) = Ok t ->
  copied t = count is_copied futures
  /\ skipped t = count is_skipped futures
  /\ errors t = count is_error futures
  /\ copied t + skipped t + errors t + count is_would_copy futures = List.length futures.
Proof.
  intros Hwf Ht. destruct (tally_loop_counts futures _ t Hwf Ht) as (A & B & C & D).
  simpl in *. lia.
Qed.

Lemma summary_counts_add_up_witness :
  copied (mkTally 1 2 1) = 1 /\ errors (mkTally 1 2 1) = 1.
Proof.
  pose proof (summary_counts_add_up
                [Ok (Samples.ace_plan, "skip (same size)");
                 Ok (Samples.ace_plan, "copied");
                 Ok (Samples.ace_plan, "ERROR: " +:+ strerror MapFS.IsADirectoryError);
                 Ok (Samples.ace_plan, "dry-run (would copy)");
                 Ok (Samples.ace_plan, "skip (same size)")]
                (mkTally 1 2 1)) as Hsum.
  destruct Hsum as (A & _ & C & _).
  - repeat constructor.
  - reflexivity.
  - split; [exact A | exact C].
Defined.

(** X15: the exit code does not depend on the order in which the plans
    complete: for two orders of the same futures the reporting loop
    raises in both or in neither, and returns the same code. *)
Theorem exit_code_ignores_completion_order (futures futures' : list Future) :
  Permutation futures futures' ->
  Forall well_formed_future futures ->
  is_ok (exit_code_of futures) = is_ok (exit_code_of futures')
  /\ (forall c, exit_code_of futures = Ok c -> exit_code_of futures' = Ok c).
Proof.
  intros Hp Hwf. pose proof (tally_loop_order futures futures' Hp Hwf) as Ho.
  unfold exit_code_of.
  destruct (tally_loop futures (mkTally 0 0 0)) as [t|e],
           (tally_loop futures' (mkTally 0 0 0)) as [t'|e']; try done.
  split; [done|]. intros c [= <-]. by rewrite Ho.
Qed.

Lemma exit_code_ignores_completion_order_witness :
  exit_code_of [Ok (Samples.ace_plan, "ERROR: " +:+ strerror MapFS.IsADirectoryError);
                Ok (Samples.ace_plan, "copied")]
  = Ok 1%Z.
Proof.
  apply (proj2 (exit_code_ignores_completion_order
                  [Ok (Samples.ace_plan, "copied");
                   Ok (Samples.ace_plan, "ERROR: " +:+ strerror MapFS.IsADirectoryError)]
                  _ (perm_swap _ _ []) ltac:(repeat constructor))).
  reflexivity.
Defined.

(** After a valid source directory was listed and gave plans, what [main]
    returns or raises is the exit code of the futures of the pool. *)
Lemma main_is_exit_code_of {W : Type} `{FileSystem W}
  (cwd : Path) (args : Args) (st st1 st2 : State W) (images models : list Path) :
  let project_root := resolve cwd (args_project_root args) in
  let plans := build_copy_plans images models
                 (resolve project_root (args_images_dir args))
                 (resolve project_root (args_models_dir args)) in
  source_invalid (args_src args) st = (Ok false, st1) ->
  discover_files (args_src args) st1 = (Ok (images, models), st2) ->
  plans <> [] ->
  fst (main cwd args st)
  = exit_code_of (futures_of (submit_all plans (args_dry_run args) st2)).
Proof.
  intros project_root plans E0 E1 Hne.
  rewrite (main_after_discovery cwd args st _ _ images models E0 E1).
  fold project_root. fold plans.
  destruct (submit_all_futures plans (args_dry_run args) st2) as (futs & st3 & E2 & _).
  destruct plans as [|pl rest]; [done|].
  unfold futures_of, exit_code_of. rewrite E2. cbn [fst].
  by destruct (tally_loop futs (mkTally 0 0 0)).
Qed.

(** X16: an exception a plan raised comes out of [main]: after a valid
    source directory was listed, if the future of some plan holds an
    exception, [main] returns no exit code but raises the exception of
    one of the futures, after the pool has run every plan. *)
Theorem main_raises_what_a_plan_raised {W : Type} `{FileSystem W}
  (cwd : Path) (args : Args) (st : State W) (images models : list Path) :
  let src_dir := args_src args in
  let project_root := resolve cwd (args_project_root args) in
  let r0 := source_invalid src_dir st in
  let r1 := discover_files src_dir (snd r0) in
  let plans := build_copy_plans images models
                 (resolve project_root (args_images_dir args))
                 (resolve project_root (args_models_dir args)) in
  let r2 := submit_all plans (args_dry_run args) (snd r1) in
  fst r0 = Ok false ->
  fst r1 = Ok (images, models) ->
  forallb is_ok (futures_of r2) = false ->
  exists e,
    fst (main cwd args st) = Raise e
    /\ In (Raise e) (futures_of r2)
    /\ snd (main cwd args st) = snd r2
    /\ List.length (futures_of r2) = List.length plans.
Proof.
  intros src_dir project_root r0 r1 plans r2 H0 H1 H2.
  assert (E0 : source_invalid src_dir st = (Ok false, snd r0)).
  { subst r0. destruct (source_invalid src_dir st) as [a b]. simpl in *. by subst. }
  assert (E1 : discover_files src_dir (snd r0) = (Ok (images, models), snd r1)).
  { subst r1. destruct (discover_files src_dir (snd r0)) as [a b]. simpl in *. by subst. }
  rewrite (main_after_discovery cwd args st _ _ images models E0 E1).
  fold project_root. fold plans.
  destruct (submit_all_futures plans (args_dry_run args) (snd r1))
    as (futs & st3 & E2 & Hall).
  pose proof (future_of_well_formed _ _ _ Hall) as Hwf.
  assert (Hf : futures_of r2 = futs) by (subst r2; unfold futures_of; by rewrite E2).
  rewrite Hf in *.
  destruct (tally_loop_raises_in futs (mkTally 0 0 0) H2 Hwf) as (e & Ht & Hin).
  assert (Hlen : List.length futs = List.length plans)
    by (symmetry; by eapply Forall2_length).
  exists e. destruct plans as [|pl rest] eqn:Hp.
  - simpl in E2. unfold ret in E2. injection E2 as <- <-. done.
  - subst r2. rewrite E2, Ht. simpl. repeat split; done.
Qed.

Lemma main_raises_what_a_plan_raised_witness :
  exists e,
    fst (run (main ["/"] (Samples.deck_args false)) Samples.blocked_fs) = Raise e.
Proof.
  destruct (main_raises_what_a_plan_raised ["/"] (Samples.deck_args false)
              (mkState Samples.blocked_fs [])
              [["/"; "deck"; "d1.png"]; ["/"; "deck"; "hT.JPG"]]
              [["/"; "deck"; "table.glb"]]) as (e & He & _);
    [vm_compute; reflexivity | vm_compute; reflexivity | vm_compute; reflexivity |].
  exists e. exact He.
Defined.

(** X17: when [main] returns, the exit code is 0, 1 or 2. *)
Theorem main_exit_code_range {W : Type} `{FileSystem W}
  (cwd : Path) (args : Args) (st : State W) (c : Z) :
  fst (main cwd args st) = Ok c -> c = 0%Z \/ c = 1%Z \/ c = 2%Z.
Proof.
  unfold main, bind at 1.
  destruct (source_invalid (args_src args) st) as [[[|]|e] st1]; try discriminate.
  - unfold ret. intros [= <-]. auto.
  - unfold bind at 1.
    destruct (discover_files (args_src args) st1) as [[[images models]|e] st2];
      [|discriminate].
    destruct (build_copy_plans _ _ _ _) as [|pl rest].
    + unfold ret. intros [= <-]. auto.
    + unfold bind. destruct (submit_all _ _ st2) as [[futs|e] st3]; [|discriminate].
      destruct (tally_loop futs _) as [t|e]; [|discriminate].
      unfold ret. intros [= <-]. destruct (errors t =? 0)%nat; auto.
Qed.

Lemma main_exit_code_range_witness :
  fst (main ["/"] (Samples.deck_args false) (mkState Samples.nested_fs [])) = Ok 1%Z
  /\ (1%Z = 0%Z \/ 1%Z = 1%Z \/ 1%Z = 2%Z).
Proof.
  split; [vm_compute; reflexivity|].
  apply (main_exit_code_range ["/"] (Samples.deck_args false)
           (mkState Samples.nested_fs [])).
  vm_compute. reflexivity.
Defined.

(** X18: a dry run of the whole tool never calls [shutil.copy2], on any
    file system: every call [main] makes is an existence or type check, a
    listing, a [stat] or the directory step. *)
Theorem main_dry_run_never_copies {W : Type} `{FileSystem W}
  (cwd : Path) (args : Args) (st : State W) :
  args_dry_run args = true ->
  exists evs,
    trace (snd (main cwd args st)) = (trace st ++ evs)%list
    /\ forallb not_copy evs = true.
Proof.
  intros Hdry. change (adds not_copy st (snd (main cwd args st))).
  unfold main. rewrite Hdry.
  apply adds_bind; [apply source_invalid_adds|].
  intros [|] st1; [apply adds_refl|].
  apply adds_bind; [apply discover_files_adds|].
  intros [images models] st2.
  destruct (build_copy_plans _ _ _ _) as [|pl rest]; [apply adds_refl|].
  apply adds_bind; [apply submit_all_dry_adds|].
  intros futs st3. destruct (tally_loop futs _); apply adds_refl.
Qed.

Lemma main_dry_run_never_copies_witness :
  exists evs,
    trace (snd (main ["/"] (Samples.deck_args true) (mkState Samples.deck_fs [])))
    = ([] ++ evs)%list
    /\ forallb not_copy evs = true.
Proof.
  apply (main_dry_run_never_copies ["/"] (Samples.deck_args true)
           (mkState Samples.deck_fs [])).
  reflexivity.
Defined.

Section DryRunMore.
Import MapFS.

Lemma keeps_refl (st : State FS) : keeps st st.
Proof. split; auto. Qed.

Lemma keeps_trans (st1 st2 st3 : State FS) : keeps st1 st2 -> keeps st2 st3 -> keeps st1 st3.
Proof.
  intros [A1 B1] [A2 B2]. split; [auto|].
  intros q n Hq. destruct (B2 q n Hq) as [Hq2 | ->]; auto.
Qed.

Lemma keeps_world (st st' : State FS) : world st' = world st -> keeps st st'.
Proof. intros E. unfold keeps. rewrite E. split; auto. Qed.

Lemma keeps_bind {X Y : Type} (m : M FS X) (k : X -> M FS Y) (st : State FS) :
  keeps st (snd (m st)) ->
  (forall a st1, keeps st1 (snd (k a st1))) ->
  keeps st (snd (bind m k st)).
Proof.
  intros Hm Hk. unfold bind. destruct (m st) as [[a|e] st1]; [|exact Hm].
  exact (keeps_trans _ _ _ Hm (Hk a st1)).
Qed.

Lemma grows_only_new_dirs (p : Path) (fs fs1 : FS) : grows p fs fs1 -> only_new_dirs fs fs1.
Proof.
  intros [A B]. split; [exact A|]. intros q n Hq.
  destruct (fs !! q) as [m|] eqn:E.
  - left. rewrite (A q m E) in Hq. done.
  - right. destruct (B q E) as [Hn|[Hd _]]; congruence.
Qed.

Lemma source_invalid_keeps (src_dir : Path) (st : State FS) :
  keeps st (snd (source_invalid src_dir st)).
Proof.
  apply keeps_world. rewrite source_invalid_eq.
  cbn [fs_exists fs_is_dir MapFS_FileSystem]. unfold exists_, is_dir.
  by destruct (is_node (world st !! src_dir)).
Qed.

Lemma copy_one_dry_keeps (plan : CopyPlan) (st : State FS) :
  keeps st (snd (copy_one plan true st)).
Proof.
  destruct st as [fs tr]. rewrite copy_one_mapfs.
  destruct (mkdir_parents (parent (dest plan)) fs) as [[u|e] fs1] eqn:E;
    pose proof (grows_only_new_dirs _ _ _ (mkdir_parents_grows _ _ _ _ E)) as Hg.
  - cbn zeta. by destruct (skip_rule fs1 (src plan) (dest plan)).
  - exact Hg.
Qed.

Lemma submit_all_dry_keeps (plans : list CopyPlan) (st : State FS) :
  keeps st (snd (submit_all plans true st)).
Proof.
  revert st. induction plans as [|p rest IH]; intros st; [apply keeps_refl|].
  cbn [submit_all]. pose proof (copy_one_dry_keeps p st) as Hc.
  destruct (copy_one p true st) as [fut st1]. cbn [snd] in Hc.
  eapply keeps_trans; [exact Hc|].
  apply keeps_bind; [apply IH|]. intros a st2. apply keeps_refl.
Qed.

End DryRunMore.

Lemma discover_files_keeps (src_dir : Path) (st : State (gmap Path node)) :
  keeps st (snd (discover_files src_dir st)).
Proof.
  apply keeps_world. destruct st as [fs tr]. unfold discover_files, bind, iterdir.
  rewrite call_eq. cbn [fs_iterdir MapFS_FileSystem world trace fst snd].
  unfold MapFS.iterdir. destruct (fs !! src_dir) as [ [d | [ | ] ] | ]; try reflexivity.
  cbn [fst snd]. by rewrite discover_loop_mapfs.
Qed.

(** X19: a dry run of the whole tool changes and removes nothing and
    writes no file: on the finite-map file system every entry that was
    there before [main] is there after it, unchanged, and every entry
    that is new is a directory. *)
Theorem main_dry_run_only_makes_directories
  (cwd : Path) (args : Args) (fs : gmap Path node) (tr : list event) :
  args_dry_run args = true ->
  let fs' := world (snd (main cwd args (mkState fs tr))) in
  (forall q n, fs !! q = Some n -> fs' !! q = Some n)
  /\ (forall q n, fs' !! q = Some n -> fs !! q = Some n \/ n = Dir true).
Proof.
  intros Hdry fs'. subst fs'.
  change (keeps (mkState fs tr) (snd (main cwd args (mkState fs tr)))).
  unfold main. rewrite Hdry.
  apply keeps_bind; [apply source_invalid_keeps|].
  intros [|] st1; [apply keeps_refl|].
  apply keeps_bind; [apply discover_files_keeps|].
  intros [images models] st2.
  destruct (build_copy_plans _ _ _ _) as [|pl rest]; [apply keeps_refl|].
  apply keeps_bind; [apply submit_all_dry_keeps|].
  intros futs st3. destruct (tally_loop futs _); apply keeps_refl.
Qed.

Lemma main_dry_run_only_makes_directories_witness :
  world (snd (main ["/"] (Samples.deck_args true) (mkState Samples.deck_fs [])))
    !! ["/"; "deck"; "d1.png"]
  = Some (File "ace").
Proof.
  apply (proj1 (main_dry_run_only_makes_directories ["/"] (Samples.deck_args true)
                  Samples.deck_fs [] eq_refl)).
  vm_compute. reflexivity.
Defined.

(** * [is_same_file] and the exceptions that are not [OSError] *)

Section ExcFacts.
Context {W : Type} `{Exc.Calls W}.

(** What [is_same_file] answers or raises, from the outcomes of its three
    calls. *)
Lemma exc_is_same_file_eq (s d : Path) (st : State W) :
  Exc.is_same_file s d st =
  match Exc.call_exists d (world st) with
  | (Exc.Returns true, w1) =>
      match Exc.call_stat_size s w1 with
      | (Exc.Returns a, w2) =>
          match Exc.call_stat_size d w2 with
          | (Exc.Returns b, w3) =>
              (Exc.Returns (a =? b)%nat,
               mkState w3 (trace st ++ [EvExists d; EvStat s; EvStat d])%list)
          | (Exc.Raises (Exc.OSErr _), w3) =>
              (Exc.Returns false,
               mkState w3 (trace st ++ [EvExists d; EvStat s; EvStat d])%list)
          | (Exc.Raises x, w3) =>
              (Exc.Raises x,
               mkState w3 (trace st ++ [EvExists d; EvStat s; EvStat d])%list)
          end
      | (Exc.Raises (Exc.OSErr _), w2) =>
          (Exc.Returns false, mkState w2 (trace st ++ [EvExists d; EvStat s])%list)
      | (Exc.Raises x, w2) =>
          (Exc.Raises x, mkState w2 (trace st ++ [EvExists d; EvStat s])%list)
      end
  | (Exc.Returns false, w1) => (Exc.Returns false, mkState w1 (trace st ++ [EvExists d])%list)
  | (Exc.Raises (Exc.OSErr _), w1) =>
      (Exc.Returns false, mkState w1 (trace st ++ [EvExists d])%list)
  | (Exc.Raises x, w1) => (Exc.Raises x, mkState w1 (trace st ++ [EvExists d])%list)
  end.
Proof.
  unfold Exc.is_same_file, Exc.try_except_OSError, Exc.bind, Exc.path_exists,
    Exc.stat_size, Exc.call, Exc.ret.
  destruct (Exc.call_exists d (world st)) as [[[|]|[e1|m1]] w1]; simpl; try reflexivity.
  destruct (Exc.call_stat_size s w1) as [[a|[e2|m2]] w2]; simpl;
    rewrite <- ?app_assoc; try reflexivity.
  destruct (Exc.call_stat_size d w2) as [[b|[e3|m3]] w3]; simpl;
    by rewrite <- ?app_assoc.
Qed.

End ExcFacts.

(** On a file system of the first model, whose calls raise nothing but
    [OSError], the two models of [is_same_file] agree. *)
Lemma is_same_file_of_FileSystem {W : Type} `{FileSystem W} (s d : Path) (st : State W) :
  @Exc.is_same_file W Exc.of_FileSystem s d st = Exc.of_run (is_same_file s d st).
Proof.
  rewrite exc_is_same_file_eq, is_same_file_eq. unfold Exc.of_run. simpl.
  unfold Exc.of_call.
  destruct (fs_exists d (world st)) as [[[|]|e1] w1]; simpl; try reflexivity.
  destruct (fs_stat_size s w1) as [[a|e2] w2]; simpl; try reflexivity.
  by destruct (fs_stat_size d w2) as [[b|e3] w3].
Qed.



(** * Two runs of the tool *)

(** ** What a run makes of the file system *)

Section LaterFacts.
Import MapFS.

Lemma later_refl (fs : FS) : later fs fs.
Proof. split; [auto|]. split; [auto|]. intros q Hq Hn. by rewrite Hq in Hn. Qed.

Lemma later_trans (fs fs1 fs2 : FS) : later fs fs1 -> later fs1 fs2 -> later fs fs2.
Proof.
  intros (F1 & D1 & N1) (F2 & D2 & N2). split; [auto|]. split; [auto|].
  intros q Hq Hn. destruct (fs1 !! q) as [n|] eqn:E1.
  - destruct (N1 q Hq) as [Hne Hd]; [by rewrite E1|]. split; [done|].
    destruct (fs1 !! parent q) as [[data|r]|] eqn:Ep; try done.
    by rewrite (D2 _ _ Ep).
  - by apply N2.
Qed.

Lemma insert_dir_later (p : Path) (fs : FS) :
  fs !! p = None -> is_dir_node (fs !! parent p) = true ->
  later fs (<[p := Dir true]> fs).
Proof.
  intros Hp Hd.
  assert (Hne : parent p <> p) by (intros E; rewrite E, Hp in Hd; done).
  split; [|split].
  - intros q Hq. rewrite lookup_insert_ne; [done|]. intros <-. by rewrite Hp in Hq.
  - intros q r Hq. rewrite lookup_insert_ne; [done|]. intros <-. by rewrite Hp in Hq.
  - intros q Hq Hn. destruct (decide (p = q)) as [<-|Hpq].
    + split; [done|]. by rewrite lookup_insert_ne.
    + by rewrite lookup_insert_ne in Hn.
Qed.

Lemma insert_file_later (t : Path) (data : string) (fs : FS) :
  is_dir_node (fs !! t) = false -> is_dir_node (fs !! parent t) = true ->
  later fs (<[t := File data]> fs).
Proof.
  intros Ht Hd.
  assert (Hne : parent t <> t) by (intros E; rewrite E, Ht in Hd; done).
  split; [|split].
  - intros q Hq. destruct (decide (t = q)) as [<-|Htq].
    + by rewrite lookup_insert_eq.
    + by rewrite lookup_insert_ne.
  - intros q r Hq. rewrite lookup_insert_ne; [done|]. intros <-. by rewrite Hq in Ht.
  - intros q Hq Hn. destruct (decide (t = q)) as [<-|Htq].
    + split; [done|]. by rewrite lookup_insert_ne.
    + by rewrite lookup_insert_ne in Hn.
Qed.

Lemma os_mkdir_later (p : Path) (fs : FS) (r : result unit) (fs' : FS) :
  os_mkdir p fs = (r, fs') -> later fs fs'.
Proof.
  destruct (os_mkdir_cases p fs) as [(e & -> & _)|(-> & Hp & Hd)]; intros [= <- <-].
  - apply later_refl.
  - by apply insert_dir_later.
Qed.

Lemma mkdir_later (fuel : nat) (b : bool) (p : Path) (fs : FS) (r : result unit) (fs' : FS) :
  mkdir fuel b p fs = Some (r, fs') -> later fs fs'.
Proof.
  revert b p fs r fs'. induction fuel as [|f IH]; intros b p fs r fs'; simpl.
  - destruct (os_mkdir p fs) as [[u|e] fs1] eqn:E;
      pose proof (os_mkdir_later _ _ _ _ E) as Hl.
    + by intros [= <- <-].
    + destruct (errno e).
      1: destruct (negb b || bool_decide (parent p = p)); [|done].
      1: by intros [= <- <-].
      all: destruct (is_dir_node (fs1 !! p)); by intros [= <- <-].
  - destruct (os_mkdir p fs) as [[u|e] fs1] eqn:E;
      pose proof (os_mkdir_later _ _ _ _ E) as Hl.
    + by intros [= <- <-].
    + destruct (errno e).
      1: destruct (negb b || bool_decide (parent p = p)); [by intros [= <- <-]|].
      1: destruct (mkdir f true (parent p) fs1) as [[[u|e1] fs2]|] eqn:E1; [| |done].
      1: { intros E2. eapply later_trans; [exact Hl|].
           eapply later_trans; [eapply IH, E1 | eapply IH, E2]. }
      1: { intros [= <- <-]. eapply later_trans; [exact Hl | eapply IH, E1]. }
      all: destruct (is_dir_node (fs1 !! p)); by intros [= <- <-].
Qed.

Lemma mkdir_parents_later (p : Path) (fs : FS) (r : result unit) (fs' : FS) :
  mkdir_parents p fs = (r, fs') -> later fs fs'.
Proof.
  destruct (mkdir_parents_eq p fs) as (r0 & E & ->). intros ->.
  eapply mkdir_later, E.
Qed.

(** Whatever a plan does, the file system after it is later. *)
Lemma plan_step_later (q : CopyPlan) (fs : FS) (fut : Future) (fs' : FS) :
  plan_step q fs fut fs' -> later fs fs'.
Proof.
  intros Hstep.
  destruct Hstep as [e fs1 E|u fs1 E|u fs1 e E|u fs1 data E _ _ _ Ht Hp];
    pose proof (mkdir_parents_later _ _ _ _ E) as Hl; try exact Hl.
  eapply later_trans; [exact Hl|]. by apply insert_file_later.
Qed.

(** One step of the recursion of [mkdir], by what the path and its parent
    are. *)
Lemma mkdir_unfold (fuel : nat) (b : bool) (p : Path) (fs : FS) :
  mkdir fuel b p fs =
  match fs !! p with
  | Some (Dir _) => Some (Ok tt, fs)
  | Some (File _) => Some (Raise FileExistsError, fs)
  | None =>
      match fs !! parent p with
      | Some (Dir _) => Some (Ok tt, <[p := Dir true]> fs)
      | Some (File _) => Some (Raise NotADirectoryError, fs)
      | None =>
          if negb b || bool_decide (parent p = p) then Some (Raise FileNotFoundError, fs)
          else
            match fuel with
            | O => None
            | S f =>
                match mkdir f true (parent p) fs with
                | Some (Ok _, fs2) => mkdir f false p fs2
                | other => other
                end
            end
      end
  end.
Proof.
  destruct fuel; simpl; unfold os_mkdir;
    destruct (fs !! p) as [[data|r]|] eqn:Hp; simpl; rewrite ?Hp; simpl; try reflexivity;
    destruct (fs !! parent p) as [[dq|rq]|] eqn:Hq; simpl; rewrite ?Hp; simpl;
    try reflexivity.
Qed.

Lemma prefix_parent_self (p : Path) : p `prefix_of` parent p -> parent p = p.
Proof.
  intros H1. pose proof (parent_prefix p) as H2.
  apply prefix_length in H1, H2.
  destruct (decide (parent p = p)) as [E|Hne]; [done|].
  apply parent_shorter in Hne. lia.
Qed.

(** A directory step that fails keeps failing in every later file system,
    and changes nothing. *)
Lemma mkdir_raise_later (fuel : nat) (p : Path) (fs : FS) (e : OSError) (fs1 fs' : FS) :
  mkdir fuel true p fs = Some (Raise e, fs1) -> later fs fs' ->
  exists e', mkdir fuel true p fs' = Some (Raise e', fs').
Proof.
  revert p fs e fs1 fs'. induction fuel as [|f IH]; intros p fs e fs1 fs' Hm Hl;
    pose proof Hl as (HF & HD & HN);
    rewrite mkdir_unfold in Hm; rewrite mkdir_unfold.
  all: destruct (fs !! p) as [[data|r]|] eqn:Hp; [|done|].
  all: try (specialize (HF p); rewrite Hp in HF; specialize (HF eq_refl);
            destruct (fs' !! p) as [[data'|r']|]; try done; by eexists).
  all: assert (Hnew : fs' !! p <> None ->
                      parent p <> p /\ is_dir_node (fs' !! parent p) = true)
         by (by apply HN).
  all: destruct (fs !! parent p) as [[dq|rq]|] eqn:Hq; [|done|].
  all: try (specialize (HF (parent p)); rewrite Hq in HF; specialize (HF eq_refl);
            destruct (fs' !! p) as [n|] eqn:Hp';
              [destruct Hnew as [_ Hd]; [done|];
               destruct (fs' !! parent p) as [[?|?]|]; done|];
            destruct (fs' !! parent p) as [[dq'|rq']|]; try done; by eexists).
  all: simpl in Hm |- *; case_bool_decide as Hpar.
  all: try (destruct (fs' !! p) as [n|] eqn:Hp';
              [by destruct Hnew as [Hne _]|];
            rewrite Hpar, Hp'; by eexists).
  - done.
  - destruct (mkdir f true (parent p) fs) as [[[u|e1] fs2]|] eqn:E1; [| |done].
    + exfalso. rewrite mkdir_unfold in Hm.
      pose proof (mkdir_grows _ _ _ _ _ _ E1) as [_ B].
      pose proof (mkdir_success _ _ _ _ _ _ E1) as Hd.
      destruct (B p Hp) as [Hn|[_ Hpre]].
      * rewrite Hn in Hm. by destruct (fs2 !! parent p) as [[?|?]|].
      * by apply prefix_parent_self in Hpre.
    + destruct (IH _ _ _ _ _ E1 Hl) as (e' & E').
      assert (Hnotdir : is_dir_node (fs' !! parent p) = true -> False).
      { intros Hd. rewrite mkdir_unfold in E'.
        by destruct (fs' !! parent p) as [[?|?]|]. }
      destruct (fs' !! p) as [n|] eqn:Hp'.
      { exfalso. apply Hnotdir. by apply Hnew. }
      destruct (fs' !! parent p) as [[dq'|rq']|] eqn:Hq'.
      * by eexists.
      * exfalso. by apply Hnotdir.
      * rewrite E'. by eexists.
Qed.

Lemma stuck_raises (p : CopyPlan) (fs : FS) :
  stuck p fs -> exists e, mkdir_parents (parent (dest p)) fs = (Raise e, fs).
Proof.
  unfold stuck. intros Hs.
  destruct (mkdir_parents_eq (parent (dest p)) fs) as ([r fs1] & E & Er).
  rewrite Er in Hs. destruct r as [u|e]; [done|].
  destruct (mkdir_raise_later _ _ _ _ _ fs E (later_refl fs)) as (e' & E').
  rewrite E in E'. injection E' as <- ->. by exists e.
Qed.

Lemma stuck_later (p : CopyPlan) (fs fs' : FS) : stuck p fs -> later fs fs' -> stuck p fs'.
Proof.
  unfold stuck. intros Hs Hl.
  destruct (mkdir_parents_eq (parent (dest p)) fs) as ([r fs1] & E & Er).
  rewrite Er in Hs. destruct r as [u|e]; [done|].
  destruct (mkdir_raise_later _ _ _ _ _ fs' E Hl) as (e' & E').
  unfold mkdir_parents. by rewrite E'.
Qed.

End LaterFacts.

(** ** Plans that have nothing to do *)

Section QuietFacts.
Import MapFS.

Lemma later_dir (x : Path) (fs fs' : FS) :
  later fs fs' -> is_dir_node (fs !! x) = true -> is_dir_node (fs' !! x) = true.
Proof.
  intros (_ & D & _) Hx. destruct (fs !! x) as [[data|r]|] eqn:E; try done.
  by rewrite (D _ _ E).
Qed.

(** A settled plan is skipped, and the file system stays as it is. *)
Lemma settled_step_self (p : CopyPlan) (fs : FS) (fut : Future) (fs' : FS) :
  settled p fs -> plan_step p fs fut fs' ->
  fut = Ok (p, "skip (same size)") /\ fs' = fs.
Proof.
  intros [Hs Hd] Hstep. pose proof (mkdir_parents_existing _ _ Hd) as Hm.
  destruct Hstep as [e fs1 E|u fs1 E|u fs1 e E Hn|u fs1 data E Hn];
    rewrite Hm in E; try discriminate; injection E as <- <-; try done; congruence.
Qed.

Lemma settled_quiet (p : CopyPlan) (fs : FS) : settled p fs -> quiet p fs.
Proof.
  intros Hs fut fs' Hstep.
  by destruct (settled_step_self p fs fut fs' Hs Hstep) as [-> ->].
Qed.

Lemma failed_quiet (p : CopyPlan) (fs : FS) : failed p fs -> quiet p fs.
Proof.
  intros [Hdead Hd] fut fs' Hstep. pose proof (mkdir_parents_existing _ _ Hd) as Hm.
  unfold dead in Hdead.
  destruct Hstep as [e fs1 E|u fs1 E|u fs1 e E Hn Hc|u fs1 data E Hn Hsrc];
    rewrite Hm in E; try discriminate; injection E as <- <-.
  - done.
  - split; reflexivity.
  - by rewrite Hsrc in Hdead.
Qed.

Lemma stuck_quiet (p : CopyPlan) (fs : FS) : stuck p fs -> quiet p fs.
Proof.
  intros Hs fut fs' Hstep. destruct (stuck_raises p fs Hs) as (e0 & Hm).
  destruct Hstep as [e fs1 E|u fs1 E|u fs1 e E Hn Hc|u fs1 data E Hn Hsrc];
    rewrite Hm in E; try discriminate. by injection E as <- <-.
Qed.

Lemma submit_all_cons (q : CopyPlan) (rest : list CopyPlan) (st : State FS) :
  futures_of (submit_all (q :: rest) false st)
  = fst (copy_one q false st)
    :: futures_of (submit_all rest false (snd (copy_one q false st)))
  /\ snd (submit_all (q :: rest) false st)
     = snd (submit_all rest false (snd (copy_one q false st))).
Proof.
  unfold futures_of. simpl.
  destruct (copy_one q false st) as [fut st1]. simpl.
  destruct (submit_all_total rest false st1) as (futs & st2 & E & _).
  unfold bind. by rewrite E.
Qed.

(** A run over plans that have nothing to do changes nothing, and every
    plan does in it what it does alone. *)
Lemma quiet_run (l : list CopyPlan) (fs : FS) (tr : list event) :
  (forall p, In p l -> quiet p fs) ->
  world (snd (submit_all l false (mkState fs tr))) = fs
  /\ Forall2 (fun p fut => plan_step p fs fut fs) l
       (futures_of (submit_all l false (mkState fs tr))).
Proof.
  revert tr. induction l as [|p rest IH]; intros tr Hq.
  - split; [done | constructor].
  - destruct (submit_all_cons p rest (mkState fs tr)) as [-> ->].
    pose proof (copy_one_step p fs tr) as Hstep.
    destruct (copy_one p false (mkState fs tr)) as [fut [fs1 tr1]]. simpl in Hstep |- *.
    destruct (Hq p (or_introl eq_refl) fut fs1 Hstep) as [-> Hc].
    destruct (IH tr1) as [Hw Hall]; [by intros; apply Hq; right|].
    split; [done|]. by constructor.
Qed.

Lemma Forall2_in_left {X Y : Type} (R : X -> Y -> Prop) (l : list X) (k : list Y) (x : X) :
  Forall2 R l k -> In x l -> exists y, In y k /\ R x y.
Proof.
  induction 1 as [|a b l' k' Hab _ IH]; intros Hin; [done|].
  destruct Hin as [->|Hin]; [exists b; split; [by left|done]|].
  destruct (IH Hin) as (y & Hy & Hr). exists y. split; [by right|done].
Qed.

Lemma Forall2_in_right {X Y : Type} (R : X -> Y -> Prop) (l : list X) (k : list Y) (y : Y) :
  Forall2 R l k -> In y k -> exists x, In x l /\ R x y.
Proof.
  induction 1 as [|a b l' k' Hab _ IH]; intros Hin; [done|].
  destruct Hin as [->|Hin]; [exists a; split; [by left|done]|].
  destruct (IH Hin) as (x & Hx & Hr). exists x. split; [by right|done].
Qed.

End QuietFacts.

(** ** The first run *)

Section TwoRuns.
Import MapFS.

Variable plans : list CopyPlan.
Hypothesis dest_inj : forall p q, In p plans -> In q plans -> dest p = dest q -> p = q.
Hypothesis dest_not_src : forall p q, In p plans -> In q plans -> dest p = src q -> p = q.
Hypothesis dest_not_on_way :
  forall p q, In p plans -> In q plans -> ~ dest p `prefix_of` parent (dest q).

Lemma no_dest_dir_grows (q : CopyPlan) (fs fs1 : FS) :
  In q plans -> no_dest_dir plans fs -> grows (parent (dest q)) fs fs1 ->
  no_dest_dir plans fs1.
Proof.
  intros Hq Hinv [A B] p Hp. specialize (Hinv p Hp).
  destruct (fs !! dest p) as [n|] eqn:E.
  - by rewrite (A _ _ E).
  - destruct (B _ E) as [->|[_ Hpre]]; [done|].
    by destruct (dest_not_on_way p q Hp Hq).
Qed.

Lemma copy_target_dest (q : CopyPlan) (fs : FS) :
  In q plans -> no_dest_dir plans fs -> copy_target fs (src q) (dest q) = dest q.
Proof. intros Hq Hinv. unfold copy_target. by rewrite (Hinv q Hq). Qed.

(** No destination becomes a directory. *)
Lemma no_dest_dir_step (q : CopyPlan) (fs : FS) (fut : Future) (fs' : FS) :
  In q plans -> no_dest_dir plans fs -> plan_step q fs fut fs' -> no_dest_dir plans fs'.
Proof.
  intros Hq Hinv Hstep.
  destruct Hstep as [e fs1 E|u fs1 E|u fs1 e E|u fs1 data E _ _ _ _ _];
    pose proof (no_dest_dir_grows q fs fs1 Hq Hinv (mkdir_parents_grows _ _ _ _ E))
      as Hinv1; try exact Hinv1.
  intros p Hp. rewrite (copy_target_dest q fs1 Hq Hinv1).
  destruct (decide (dest q = dest p)) as [->|Hne].
  - by rewrite lookup_insert_eq.
  - rewrite lookup_insert_ne by done. by apply Hinv1.
Qed.

(** A regular file after a plan was one before it, or is the destination
    of the plan. *)
Lemma made_step (q : CopyPlan) (fs : FS) (fut : Future) (fs' : FS) (x : Path) :
  In q plans -> no_dest_dir plans fs -> plan_step q fs fut fs' ->
  is_file_node (fs' !! x) = true -> is_file_node (fs !! x) = true \/ x = dest q.
Proof.
  intros Hq Hinv Hstep Hx.
  destruct (is_file_node (fs !! x)) eqn:Hfx; [by left|]. right.
  destruct Hstep as [e fs1 E|u fs1 E|u fs1 e E|u fs1 data E _ _ _ _ _];
    pose proof (mkdir_parents_grows _ _ _ _ E) as Hg;
    pose proof (grows_not_file _ x _ _ Hg Hfx) as Hf1; try congruence.
  pose proof (no_dest_dir_grows q fs fs1 Hq Hinv Hg) as Hinv1.
  rewrite (copy_target_dest q fs1 Hq Hinv1) in Hx.
  destruct (decide (dest q = x)) as [E'|Hne]; [done|].
  rewrite lookup_insert_ne in Hx by done. congruence.
Qed.

(** A settled plan stays settled through the plans of the list. *)
Lemma settled_step (p q : CopyPlan) (fs : FS) (fut : Future) (fs' : FS) :
  In p plans -> In q plans -> no_dest_dir plans fs ->
  settled p fs -> plan_step q fs fut fs' -> settled p fs'.
Proof.
  intros Hp Hq Hinv Hset Hstep.
  destruct (decide (dest q = dest p)) as [Heq|Hne].
  { apply (dest_inj q p Hq Hp) in Heq as ->.
    by destruct (settled_step_self p fs fut fs' Hset Hstep) as [_ ->]. }
  destruct Hset as [Hs Hd].
  assert (Hgrow : forall fs1, grows (parent (dest q)) fs fs1 -> settled p fs1).
  { intros fs1 Hg. split; [by eapply grows_skip_rule | by eapply grows_dir]. }
  destruct Hstep as [e fs1 E|u fs1 E|u fs1 e E|u fs1 data E _ _ _ _ _];
    pose proof (mkdir_parents_grows _ _ _ _ E) as Hg; try (by apply Hgrow).
  pose proof (no_dest_dir_grows q fs fs1 Hq Hinv Hg) as Hinv1.
  rewrite (copy_target_dest q fs1 Hq Hinv1).
  destruct (Hgrow fs1 Hg) as [Hs1 Hd1]. split.
  - apply skip_rule_true in Hs1 as (ns & nd & Hsrc & Hdst & Hsz).
    apply skip_rule_true. exists ns, nd.
    rewrite !lookup_insert_ne; [done|done|].
    intros E'. apply Hne. by rewrite (dest_not_src q p Hq Hp E').
  - rewrite lookup_insert_ne; [done|].
    intros E'. apply (dest_not_on_way q p Hq Hp). by rewrite E'.
Qed.

(** A source that is no regular file does not become one. *)
Lemma dead_step (p q : CopyPlan) (fs : FS) (fut : Future) (fs' : FS) :
  In p plans -> In q plans -> no_dest_dir plans fs ->
  dead p fs -> plan_step q fs fut fs' -> dead p fs'.
Proof.
  intros Hp Hq Hinv Hdead Hstep. unfold dead in *.
  destruct Hstep as [e fs1 E|u fs1 E|u fs1 e E|u fs1 data E _ Hsrc _ _ _];
    pose proof (mkdir_parents_grows _ _ _ _ E) as Hg;
    pose proof (grows_not_file _ (src p) _ _ Hg Hdead) as Hd1; try exact Hd1.
  pose proof (no_dest_dir_grows q fs fs1 Hq Hinv Hg) as Hinv1.
  rewrite (copy_target_dest q fs1 Hq Hinv1).
  rewrite lookup_insert_ne; [done|].
  intros E'. apply (dest_not_src q p Hq Hp) in E'. subst q.
  by rewrite Hsrc in Hd1.
Qed.

Lemma failed_step (p q : CopyPlan) (fs : FS) (fut : Future) (fs' : FS) :
  In p plans -> In q plans -> no_dest_dir plans fs ->
  failed p fs -> plan_step q fs fut fs' -> failed p fs'.
Proof.
  intros Hp Hq Hinv [Hdead Hd] Hstep. split.
  - exact (dead_step p q fs fut fs' Hp Hq Hinv Hdead Hstep).
  - exact (later_dir _ _ _ (plan_step_later q fs fut fs' Hstep) Hd).
Qed.

Lemma stuck_step (p q : CopyPlan) (fs : FS) (fut : Future) (fs' : FS) :
  stuck p fs -> plan_step q fs fut fs' -> stuck p fs'.
Proof. intros Hs Hstep. exact (stuck_later p fs fs' Hs (plan_step_later _ _ _ _ Hstep)). Qed.

(** After a plan it is settled when it returned, failed when the copy
    raised, and stuck when the directory step raised. *)
Lemma after_step (p : CopyPlan) (fs : FS) (fut : Future) (fs' : FS) :
  In p plans -> no_dest_dir plans fs -> plan_step p fs fut fs' -> after p fut fs'.
Proof.
  intros Hp Hinv Hstep.
  destruct Hstep as [e fs1 E|u fs1 E Hs|u fs1 e E Hs Hc|u fs1 data E Hs Hsrc Hne Ht Hpar];
    simpl.
  { apply (stuck_later p fs fs1); [|by eapply mkdir_parents_later].
    unfold stuck. by rewrite E. }
  all: pose proof (mkdir_parents_grows _ _ _ _ E) as Hg;
    pose proof (no_dest_dir_grows p fs fs1 Hp Hinv Hg) as Hinv1;
    pose proof (mkdir_parents_success _ _ _ _ E) as Hdir.
  - by split.
  - split; [done|]. split; [|done].
    unfold dead. destruct (fs1 !! src p) as [[data|r]|] eqn:Esrc; try done.
    exfalso. destruct (decide (src p = dest p)) as [Eq|Hsd].
    + unfold skip_rule in Hs. rewrite <- Eq, Esrc in Hs. by rewrite Nat.eqb_refl in Hs.
    + unfold copy2 in Hc. rewrite (Hinv1 p Hp) in Hc. unfold copyfile in Hc.
      rewrite bool_decide_eq_false_2 in Hc by done.
      rewrite Esrc in Hc. pose proof (Hinv1 p Hp) as Hnd.
      destruct (fs1 !! dest p) as [[dd|rd]|]; try done;
        destruct (fs1 !! parent (dest p)) as [[dp|rp]|]; done.
  - rewrite (copy_target_dest p fs1 Hp Hinv1) in *. split; [done|]. split.
    + apply skip_rule_true. exists (File data), (File data).
      rewrite lookup_insert_eq, lookup_insert_ne by done. done.
    + rewrite lookup_insert_ne; [done|]. intros E'. rewrite <- E' in Hpar. congruence.
Qed.

Lemma after_kept (p : CopyPlan) (fut : Future) (fs fs' : FS) :
  (settled p fs -> settled p fs') -> (failed p fs -> failed p fs') ->
  (stuck p fs -> stuck p fs') ->
  after p fut fs -> after p fut fs'.
Proof.
  intros Hs Hd Hk. destruct fut as [[pl s]|e]; [|exact Hk]. unfold after.
  intros [-> Ha]. split; [done|]. destruct (startswith s "ERROR: "); auto.
Qed.

(** The first run: no destination becomes a directory, the file system
    at the end is later, its regular files were there before or are
    destinations, and every plan is settled, failed or stuck at the end,
    as its future says. *)
Lemma first_run (l : list CopyPlan) (fs : FS) (tr : list event) :
  (forall q, In q l -> In q plans) -> no_dest_dir plans fs ->
  let r := submit_all l false (mkState fs tr) in
  no_dest_dir plans (world (snd r))
  /\ later fs (world (snd r))
  /\ (forall x, is_file_node (world (snd r) !! x) = true ->
        is_file_node (fs !! x) = true \/ exists q, In q plans /\ x = dest q)
  /\ (forall p, In p plans -> settled p fs -> settled p (world (snd r)))
  /\ (forall p, In p plans -> failed p fs -> failed p (world (snd r)))
  /\ Forall2 (fun p fut => after p fut (world (snd r))) l (futures_of r).
Proof.
  revert fs tr. induction l as [|q rest IH]; intros fs tr Hsub Hinv.
  - simpl. split; [done|]. split; [apply later_refl|]. split; [auto|].
    split; [done|]. split; [done|]. constructor.
  - intros r. subst r.
    destruct (submit_all_cons q rest (mkState fs tr)) as [-> ->].
    pose proof (copy_one_step q fs tr) as Hstep.
    assert (Hq : In q plans) by (apply Hsub; by left).
    destruct (copy_one q false (mkState fs tr)) as [fut [fs1 tr1]]. simpl in *.
    pose proof (no_dest_dir_step q fs fut fs1 Hq Hinv Hstep) as Hinv1.
    destruct (IH fs1 tr1) as (I1 & I2 & I3 & I4 & I5 & I6);
      [by intros; apply Hsub; right|done|].
    split; [exact I1|]. split.
    { eapply later_trans; [exact (plan_step_later _ _ _ _ Hstep) | exact I2]. }
    split.
    { intros x Hx. destruct (I3 x Hx) as [Hf|Hd]; [|by right].
      destruct (made_step q fs fut fs1 x Hq Hinv Hstep Hf) as [?| ->]; [by left|].
      right. by exists q. }
    split.
    { intros p Hp Hs. apply I4; [done|].
      exact (settled_step p q fs fut fs1 Hp Hq Hinv Hs Hstep). }
    split.
    { intros p Hp Hd. apply I5; [done|].
      exact (failed_step p q fs fut fs1 Hp Hq Hinv Hd Hstep). }
    constructor; [|exact I6].
    eapply after_kept; [apply I4, Hq|apply I5, Hq| |].
    + intros Hk. exact (stuck_later q fs1 _ Hk I2).
    + exact (after_step q fs fut fs1 Hq Hinv Hstep).
Qed.

(** At the end of the first run every plan has nothing to do. *)
Lemma first_run_quiet (fs : FS) (tr : list event) :
  no_dest_dir plans fs ->
  forall p, In p plans -> quiet p (world (snd (submit_all plans false (mkState fs tr)))).
Proof.
  intros Hinv p Hp.
  destruct (first_run plans fs tr) as (_ & _ & _ & _ & _ & I6); [done|done|].
  destruct (Forall2_in_left _ _ _ p I6 Hp) as (fut & _ & Ha).
  destruct fut as [[pl s]|e]; simpl in Ha.
  - destruct Ha as [_ Ha]. destruct (startswith s "ERROR: ");
      [by apply failed_quiet | by apply settled_quiet].
  - by apply stuck_quiet.
Qed.

End TwoRuns.

Section Independent.
Import MapFS.

Lemma NoDup_map_inj {A B} (f : A -> B) (l : list A) :
  NoDup (map f l) -> forall x y, In x l -> In y l -> f x = f y -> x = y.
Proof.
  induction l as [|a l IH]; simpl; [done|].
  intros Hnd x y Hx Hy Hf. apply NoDup_cons in Hnd as [Ha Hnd].
  destruct Hx as [->|Hx], Hy as [->|Hy]; try done.
  - destruct Ha. rewrite Hf. apply list_elem_of_In, in_map, Hy.
  - destruct Ha. rewrite <- Hf. apply list_elem_of_In, in_map, Hx.
  - by apply IH.
Qed.

Lemma independent_elim (plans : list CopyPlan) (fs : FS) :
  independent plans fs = true ->
  (forall p q, In p plans -> In q plans -> dest p = dest q -> p = q)
  /\ (forall p q, In p plans -> In q plans -> dest p = src q -> p = q)
  /\ (forall p q, In p plans -> In q plans -> ~ dest p `prefix_of` parent (dest q))
  /\ no_dest_dir plans fs.
Proof.
  unfold independent. intros H.
  apply andb_true_iff in H as [H H3]. apply andb_true_iff in H as [H1 H2].
  apply bool_decide_eq_true in H1.
  rewrite forallb_forall in H2. rewrite forallb_forall in H3.
  pose proof (NoDup_map_inj dest plans H1) as Hinj.
  split; [exact Hinj|].
  assert (Hpq : forall p q, In p plans -> In q plans ->
                  (dest p = src q -> src q = dest q)
                  /\ ~ dest p `prefix_of` parent (dest q)).
  { intros p q Hp Hq. specialize (H2 p Hp). rewrite forallb_forall in H2.
    specialize (H2 q Hq). apply andb_true_iff in H2 as [A B].
    apply negb_true_iff in B. apply bool_decide_eq_false in B. split; [|done].
    intros E. apply orb_true_iff in A as [A|A].
    - apply negb_true_iff in A. by apply bool_decide_eq_false in A.
    - by apply bool_decide_eq_true in A. }
  split.
  { intros p q Hp Hq E. destruct (Hpq p q Hp Hq) as [Hs _].
    apply (Hinj p q Hp Hq). by rewrite E, (Hs E). }
  split; [by intros p q Hp Hq; apply Hpq|].
  intros p Hp. specialize (H3 p Hp). by apply negb_true_iff in H3.
Qed.

End Independent.

(** ** The tool, run twice *)

Section PoolFacts.
Context {W : Type} `{FileSystem W}.

(** [main] is [main_pool] followed by the summary. *)
Lemma main_through_pool (cwd : Path) (args : Args) (st : State W) :
  main cwd args st = bind (main_pool cwd args) summary st.
Proof.
  unfold main, main_pool, summary, bind.
  destruct (source_invalid (args_src args) st) as [[[|]|e] st1]; try reflexivity.
  destruct (discover_files (args_src args) st1) as [[[images models]|e] st2];
    [|reflexivity].
  destruct (build_copy_plans _ _ _ _) as [|pl rest]; [reflexivity|].
  by destruct (submit_all (pl :: rest) (args_dry_run args) st2) as [[futs|e] st3].
Qed.

Lemma future_of_dry_not_copied (plans : list CopyPlan) (futures : list Future) :
  Forall2 (future_of true) plans futures ->
  forallb (fun f => negb (is_copied f)) futures = true.
Proof.
  induction 1 as [|p fut ps futs Hf _ IH]; [done|]. simpl. rewrite IH, andb_true_r.
  destruct fut as [[pl s]|e]; [|done]. by destruct Hf as [_ [-> | ->]].
Qed.

(** A dry run has no outcome "copied". *)
Lemma main_pool_dry_not_copied (cwd : Path) (args : Args) (st : State W) :
  args_dry_run args = true ->
  forallb (fun f => negb (is_copied f)) (futures_in (main_pool cwd args st)) = true.
Proof.
  intros Hdry. unfold main_pool, futures_in, bind. rewrite Hdry.
  destruct (source_invalid (args_src args) st) as [[[|]|e] st1]; try reflexivity.
  destruct (discover_files (args_src args) st1) as [[[images models]|e] st2];
    [|reflexivity].
  destruct (submit_all_futures (build_copy_plans images models
              (resolve (resolve cwd (args_project_root args)) (args_images_dir args))
              (resolve (resolve cwd (args_project_root args)) (args_models_dir args)))
              true st2) as (futs & st3 & E & Hall).
  rewrite E. simpl. by eapply future_of_dry_not_copied.
Qed.

(** The summary changes nothing: [main] ends in the state the pool left. *)
Lemma main_state (cwd : Path) (args : Args) (st : State W) :
  snd (main cwd args st) = snd (main_pool cwd args st).
Proof.
  rewrite main_through_pool. unfold bind.
  destruct (main_pool cwd args st) as [[[[plans futs]|]|e] st1]; try reflexivity.
  unfold summary. by destruct (tally_loop futs (mkTally 0 0 0)).
Qed.

End PoolFacts.

Section ToolRuns.

Variables (cwd : Path) (args : Args).

Local Abbreviation src_dir := (args_src args).
Local Abbreviation images_dest :=
  (resolve (resolve cwd (args_project_root args)) (args_images_dir args)).
Local Abbreviation models_dest :=
  (resolve (resolve cwd (args_project_root args)) (args_models_dir args)).

Lemma in_listed_plans (fs : gmap Path node) (q : CopyPlan) :
  In q (listed_plans cwd args fs) <->
  exists k s,
    q = plan_for images_dest models_dest k s
    /\ In s (MapFS.children src_dir fs)
    /\ listed_as fs k s = true.
Proof.
  unfold listed_plans. rewrite build_copy_plans_map, in_app_iff, !in_map_iff.
  split.
  - intros [(s & <- & Hs)|(s & <- & Hs)]; apply filter_In in Hs as [Hc Ht].
    + by exists image, s.
    + by exists model, s.
  - intros ([|] & s & -> & Hc & Ht); [left|right]; exists s;
      (split; [done|]); by apply filter_In.
Qed.

(** The first two steps of [main] on the finite-map file system. *)
Lemma source_invalid_mapfs (d : Path) (fs : gmap Path node) (tr : list event) :
  exists tr',
    source_invalid d (mkState fs tr)
    = (Ok (negb (MapFS.is_dir_node (fs !! d))), mkState fs tr').
Proof.
  rewrite source_invalid_eq. cbn [fs_exists fs_is_dir MapFS_FileSystem world trace].
  unfold MapFS.exists_, MapFS.is_dir.
  destruct (fs !! d) as [[data|r]|]; simpl; by eexists.
Qed.

Lemma discover_files_mapfs (d : Path) (fs : gmap Path node) (tr : list event) :
  exists tr',
    (fs !! d = Some (Dir true) ->
     discover_files d (mkState fs tr)
     = (Ok (List.filter (is_image_file fs) (MapFS.children d fs),
            List.filter (is_model_file fs) (MapFS.children d fs)),
        mkState fs tr'))
    /\ (fs !! d <> Some (Dir true) ->
        exists e, discover_files d (mkState fs tr) = (Raise e, mkState fs tr')).
Proof.
  unfold discover_files, bind, iterdir. rewrite call_eq.
  cbn [fs_iterdir MapFS_FileSystem world trace fst snd]. unfold MapFS.iterdir.
  destruct (fs !! d) as [[data|[|]]|]; cbn [fst snd].
  2: { rewrite discover_loop_mapfs. eexists. split; [by intros _|done]. }
  all: eexists; split; [done|]; intros _; by eexists.
Qed.

(** [main_pool] on the finite-map file system: with a source directory
    that can be listed, the pool runs the plans of the listing; otherwise
    there is no plan and nothing changes. *)
Lemma main_pool_mapfs (fs : gmap Path node) (tr : list event) :
  let r := main_pool cwd args (mkState fs tr) in
  match fs !! src_dir with
  | Some (Dir true) =>
      exists tr',
        plans_in r = listed_plans cwd args fs
        /\ futures_in r
           = futures_of (submit_all (listed_plans cwd args fs) (args_dry_run args)
                           (mkState fs tr'))
        /\ world (snd r)
           = world (snd (submit_all (listed_plans cwd args fs) (args_dry_run args)
                           (mkState fs tr')))
  | _ => plans_in r = [] /\ futures_in r = [] /\ world (snd r) = fs
  end.
Proof.
  intros r. subst r. unfold main_pool, plans_in, futures_in, bind.
  destruct (source_invalid_mapfs src_dir fs tr) as (tr1 & ->).
  destruct (discover_files_mapfs src_dir fs tr1) as (tr2 & Hyes & Hno).
  destruct (fs !! src_dir) as [[data|[|]]|] eqn:Hs; cbn [negb MapFS.is_dir_node];
    try done.
  - rewrite (Hyes eq_refl). fold (listed_plans cwd args fs).
    destruct (submit_all_total (listed_plans cwd args fs) (args_dry_run args)
                (mkState fs tr2)) as (futs & st' & E & _).
    exists tr2. unfold futures_of. by rewrite E.
  - destruct Hno as (e & ->); done.
Qed.

Variables (fs fs1 : gmap Path node).
Hypothesis fs1_later : later fs fs1.

(** What was listed is listed again. *)
Lemma listed_kept (q : CopyPlan) :
  In q (listed_plans cwd args fs) -> In q (listed_plans cwd args fs1).
Proof.
  rewrite !in_listed_plans. intros (k & s & -> & Hc & Ht). exists k, s.
  split; [done|]. destruct fs1_later as (F & _ & _).
  assert (Hf : MapFS.is_file_node (fs !! s) = true).
  { destruct k; simpl in Ht; unfold is_image_file, is_model_file in Ht;
      by apply andb_true_iff in Ht as [? _]. }
  pose proof (F s Hf) as Hf1. split.
  - apply children_spec in Hc as (_ & Hp & Hne). apply children_spec.
    split; [|done]. by destruct (fs1 !! s).
  - destruct k; simpl in *; unfold is_image_file, is_model_file in *;
      apply andb_true_iff in Ht as [_ Hm]; by rewrite Hf1, Hm.
Qed.

Hypothesis fs1_made :
  forall x, MapFS.is_file_node (fs1 !! x) = true ->
    MapFS.is_file_node (fs !! x) = true
    \/ exists p, In p (listed_plans cwd args fs) /\ x = dest p.
Hypothesis names :
  forall p, In p (listed_plans cwd args fs) -> single_part (name (src p)) = true.
Hypothesis src_dir_kept : MapFS.is_dir_node (fs1 !! src_dir) = true.

Lemma listed_as_ext (g : gmap Path node) (k : Kind) (s : Path) :
  listed_as g k s = true ->
  MapFS.is_file_node (g !! s) = true
  /\ mem (lower (suffix s)) (match k with image => IMAGE_EXTS | model => MODEL_EXTS end)
     = true.
Proof.
  destruct k; simpl; unfold is_image_file, is_model_file; intros Ht;
    by apply andb_true_iff in Ht.
Qed.

(** What is listed after the run was listed before it, or is a file the
    run made in the source directory, which is its own destination. *)
Lemma listed_new (q : CopyPlan) :
  In q (listed_plans cwd args fs1) ->
  In q (listed_plans cwd args fs) \/ settled q fs1.
Proof.
  intros Hq. apply in_listed_plans in Hq as (k & s & -> & Hc & Ht).
  destruct (listed_as_ext _ _ _ Ht) as [Hf1 Hext].
  apply children_spec in Hc as (_ & Hpar & Hne).
  destruct (fs1_made s Hf1) as [Hf|(p & Hp & Es)].
  - left. apply in_listed_plans. exists k, s. split; [done|]. split.
    + apply children_spec. split; [|done]. by destruct (fs !! s).
    + destruct k; simpl in *; unfold is_image_file, is_model_file in *;
        apply andb_true_iff in Ht as [_ Hm]; by rewrite Hf, Hm.
  - right. pose proof (names p Hp) as Hname.
    apply in_listed_plans in Hp as (kp & sp & -> & _ & Htp).
    destruct (listed_as_ext _ _ _ Htp) as [_ Hextp].
    destruct (plan_for_under_root images_dest models_dest kp sp Hname)
      as (Hdest & Hparent & Hnm).
    assert (Hsuf : lower (suffix s) = lower (suffix sp)).
    { unfold suffix at 1. rewrite Es, Hnm, normalize_basename_unfold.
      by rewrite spec_normalize_suffix, lower_idem. }
    assert (Hk : k = kp).
    { rewrite Hsuf in Hext. destruct k, kp; try done.
      - by rewrite (image_not_model _ Hext) in Hextp.
      - by rewrite (image_not_model _ Hextp) in Hext. }
    subst kp.
    assert (Hnorm : normalize_basename s = normalize_basename sp).
    { rewrite (normalize_basename_unfold s), Es, Hnm.
      rewrite (normalize_basename_unfold sp). apply spec_normalize_idem. }
    assert (Hself : dest (plan_for images_dest models_dest k s) = s).
    { rewrite Es at 2. simpl. by rewrite Hnorm. }
    split.
    + rewrite Hself. simpl. apply skip_rule_true.
      destruct (fs1 !! s) as [[data|r]|] eqn:E1; try done.
      by exists (File data), (File data).
    + rewrite Hself, Hpar. exact src_dir_kept.
Qed.

End ToolRuns.

(** C6, as the code has it: the tool is run twice with the same
    arguments, the second time on the file system the first run left.
    When the plans of the first run do not interfere (their destinations
    are pairwise distinct, none is the source of another plan, none is a
    directory or on the way to the directory of a destination) and their
    sources have the names of directory entries, then every plan that
    reported "copied" in the first run satisfies the skip rule afterwards
    and reports "skip" in the second run, and no outcome of the second run
    is "copied". Plans that raised or reported an error in the first run,
    a dry run, and files the first run made in the source directory are
    covered. *)
Theorem second_run_copies_nothing (cwd : Path) (args : Args) (fs : gmap Path node) :
  let r1 := run (main_pool cwd args) fs in
  let fs1 := world (snd (run (main cwd args) fs)) in
  let r2 := run (main_pool cwd args) fs1 in
  independent (plans_in r1) fs = true ->
  forallb (fun p => single_part (name (src p))) (plans_in r1) = true ->
  (forall p, In (Ok (p, "copied")) (futures_in r1) ->
     MapFS.skip_rule fs1 (src p) (dest p) = true
     /\ In (Ok (p, "skip (same size)")) (futures_in r2))
  /\ forallb (fun f => negb (is_copied f)) (futures_in r2) = true.
Proof.
  intros r1 fs1 r2 Hind Hnames.
  assert (Hfs1 : fs1 = world (snd r1)).
  { subst fs1 r1. unfold run. by rewrite main_state. }
  clearbody fs1. subst fs1.
  destruct (args_dry_run args) eqn:Hdry.
  { split.
    - intros p Hp. exfalso.
      pose proof (main_pool_dry_not_copied cwd args (mkState fs []) Hdry) as Hn.
      rewrite forallb_forall in Hn. by specialize (Hn _ Hp).
    - apply main_pool_dry_not_copied, Hdry. }
  subst r1 r2. unfold run in *.
  pose proof (main_pool_mapfs cwd args fs []) as H1. cbv zeta in H1.
  destruct (fs !! args_src args) as [[data|[|]]|] eqn:Hs.
  2: {
    destruct H1 as (tr1 & HP1 & HF1 & HW1). rewrite Hdry in HF1, HW1.
    rewrite HP1 in Hind, Hnames. rewrite HF1, HW1.
    set (P1 := listed_plans cwd args fs) in *.
    set (fs1 := world (snd (submit_all P1 false (mkState fs tr1)))) in *.
    destruct (independent_elim P1 fs Hind) as (Hinj & Hsrc & Hway & Hinv).
    destruct (first_run P1 Hinj Hsrc Hway P1 fs tr1) as (I1 & I2 & I3 & _ & _ & I6);
      [done|done|]. fold fs1 in I1, I2, I3, I6.
    assert (Hs1 : fs1 !! args_src args = Some (Dir true)).
    { destruct I2 as (_ & D & _). by apply D. }
    pose proof (main_pool_mapfs cwd args fs1 []) as H2. cbv zeta in H2.
    rewrite Hs1 in H2. destruct H2 as (tr2 & HP2 & HF2 & HW2).
    rewrite Hdry in HF2, HW2. rewrite HF2.
    set (P2 := listed_plans cwd args fs1) in *.
    assert (Hquiet : forall q, In q P2 -> quiet q fs1).
    { intros q Hq.
      destruct (listed_new cwd args fs fs1) with (q := q) as [Hold|Hset]; try done.
      - intros p Hp. rewrite forallb_forall in Hnames. by apply Hnames.
      - by rewrite Hs1.
      - exact (first_run_quiet P1 Hinj Hsrc Hway fs tr1 Hinv q Hold).
      - by apply settled_quiet. }
    destruct (quiet_run P2 fs1 tr2 Hquiet) as [_ Hall].
    split.
    - intros p Hp.
      destruct (Forall2_in_right _ _ _ _ I6 Hp) as (p' & Hp' & Ha).
      simpl in Ha. destruct Ha as [<- Ha].
      change (startswith "copied" "ERROR: ") with false in Ha. cbv iota in Ha.
      split; [by destruct Ha|].
      pose proof (listed_kept cwd args fs fs1 I2 p Hp') as Hp2.
      destruct (Forall2_in_left _ _ _ p Hall Hp2) as (fut & Hfut & Hstep).
      by destruct (settled_step_self p fs1 fut fs1 Ha Hstep) as [<- _].
    - apply forallb_forall. intros fut Hfut.
      destruct (Forall2_in_right _ _ _ _ Hall Hfut) as (q & Hq & Hstep).
      destruct (Hquiet q Hq fut fs1 Hstep) as [_ ->]. done. }
  all: destruct H1 as (HP1 & HF1 & HW1); rewrite HF1, HW1;
    pose proof (main_pool_mapfs cwd args fs []) as H2; cbv zeta in H2;
    rewrite Hs in H2; destruct H2 as (_ & -> & _); split; done.
Qed.

Lemma second_run_copies_nothing_witness :
  map (fun f => match f with Ok (_, s) => s | Raise e => strerror e end)
      (futures_in (run (main_pool ["/"] (Samples.deck_args false)) Samples.deck_fs))
  = ["copied"; "copied"; "copied"]
  /\ forallb (fun f => negb (is_copied f))
       (futures_in
          (run (main_pool ["/"] (Samples.deck_args false))
               (world (snd (run (main ["/"] (Samples.deck_args false))
                                Samples.deck_fs)))))
     = true.
Proof.
  split; [vm_compute; reflexivity|].
  apply (second_run_copies_nothing ["/"] (Samples.deck_args false) Samples.deck_fs);
    vm_compute; reflexivity.
Defined.

(** C6 as stated fails when two sources share a normalized name: on the
    deck with [d1.png] and [da.png] of different sizes the second run of
    the tool copies both again, the sources being what they were. *)
Lemma clash_copies_again :
  map src (plans_in (run (main_pool ["/"] (Samples.deck_args false)) Samples.clash_fs))
  = [["/"; "deck"; "da.png"]; ["/"; "deck"; "d1.png"]; ["/"; "deck"; "hT.JPG"];
     ["/"; "deck"; "table.glb"]]
  /\ map (fun s => world (snd (run (main ["/"] (Samples.deck_args false))
                                   Samples.clash_fs)) !! s)
       [["/"; "deck"; "da.png"]; ["/"; "deck"; "d1.png"]]
     = map (fun s => Samples.clash_fs !! s)
         [["/"; "deck"; "da.png"]; ["/"; "deck"; "d1.png"]]
  /\ map (fun f => match f with Ok (_, s) => s | Raise e => strerror e end)
       (futures_in
          (run (main_pool ["/"] (Samples.deck_args false))
               (world (snd (run (main ["/"] (Samples.deck_args false))
                                Samples.clash_fs)))))
     = ["copied"; "copied"; "skip (same size)"; "skip (same size)"].
Proof. repeat split; vm_compute; reflexivity. Qed.

(** The hypotheses on directories are needed as well: with a destination
    that is a directory, [shutil.copy2] copies into it, the skip rule
    compares the source with the directory, and the second run copies
    again. *)
Example directory_destination_copies_again :
  map (fun f => match f with Ok (_, s) => s | Raise e => strerror e end)
      (futures_in
         (run (main_pool ["/"] (Samples.deck_args false))
              (world (snd (run (main ["/"] (Samples.deck_args false))
                               (<[ (Samples.images_root ++ ["da.png"])%list := Dir true ]>
                                  Samples.stale_fs))))))
  = ["copied"; "skip (same size)"; "skip (same size)"].
Proof. vm_compute. reflexivity. Qed.

(** ** What the exit code 0 says *)

Section RunMore.
Import MapFS.

Lemma exit_zero_no_error (futures : list Future) :
  Forall well_formed_future futures ->
  exit_code_of futures = Ok 0%Z ->
  forallb is_ok futures = true /\ existsb is_error futures = false.
Proof.
  intros Hwf. unfold exit_code_of. destruct (forallb is_ok futures) eqn:Hok.
  - destruct (tally_loop_ok futures (mkTally 0 0 0) Hok Hwf) as (t & -> & He).
    simpl in He. destruct (errors t =? 0)%nat; [|discriminate].
    intros _. split; [done|]. by destruct (existsb is_error futures).
  - destruct (tally_loop_raises futures (mkTally 0 0 0) Hok Hwf) as (e & ->). discriminate.
Qed.

Lemma settled_in_place (p : CopyPlan) (fs : FS) :
  settled p fs -> is_dir_node (fs !! dest p) = false ->
  exists data ns,
    fs !! dest p = Some (File data)
    /\ fs !! src p = Some ns
    /\ st_size ns = String.length data.
Proof.
  intros [Hs _] Hd. unfold skip_rule in Hs.
  destruct (fs !! dest p) as [[data|r]|]; [|done|done].
  destruct (fs !! src p) as [ns|]; [|done].
  exists data, ns. apply Nat.eqb_eq in Hs. done.
Qed.

End RunMore.

(** X20: exit code 0 means the work is done: when the plans do not
    interfere and the outcomes of a run that is not a dry run give the
    exit code 0, then in the file system the run left every plan has its
    destination in place, a regular file of the size of the plan's
    source. *)
Theorem exit_zero_means_destinations_in_place
  (plans : list CopyPlan) (fs : gmap Path node) :
  let r := run (submit_all plans false) fs in
  independent plans fs = true ->
  exit_code_of (futures_of r) = Ok 0%Z ->
  forall p, In p plans ->
    exists data ns,
      world (snd r) !! dest p = Some (File data)
      /\ world (snd r) !! src p = Some ns
      /\ MapFS.st_size ns = String.length data.
Proof.
  intros r Hind Hexit p Hp.
  destruct (independent_elim plans fs Hind) as (Hinj & Hsrc & Hway & Hinv).
  destruct (first_run plans Hinj Hsrc Hway plans fs []) as (I1 & _ & _ & _ & _ & I6);
    [done|done|].
  fold (run (submit_all plans false) fs) in I1, I6. fold r in I1, I6.
  assert (Hwf : Forall well_formed_future (futures_of r)).
  { destruct (submit_all_total plans false (mkState fs [])) as (futs & st' & E & _ & Hwf).
    subst r. unfold run, futures_of. by rewrite E. }
  destruct (exit_zero_no_error _ Hwf Hexit) as [Hok Herr].
  destruct (Forall2_in_left _ _ _ p I6 Hp) as (fut & Hfut & Ha).
  apply settled_in_place; [|by apply I1].
  destruct fut as [[pl s]|e].
  - destruct Ha as [_ Ha].
    assert (Hs : startswith s "ERROR: " = false).
    { destruct (startswith s "ERROR: ") eqn:E; [|done].
      assert (existsb is_error (futures_of r) = true); [|congruence].
      apply existsb_exists. exists (Ok (pl, s)). split; [done|exact E]. }
    by rewrite Hs in Ha.
  - rewrite forallb_forall in Hok. by specialize (Hok _ Hfut).
Qed.

Lemma exit_zero_means_destinations_in_place_witness :
  exists data ns,
    world (snd (run (submit_all Samples.deck_plans false) Samples.deck_fs))
      !! dest Samples.ace_plan
    = Some (File data)
    /\ world (snd (run (submit_all Samples.deck_plans false) Samples.deck_fs))
         !! src Samples.ace_plan
       = Some ns
    /\ MapFS.st_size ns = String.length data.
Proof.
  apply (exit_zero_means_destinations_in_place Samples.deck_plans Samples.deck_fs).
  - vm_compute. reflexivity.
  - vm_compute. reflexivity.
  - left. reflexivity.
Defined.
